(** * mod_crowdsec: a shallow embedding of the access checker

    The development follows [mod_crowdsec.c]: the cache key derivation,
    the two configuration merges, the directive handlers, the base URL
    parser, and the request path
    [crowdsec_check_access] -> [crowdsec_query] ->
    [crowdsec_from_cache] / [crowdsec_proxy] / [crowdsec_to_cache].

    Conventions.
    - A value of type [string] stands for a C string: the bytes before the
      terminating NUL.  A pointer that may be NULL is an [option].
    - [int] and [apr_status_t] values are [Z]; [apr_size_t] indices are
      [nat] (no index below ever leaves the range of the string it walks).
    - The host (httpd, APR, the socache provider, the expression engine) is
      not part of the module; it appears as the record [host] and as the
      provider record [ap_socache_provider_t]. *)

From Stdlib Require Import ZArith String Ascii List Lia Bool DecimalString.
From stdpp Require Import base gmap strings list.

Local Open Scope Z_scope.

(** ** Constants of httpd.h and apr_errno.h *)

Module Httpd.
Definition OK : Z := 0.
Definition DECLINED : Z := -1.
Definition HTTP_OK : Z := 200.
Definition HTTP_FORBIDDEN : Z := 403.
Definition HTTP_NOT_FOUND : Z := 404.
Definition HTTP_TOO_MANY_REQUESTS : Z := 429.
Definition HTTP_INTERNAL_SERVER_ERROR : Z := 500.
End Httpd.
Export Httpd.

Module Apr.
Definition apr_status_t : Type := Z.
Definition APR_SUCCESS : apr_status_t := 0.
(* APR_STATUS_IS_EBUSY(s) is (s == APR_EBUSY), EBUSY of errno.h *)
Definition APR_EBUSY : apr_status_t := 16.
(* APR_STATUS_IS_NOTFOUND(s) is (s == APR_NOTFOUND),
   APR_OS_START_STATUS + 15 *)
Definition APR_NOTFOUND : apr_status_t := 70015.
Definition APR_STATUS_IS_EBUSY (s : apr_status_t) : bool := s =? APR_EBUSY.
Definition APR_STATUS_IS_NOTFOUND (s : apr_status_t) : bool :=
  s =? APR_NOTFOUND.
(* apr_time_t counts microseconds *)
Definition apr_time_from_sec (sec : Z) : Z := sec * 1000000.
End Apr.
Export Apr.

Definition CROWDSEC_CACHE_TIMEOUT_DEFAULT : Z := 60.
Definition MAX_VAL_LEN : nat := 256.

(** ** C strings and buffers *)

Definition NUL : ascii := Ascii.zero.

(** The C string held by a byte buffer: everything before the first NUL. *)
Fixpoint c_str (bytes : string) : string :=
  match bytes with
  | EmptyString => EmptyString
  | String c rest =>
      if Ascii.eqb c NUL then EmptyString else String c (c_str rest)
  end.

(** [memset(buf, c, n)] and [memcpy(dst, src, n)] on a buffer at least
    [n] bytes long. *)
Definition memset (buf : list ascii) (c : ascii) (n : nat) : list ascii :=
  replicate n c ++ drop n buf.

Definition memcpy (dst src : list ascii) (n : nat) : list ascii :=
  take n src ++ drop n dst.

(** [apr_pcalloc(pool, n)] as a byte buffer. *)
Definition apr_pcalloc_bytes (n : nat) : list ascii := replicate n NUL.

(** The double quote character. *)
Definition dquote : ascii := ascii_of_nat 34.

(** [printf]'s [%d]. *)
Definition fmt_d (n : Z) : string := NilZero.string_of_int (Z.to_int n).

(** ** Cache key (mod_crowdsec.c, crowdsec_cache_key)

    The result is the pair (key pointer, [*len]); the provider reads
    [*len] bytes from the pointer, so the key is given as those bytes. *)
Definition crowdsec_cache_key (useragent_ip : string) : string * nat :=
  let key := useragent_ip in
  let slen := String.length key in
  if (slen <? 4)%nat then
    let padded := apr_pcalloc_bytes 5 in
    let padded := memset padded " "%char 4 in
    let padded := memcpy padded (list_ascii_of_string useragent_ip) slen in
    (string_of_list_ascii (take 4 padded), 4%nat)
  else
    (key, slen).

(** ** Configuration records *)

Record struct_url : Type := mk_url {
  scheme : string;
  authority : string;
  path : option string
}.

Inductive crowdsec_fallback : Type :=
| CROWDSEC_FAIL
| CROWDSEC_BLOCK
| CROWDSEC_ALLOW.

(** A compiled [ap_expr_info_t], kept as the expression it was parsed from. *)
Definition ap_expr_info_t : Type := string.

(** The shared object cache provider, reduced to the two entry points used
    on the request path.  [I] is the state of a cache instance; the extra
    [Z] argument of each is the clock the provider reads. *)
Record ap_socache_provider_t (I : Type) : Type := mk_provider {
  (* store(instance, s, key, keylen, expiry, data, datalen, pool) *)
  store : I -> Z -> string -> nat -> Z -> string -> nat -> apr_status_t * I;
  (* retrieve(instance, s, key, keylen, val, &vallen, pool): the status and
     the [vallen] bytes written to [val]; the last argument is the
     capacity passed in through [vallen] *)
  retrieve : I -> Z -> string -> nat -> nat -> apr_status_t * string
}.
Arguments mk_provider {I} _ _.
Arguments store {I} _ _ _ _ _ _ _ _.
Arguments retrieve {I} _ _ _ _ _ _.

Record crowdsec_server_rec (I : Type) : Type := mk_server_rec {
  url : option struct_url;
  key : option string;
  (* apr_global_mutex_t *cache_mutex: [true] when not NULL *)
  cache_mutex : bool;
  cache_provider : option (ap_socache_provider_t I);
  (* ap_socache_instance_t *cache_instance: [true] when not NULL; the
     contents of the instance live in the [world] *)
  cache_instance : bool;
  cache_timeout : Z;
  url_set : bool;
  key_set : bool;
  cache_provider_set : bool;
  cache_timeout_set : bool
}.
Arguments mk_server_rec {I} _ _ _ _ _ _ _ _ _ _.
Arguments url {I} _.
Arguments key {I} _.
Arguments cache_mutex {I} _.
Arguments cache_provider {I} _.
Arguments cache_instance {I} _.
Arguments cache_timeout {I} _.
Arguments url_set {I} _.
Arguments key_set {I} _.
Arguments cache_provider_set {I} _.
Arguments cache_timeout_set {I} _.

Record crowdsec_config_rec : Type := mk_config_rec {
  response : option string;
  location : option ap_expr_info_t;
  enable : bool;
  fallback : crowdsec_fallback;
  (* http_code blockedhttpcode: an enum, stored as its integer *)
  blockedhttpcode : Z;
  enable_set : bool;
  fallback_set : bool;
  location_set : bool;
  blockedhttpcode_set : bool
}.

(** ** Creation and merge of the configuration records *)

(** [apr_pcalloc] of a [crowdsec_config_rec]: every field is zero. *)
Definition create_crowdsec_dir_config : crowdsec_config_rec :=
  {| response := None; location := None; enable := false;
     fallback := CROWDSEC_FAIL; blockedhttpcode := 0;
     enable_set := false; fallback_set := false; location_set := false;
     blockedhttpcode_set := false |}.

Definition merge_crowdsec_dir_config (base add : crowdsec_config_rec)
  : crowdsec_config_rec :=
  {| response := None;
     enable := if negb (enable_set add) then enable base else enable add;
     enable_set := enable_set add || enable_set base;
     fallback :=
       if negb (fallback_set add) then fallback base else fallback add;
     fallback_set := fallback_set add || fallback_set base;
     location :=
       if negb (location_set add) then location base else location add;
     location_set := location_set add || location_set base;
     blockedhttpcode :=
       if negb (blockedhttpcode_set add) then blockedhttpcode base
       else blockedhttpcode add;
     blockedhttpcode_set :=
       blockedhttpcode_set add || blockedhttpcode_set base |}.

Definition create_crowdsec_server_config {I} : crowdsec_server_rec I :=
  {| url := None; key := None; cache_mutex := false;
     cache_provider := None; cache_instance := false;
     cache_timeout := apr_time_from_sec CROWDSEC_CACHE_TIMEOUT_DEFAULT;
     url_set := false; key_set := false; cache_provider_set := false;
     cache_timeout_set := false |}.

Definition merge_crowdsec_server_config {I}
  (base add : crowdsec_server_rec I) : crowdsec_server_rec I :=
  {| url := if negb (url_set add) then url base else url add;
     url_set := url_set add || url_set base;
     key := if negb (key_set add) then key base else key add;
     key_set := key_set add || key_set base;
     cache_mutex := false;
     cache_provider :=
       if negb (cache_provider_set add) then cache_provider base
       else cache_provider add;
     cache_instance :=
       if negb (cache_provider_set add) then cache_instance base
       else cache_instance add;
     cache_provider_set := cache_provider_set add || cache_provider_set base;
     cache_timeout :=
       if negb (cache_timeout_set add) then cache_timeout base
       else cache_timeout add;
     cache_timeout_set := cache_timeout_set add || cache_timeout_set base |}.

(** ** Directive handlers

    A handler returns the error message ([None] for C's NULL) together
    with the configuration record as it leaves the handler. *)

Definition set_crowdsec (conf : crowdsec_config_rec) (flag : bool)
  : option string * crowdsec_config_rec :=
  (None,
   {| response := response conf; location := location conf;
      enable := flag; fallback := fallback conf;
      blockedhttpcode := blockedhttpcode conf;
      enable_set := true; fallback_set := fallback_set conf;
      location_set := location_set conf;
      blockedhttpcode_set := blockedhttpcode_set conf |}).

Definition with_fallback (conf : crowdsec_config_rec) (f : crowdsec_fallback)
  : crowdsec_config_rec :=
  {| response := response conf; location := location conf;
     enable := enable conf; fallback := f;
     blockedhttpcode := blockedhttpcode conf;
     enable_set := enable_set conf; fallback_set := fallback_set conf;
     location_set := location_set conf;
     blockedhttpcode_set := blockedhttpcode_set conf |}.

Definition with_fallback_set (conf : crowdsec_config_rec)
  : crowdsec_config_rec :=
  {| response := response conf; location := location conf;
     enable := enable conf; fallback := fallback conf;
     blockedhttpcode := blockedhttpcode conf;
     enable_set := enable_set conf; fallback_set := true;
     location_set := location_set conf;
     blockedhttpcode_set := blockedhttpcode_set conf |}.

Definition set_crowdsec_fallback (conf : crowdsec_config_rec) (arg : string)
  : option string * crowdsec_config_rec :=
  if String.eqb arg "fail" then
    (None, with_fallback_set (with_fallback conf CROWDSEC_FAIL))
  else if String.eqb arg "block" then
    (None, with_fallback_set (with_fallback conf CROWDSEC_BLOCK))
  else if String.eqb arg "allow" then
    (None, with_fallback_set (with_fallback conf CROWDSEC_ALLOW))
  else
    (Some ("Unknown CrowdsecFallback '" +:+ arg +:+
           "'. Valid values are 'fail', 'block' and 'allow'."), conf).

(** libc's [atoi] as glibc has it on an LP64 platform:
    [(int) strtol (nptr, NULL, 10)].  [strtol] skips leading white space,
    takes an optional sign and the longest run of decimal digits, and
    answers LONG_MIN or LONG_MAX when the value does not fit a [long];
    the conversion to [int] keeps the low 32 bits. *)
Definition isspace (c : ascii) : bool :=
  let n := nat_of_ascii c in
  ((n =? 32) || ((9 <=? n) && (n <=? 13)))%nat.

Definition digit_value (c : ascii) : option Z :=
  let n := nat_of_ascii c in
  if ((48 <=? n) && (n <=? 57))%nat then Some (Z.of_nat n - 48) else None.

Definition LONG_MAX : Z := 9223372036854775807.
Definition LONG_MIN : Z := -9223372036854775808.

(** The value of the longest run of digits at the head of [s]. *)
Fixpoint atoi_digits (s : string) (acc : Z) : Z :=
  match s with
  | EmptyString => acc
  | String c rest =>
      match digit_value c with
      | Some d => atoi_digits rest (10 * acc + d)
      | None => acc
      end
  end.

(** White space, sign and digits, before any range check. *)
Fixpoint strtol_value (s : string) : Z :=
  match s with
  | EmptyString => 0
  | String c rest =>
      if isspace c then strtol_value rest
      else if Ascii.eqb c "-" then - atoi_digits rest 0
      else if Ascii.eqb c "+" then atoi_digits rest 0
      else atoi_digits s 0
  end.

Definition strtol (s : string) : Z :=
  Z.max LONG_MIN (Z.min LONG_MAX (strtol_value s)).

(** [(int) n] for a [long] n: the low 32 bits, read as two's complement. *)
Definition int_of_long (n : Z) : Z :=
  (n + 2147483648) mod 4294967296 - 2147483648.

Definition atoi (s : string) : Z := int_of_long (strtol s).

Definition with_blockedhttpcode (conf : crowdsec_config_rec) (code : Z)
  : crowdsec_config_rec :=
  {| response := response conf; location := location conf;
     enable := enable conf; fallback := fallback conf;
     blockedhttpcode := code;
     enable_set := enable_set conf; fallback_set := fallback_set conf;
     location_set := location_set conf;
     blockedhttpcode_set := blockedhttpcode_set conf |}.

Definition with_blockedhttpcode_set (conf : crowdsec_config_rec)
  : crowdsec_config_rec :=
  {| response := response conf; location := location conf;
     enable := enable conf; fallback := fallback conf;
     blockedhttpcode := blockedhttpcode conf;
     enable_set := enable_set conf; fallback_set := fallback_set conf;
     location_set := location_set conf;
     blockedhttpcode_set := true |}.

Definition set_crowdsec_blockedhttpcode (conf : crowdsec_config_rec)
  (arg : string) : option string * crowdsec_config_rec :=
  let http_code := atoi arg in
  if (http_code =? HTTP_FORBIDDEN)
     || (http_code =? HTTP_INTERNAL_SERVER_ERROR)
     || (http_code =? HTTP_TOO_MANY_REQUESTS)
  then (None, with_blockedhttpcode_set (with_blockedhttpcode conf http_code))
  else (Some ("Unknown CrowdsecBlockedHTTPCode '" +:+ arg +:+
              "'. Valid values are 403, 500 and 429."), conf).

(** [ap_expr_parse_cmd] belongs to the host: it yields the compiled
    expression (or NULL) and writes the error. *)
Definition set_crowdsec_location
  (ap_expr_parse_cmd : string -> option ap_expr_info_t * option string)
  (conf : crowdsec_config_rec) (arg : string)
  : option string * crowdsec_config_rec :=
  let '(e, expr_err) := ap_expr_parse_cmd arg in
  let conf :=
    {| response := response conf; location := e;
       enable := enable conf; fallback := fallback conf;
       blockedhttpcode := blockedhttpcode conf;
       enable_set := enable_set conf; fallback_set := fallback_set conf;
       location_set := location_set conf;
       blockedhttpcode_set := blockedhttpcode_set conf |} in
  match expr_err with
  | Some err =>
      (Some ("crowdsec: cannot parse expression '" +:+ arg +:+
             "' in CrowdsecLocation: " +:+ err), conf)
  | None =>
      (None,
       {| response := response conf; location := location conf;
          enable := enable conf; fallback := fallback conf;
          blockedhttpcode := blockedhttpcode conf;
          enable_set := enable_set conf; fallback_set := fallback_set conf;
          location_set := true;
          blockedhttpcode_set := blockedhttpcode_set conf |})
  end.

(** ** The base URL parser (mod_crowdsec.c, find_base_lapi_url) *)

(** [s + n] for a pointer into a C string, and [apr_pstrndup(pool, s, n)]. *)
Fixpoint str_drop (n : nat) (s : string) : string :=
  match n, s with
  | O, _ => s
  | S n', String _ rest => str_drop n' rest
  | S _, EmptyString => EmptyString
  end.

Fixpoint apr_pstrndup (s : string) (n : nat) : string :=
  match n, s with
  | O, _ => EmptyString
  | S n', String c rest => String c (apr_pstrndup rest n')
  | S _, EmptyString => EmptyString
  end.

(** [url[i]]: [None] is the terminating NUL. *)
Definition char_at (s : string) (i : nat) : option ascii := String.get i s.

Definition tolower (c : ascii) : ascii :=
  let n := nat_of_ascii c in
  if ((65 <=? n) && (n <=? 90))%nat then ascii_of_nat (n + 32) else c.

Definition head_byte (s : string) : ascii :=
  match s with EmptyString => NUL | String c _ => c end.

(** [apr_cstr_casecmpn(s1, s2, n)]: compares at most [n] bytes, folding
    case, and stops at a NUL. *)
Fixpoint apr_cstr_casecmpn (s1 s2 : string) (n : nat) : Z :=
  match n with
  | O => 0
  | S n' =>
      let c1 := tolower (head_byte s1) in
      let c2 := tolower (head_byte s2) in
      if negb (Ascii.eqb c1 c2) then
        Z.of_nat (nat_of_ascii c1) - Z.of_nat (nat_of_ascii c2)
      else if Ascii.eqb c1 NUL then 0
      else apr_cstr_casecmpn (str_drop 1 s1) (str_drop 1 s2) n'
  end.

(** The locals of the loop. *)
Record lapi_state : Type := mk_lapi_state {
  st_i : nat;
  st_scheme : option string;
  st_authority : option string;
  st_authority_start_idx : nat;
  st_path : option string
}.

Definition with_i (st : lapi_state) (i : nat) : lapi_state :=
  {| st_i := i; st_scheme := st_scheme st; st_authority := st_authority st;
     st_authority_start_idx := st_authority_start_idx st;
     st_path := st_path st |}.

(** How one pass through the loop body ends. *)
Inductive lapi_step : Type :=
| LContinue (st : lapi_state)
| LBreak (st : lapi_state)
| LReturn (err : string).

(** The loop body at [url[i] = c].  The [i--] of the authority branch is
    only reached once the scheme is set, hence with [3 <= i]. *)
Definition lapi_body (url : string) (st : lapi_state) (c : ascii)
  : lapi_step :=
  let i := st_i st in
  match st_scheme st with
  | None =>
      if Ascii.eqb c ":" then
        let scheme := apr_pstrndup url i in
        if negb (apr_cstr_casecmpn (str_drop (i + 1) url) "//" 2 =? 0) then
          LReturn ("invalid lapi base url: " +:+ String dquote "//" +:+
                   String dquote " after scheme not found")
        else
          LContinue {| st_i := (i + 2)%nat; st_scheme := Some scheme;
                       st_authority := st_authority st;
                       st_authority_start_idx := (i + 3)%nat;
                       st_path := st_path st |}
      else LContinue st
  | Some _ =>
      match st_authority st with
      | None =>
          if Ascii.eqb c "/" then
            let start := st_authority_start_idx st in
            LContinue {| st_i := (i - 1)%nat; st_scheme := st_scheme st;
                         st_authority :=
                           Some (apr_pstrndup (str_drop start url)
                                              (i - start));
                         st_authority_start_idx := start;
                         st_path := st_path st |}
          else LContinue st
      | Some _ =>
          match st_path st with
          | None =>
              LBreak {| st_i := i; st_scheme := st_scheme st;
                        st_authority := st_authority st;
                        st_authority_start_idx := st_authority_start_idx st;
                        st_path := Some (str_drop i url) |}
          | Some _ => LContinue st
          end
      end
  end.

(** [for (i = ...; url[i] != 0; i++) body]: [None] when the fuel runs out,
    otherwise the locals at loop exit or the error returned from inside. *)
Fixpoint lapi_loop (fuel : nat) (url : string) (st : lapi_state)
  : option (lapi_state + string) :=
  match fuel with
  | O => None
  | S fuel' =>
      match char_at url (st_i st) with
      | None => Some (inl st)
      | Some c =>
          match lapi_body url st c with
          | LContinue st' => lapi_loop fuel' url (with_i st' (S (st_i st')))
          | LBreak st' => Some (inl st')
          | LReturn err => Some (inr err)
          end
      end
  end.

Definition lapi_init : lapi_state :=
  {| st_i := 0; st_scheme := None; st_authority := None;
     st_authority_start_idx := 0; st_path := None |}.

(** What follows the loop. *)
Definition lapi_finish (url : string) (st : lapi_state)
  : string + struct_url :=
  match st_scheme st with
  | None => inl "invalid lapi base url: scheme is missing"
  | Some scheme =>
      match st_authority st with
      | None =>
          match char_at url (st_authority_start_idx st) with
          | None => inl "invalid lapi base url: authority is missing"
          | Some _ =>
              inr {| scheme := scheme;
                     authority := str_drop (st_authority_start_idx st) url;
                     path := st_path st |}
          end
      | Some authority =>
          inr {| scheme := scheme; authority := authority;
                 path := st_path st |}
      end
  end.

(** [inl err] when [*err] is set and NULL returned, [inr u] for the parsed
    URL.  The loop gets [strlen(url) + 2] rounds of fuel, which it never
    exhausts ([find_base_lapi_url_total]). *)
Definition find_base_lapi_url (url : string) : option (string + struct_url) :=
  match lapi_loop (String.length url + 2) url lapi_init with
  | None => None
  | Some (inr err) => Some (inl err)
  | Some (inl st) => Some (lapi_finish url st)
  end.

(** ** Server-scope directive handlers *)

Definition set_crowdsec_url {I} (sconf : crowdsec_server_rec I)
  (arg : string) : option (option string * crowdsec_server_rec I) :=
  match find_base_lapi_url arg with
  | None => None
  | Some (inl err) => Some (Some err, sconf)
  | Some (inr u) =>
      Some (None,
            {| url := Some u; key := key sconf;
               cache_mutex := cache_mutex sconf;
               cache_provider := cache_provider sconf;
               cache_instance := cache_instance sconf;
               cache_timeout := cache_timeout sconf;
               url_set := true; key_set := key_set sconf;
               cache_provider_set := cache_provider_set sconf;
               cache_timeout_set := cache_timeout_set sconf |})
  end.

Definition set_crowdsec_api_key {I} (sconf : crowdsec_server_rec I)
  (arg : string) : option string * crowdsec_server_rec I :=
  (None,
   {| url := url sconf; key := Some arg;
      cache_mutex := cache_mutex sconf;
      cache_provider := cache_provider sconf;
      cache_instance := cache_instance sconf;
      cache_timeout := cache_timeout sconf;
      url_set := url_set sconf; key_set := true;
      cache_provider_set := cache_provider_set sconf;
      cache_timeout_set := cache_timeout_set sconf |}).

Definition set_crowdsec_cache_timeout {I} (sconf : crowdsec_server_rec I)
  (arg : string) : option string * crowdsec_server_rec I :=
  let secs := atoi arg in
  (None,
   {| url := url sconf; key := key sconf;
      cache_mutex := cache_mutex sconf;
      cache_provider := cache_provider sconf;
      cache_instance := cache_instance sconf;
      cache_timeout := apr_time_from_sec secs;
      url_set := url_set sconf; key_set := key_set sconf;
      cache_provider_set := cache_provider_set sconf;
      cache_timeout_set := true |}).

(** ** Requests, the host and the world *)

Definition apr_table_t : Type := list (string * string).

(** [apr_table_setn]: the entry for the key is replaced. *)
Definition apr_table_setn (t : apr_table_t) (k v : string) : apr_table_t :=
  List.filter (fun e => negb (String.eqb (fst e) k)) t ++ [(k, v)].

Definition PROXYREQ_NONE : Z := 0.
Definition PROXYREQ_REVERSE : Z := 2.

(** The fields of [request_rec] the module reads or writes.  [r->notes]
    and the custom response of the main request are in the [world]. *)
Record request_rec (I : Type) : Type := mk_request_rec {
  (* r->main: [true] when not NULL *)
  main : bool;
  status : Z;
  uri : string;
  unparsed_uri : string;
  filename : option string;
  handler : option string;
  proxyreq : Z;
  useragent_ip : string;
  headers_in : apr_table_t;
  trailers_in : apr_table_t;
  headers_out : apr_table_t;
  trailers_out : apr_table_t;
  output_filters : list string;
  input_filters : list string;
  (* ap_get_module_config(r->server->module_config, &crowdsec_module) *)
  server_config : option (crowdsec_server_rec I);
  (* ap_get_module_config(r->per_dir_config, &crowdsec_module) *)
  per_dir_config : crowdsec_config_rec
}.
Arguments mk_request_rec {I} _ _ _ _ _ _ _ _ _ _ _ _ _ _ _ _.
Arguments main {I} _.
Arguments status {I} _.
Arguments uri {I} _.
Arguments unparsed_uri {I} _.
Arguments filename {I} _.
Arguments handler {I} _.
Arguments proxyreq {I} _.
Arguments useragent_ip {I} _.
Arguments headers_in {I} _.
Arguments trailers_in {I} _.
Arguments headers_out {I} _.
Arguments trailers_out {I} _.
Arguments output_filters {I} _.
Arguments input_filters {I} _.
Arguments server_config {I} _.
Arguments per_dir_config {I} _.

(** What [ap_run_sub_req] leaves behind: its return value, [rr->status],
    and the brigades that reached the head of [rr->output_filters]. *)
Record run_result : Type := mk_run_result {
  run_status : Z;
  run_rr_status : Z;
  run_brigades : list (list string)
}.

(** The host functions the request path calls. *)
Record host (I : Type) : Type := mk_host {
  ap_escape_urlencoded : string -> string;
  ap_get_server_description : string;
  apr_time_now : Z;
  apr_global_mutex_trylock : apr_status_t;
  apr_global_mutex_unlock : apr_status_t;
  (* ap_sub_req_method_uri(method, new_uri, r, NULL) *)
  ap_sub_req_method_uri : string -> string -> request_rec I -> request_rec I;
  ap_run_sub_req : request_rec I -> run_result;
  (* ap_expr_str_exec(r, expr, &err): the string and the error *)
  ap_expr_str_exec : request_rec I -> ap_expr_info_t -> string * option string
}.
Arguments mk_host {I} _ _ _ _ _ _ _ _.
Arguments ap_escape_urlencoded {I} _ _.
Arguments ap_get_server_description {I} _.
Arguments apr_time_now {I} _.
Arguments apr_global_mutex_trylock {I} _.
Arguments apr_global_mutex_unlock {I} _.
Arguments ap_sub_req_method_uri {I} _ _ _ _.
Arguments ap_run_sub_req {I} _ _.
Arguments ap_expr_str_exec {I} _ _ _.

Inductive log_level : Type := APLOG_ERR | APLOG_DEBUG.

(** One constructor per [ap_log_rerror] call of the request path, named
    after its message. *)
Inductive log_msg : Type :=
| LogNoResponseInCache (ip : string)
| LogResponseInCache (ip : string)
| LogCacheRetrieveError (st : apr_status_t) (ip : string)
| LogNotWrittenMutexBusy (ip : string)
| LogNotWrittenLockFailed (st : apr_status_t) (ip : string)
| LogWrittenToCache (ip : string)
| LogNotWrittenToCache (st : apr_status_t) (ip : string)
| LogFailedToReleaseMutex (st : apr_status_t)
| LogLookingUp (ip target : string)
| LogSubrequestRejected (target : string) (st : Z) (uri : string)
| LogCallStatus (st rr_st : Z) (filename : option string)
| LogNotFound404 (target uri : string)
| LogRequestFailed (target : string) (st : Z) (uri : string)
| LogRequestBlocked (target : string) (st : Z) (uri : string)
| LogRequestAcceptedAnyway (target : string) (st : Z) (uri : string)
| LogResponseNotRecorded (target uri : string)
| LogNotBlocked (ip uri : string)
| LogLocationEvalError (err : string)
| LogRedirected (ip resp loc uri : string)
| LogRejected (ip resp uri : string).

(** The calls that leave the module, in the order they are made. *)
Inductive call (I : Type) : Type :=
| CallRetrieve (key : string) (keylen : nat)
| CallTrylock
| CallStore (key : string) (keylen : nat) (expiry : Z) (data : string)
            (datalen : nat)
| CallUnlock
| CallSubReqMethodUri (method new_uri : string)
| CallRunSubReq (rr : request_rec I)
| CallExprStrExec (e : ap_expr_info_t).
Arguments CallRetrieve {I} _ _.
Arguments CallTrylock {I}.
Arguments CallStore {I} _ _ _ _ _.
Arguments CallUnlock {I}.
Arguments CallSubReqMethodUri {I} _ _.
Arguments CallRunSubReq {I} _.
Arguments CallExprStrExec {I} _.

(** Everything a request can change. *)
Record world (I : Type) : Type := mk_world {
  (* contents of the shared object cache instance *)
  w_cache : I;
  (* this worker holds the cache mutex *)
  w_mutex_held : bool;
  (* r->notes *)
  w_notes : apr_table_t;
  (* ap_custom_response(r, status, string) *)
  w_custom_response : option (Z * string);
  w_calls : list (call I);
  w_log : list (log_level * log_msg)
}.
Arguments mk_world {I} _ _ _ _ _ _.
Arguments w_cache {I} _.
Arguments w_mutex_held {I} _.
Arguments w_notes {I} _.
Arguments w_custom_response {I} _.
Arguments w_calls {I} _.
Arguments w_log {I} _.

(** ** The monad of the request path

    State is the [world]; [None] is a fault (a NULL pointer dereferenced). *)
Definition M (I A : Type) : Type := world I -> option (A * world I).

Definition ret {I A} (a : A) : M I A := fun w => Some (a, w).

Definition bind {I A B} (m : M I A) (f : A -> M I B) : M I B :=
  fun w => match m w with
           | None => None
           | Some (a, w') => f a w'
           end.

Definition fault {I A} : M I A := fun _ => None.

Definition deref {I A} (p : option A) : M I A :=
  match p with
  | Some a => ret a
  | None => fault
  end.

Definition get_world {I} : M I (world I) := fun w => Some (w, w).

Definition ap_log_rerror {I} (lvl : log_level) (msg : log_msg) : M I unit :=
  fun w => Some (tt, {| w_cache := w_cache w;
                        w_mutex_held := w_mutex_held w;
                        w_notes := w_notes w;
                        w_custom_response := w_custom_response w;
                        w_calls := w_calls w;
                        w_log := w_log w ++ [(lvl, msg)] |}).

Definition calls {I} (c : call I) : M I unit :=
  fun w => Some (tt, {| w_cache := w_cache w;
                        w_mutex_held := w_mutex_held w;
                        w_notes := w_notes w;
                        w_custom_response := w_custom_response w;
                        w_calls := w_calls w ++ [c];
                        w_log := w_log w |}).

Definition set_cache {I} (c : I) : M I unit :=
  fun w => Some (tt, {| w_cache := c;
                        w_mutex_held := w_mutex_held w;
                        w_notes := w_notes w;
                        w_custom_response := w_custom_response w;
                        w_calls := w_calls w;
                        w_log := w_log w |}).

Definition set_mutex_held {I} (b : bool) : M I unit :=
  fun w => Some (tt, {| w_cache := w_cache w;
                        w_mutex_held := b;
                        w_notes := w_notes w;
                        w_custom_response := w_custom_response w;
                        w_calls := w_calls w;
                        w_log := w_log w |}).

Definition note_setn {I} (k v : string) : M I unit :=
  fun w => Some (tt, {| w_cache := w_cache w;
                        w_mutex_held := w_mutex_held w;
                        w_notes := apr_table_setn (w_notes w) k v;
                        w_custom_response := w_custom_response w;
                        w_calls := w_calls w;
                        w_log := w_log w |}).

Definition ap_custom_response {I} (st : Z) (s : string) : M I unit :=
  fun w => Some (tt, {| w_cache := w_cache w;
                        w_mutex_held := w_mutex_held w;
                        w_notes := w_notes w;
                        w_custom_response := Some (st, s);
                        w_calls := w_calls w;
                        w_log := w_log w |}).

Declare Scope crowdsec_scope.
Delimit Scope crowdsec_scope with crowdsec.
Notation "'let*' x ':=' m 'in' k" := (bind m (fun x => k))
  (at level 10, x pattern, m at level 100, k at level 200)
  : crowdsec_scope.
Notation "m ';;;' k" := (bind m (fun _ => k))
  (at level 100, k at level 200, right associativity) : crowdsec_scope.
Local Open Scope crowdsec_scope.

(** ** The CROWDSEC output filter (mod_crowdsec.c, crowdsec_out_filter)

    A brigade is the list of its buckets' bytes.  The filter flattens the
    brigade into a fresh buffer, terminates it and hangs it on the
    configuration record of the request it filters. *)
Definition apr_brigade_flatten (bb : list string) : string :=
  fold_right String.append EmptyString bb.

Definition crowdsec_out_filter (conf : crowdsec_config_rec)
  (bb : list string) : crowdsec_config_rec :=
  {| response := Some (c_str (apr_brigade_flatten bb));
     location := location conf; enable := enable conf;
     fallback := fallback conf; blockedhttpcode := blockedhttpcode conf;
     enable_set := enable_set conf; fallback_set := fallback_set conf;
     location_set := location_set conf;
     blockedhttpcode_set := blockedhttpcode_set conf |}.

(** ** The request path *)

Section RequestPath.

Context {I : Type} (h : host I).

(** mod_crowdsec.c, crowdsec_from_cache *)
Definition crowdsec_from_cache (r : request_rec I) : M I (option string) :=
  let* sconf := deref (server_config r) in
  match cache_provider sconf with
  | None => ret None
  | Some provider =>
      let '(key, keylen) := crowdsec_cache_key (useragent_ip r) in
      let* w := get_world in
      calls (CallRetrieve key keylen) ;;;
      let '(status, val) :=
        retrieve provider (w_cache w) (apr_time_now h) key keylen
                 (MAX_VAL_LEN - 1)%nat in
      if APR_STATUS_IS_NOTFOUND status then
        ap_log_rerror APLOG_DEBUG (LogNoResponseInCache (useragent_ip r)) ;;;
        ret None
      else if status =? APR_SUCCESS then
        ap_log_rerror APLOG_DEBUG (LogResponseInCache (useragent_ip r)) ;;;
        (* apr_pstrmemdup(r->pool, val, vallen) *)
        ret (Some (c_str val))
      else
        ap_log_rerror APLOG_ERR
          (LogCacheRetrieveError status (useragent_ip r)) ;;;
        ret None
  end.

(** mod_crowdsec.c, crowdsec_to_cache *)
Definition crowdsec_to_cache (r : request_rec I) (response : string)
  : M I unit :=
  let* sconf := deref (server_config r) in
  if negb (cache_mutex sconf) then ret tt
  else
    calls CallTrylock ;;;
    let status := apr_global_mutex_trylock h in
    if APR_STATUS_IS_EBUSY status then
      ap_log_rerror APLOG_DEBUG
        (LogNotWrittenMutexBusy (useragent_ip r)) ;;;
      ret tt
    else if negb (status =? APR_SUCCESS) then
      ap_log_rerror APLOG_ERR
        (LogNotWrittenLockFailed status (useragent_ip r)) ;;;
      ret tt
    else
      set_mutex_held true ;;;
      let '(key, keylen) := crowdsec_cache_key (useragent_ip r) in
      let expiry := apr_time_now h + cache_timeout sconf in
      let* provider := deref (cache_provider sconf) in
      let* w := get_world in
      calls (CallStore key keylen expiry response
                       (String.length response)) ;;;
      let '(status, cache') :=
        store provider (w_cache w) (apr_time_now h) key keylen expiry
              response (String.length response) in
      set_cache cache' ;;;
      (if status =? APR_SUCCESS then
         ap_log_rerror APLOG_DEBUG (LogWrittenToCache (useragent_ip r))
       else
         ap_log_rerror APLOG_ERR
           (LogNotWrittenToCache status (useragent_ip r))) ;;;
      calls CallUnlock ;;;
      let status := apr_global_mutex_unlock h in
      if negb (status =? APR_SUCCESS) then
        ap_log_rerror APLOG_ERR (LogFailedToReleaseMutex status)
      else
        set_mutex_held false.

(** The body synthesised under [CrowdsecFallback block]:
    [[{"error":"'%s' returned %d"}]]. *)
Definition block_body (target : string) (status : Z) : string :=
  "[{" +:+ String dquote "error" +:+ String dquote ":" +:+
  String dquote "'" +:+ target +:+ "' returned " +:+ fmt_d status +:+
  String dquote "}]".

(** The [target] of [crowdsec_proxy]. *)
Definition crowdsec_target (u : struct_url) (r : request_rec I) : string :=
  let api_path := "/v1/decisions?ip=" in
  scheme u +:+ "://" +:+ authority u +:+ api_path +:+
  ap_escape_urlencoded h (useragent_ip r).

(** The subrequest as [crowdsec_proxy] leaves it before running it. *)
Definition proxy_subrequest (sconf : crowdsec_server_rec I)
  (target : string) (rr : request_rec I) : request_rec I :=
  let headers_in := [] in
  let headers_in :=
    match key sconf with
    | Some k => apr_table_setn headers_in "X-Api-Key" k
    | None => headers_in
    end in
  let headers_in :=
    apr_table_setn headers_in "User-Agent" (ap_get_server_description h) in
  {| main := false;
     status := status rr;
     uri := unparsed_uri rr;
     unparsed_uri := unparsed_uri rr;
     filename := Some ("proxy:" +:+ target);
     handler := Some "proxy-server";
     proxyreq := PROXYREQ_REVERSE;
     useragent_ip := useragent_ip rr;
     headers_in := headers_in;
     trailers_in := [];
     headers_out := [];
     trailers_out := [];
     output_filters := ["CROWDSEC"];
     input_filters := ["CROWDSEC_NULL"];
     server_config := server_config rr;
     per_dir_config := per_dir_config rr |}.

(** mod_crowdsec.c, crowdsec_proxy: the return value and what was
    written through [response] ([None]: nothing was written). *)
Definition crowdsec_proxy (r : request_rec I) : M I (Z * option string) :=
  let* sconf := deref (server_config r) in
  let* u := deref (url sconf) in
  let target := crowdsec_target u r in
  ap_log_rerror APLOG_DEBUG (LogLookingUp (useragent_ip r) target) ;;;
  calls (CallSubReqMethodUri "GET" (uri r)) ;;;
  let rr := ap_sub_req_method_uri h "GET" (uri r) r in
  if negb (status rr =? HTTP_OK) then
    ap_log_rerror APLOG_ERR
      (LogSubrequestRejected target (status rr) (uri r)) ;;;
    ret (status rr, None)
  else
    let rr := proxy_subrequest sconf target rr in
    let rrconf := per_dir_config rr in
    calls (CallRunSubReq rr) ;;;
    let res := ap_run_sub_req h rr in
    let status := run_status res in
    (* the CROWDSEC filter sits at the head of rr->output_filters *)
    let rrconf := fold_left crowdsec_out_filter (run_brigades res) rrconf in
    ap_log_rerror APLOG_DEBUG
      (LogCallStatus status (run_rr_status res) (filename rr)) ;;;
    if (HTTP_NOT_FOUND =? status)
       || ((status =? OK) && (HTTP_NOT_FOUND =? run_rr_status res)) then
      ap_log_rerror APLOG_ERR (LogNotFound404 target (uri r)) ;;;
      ret (HTTP_INTERNAL_SERVER_ERROR, None)
    else if negb (status =? OK) then
      let conf := per_dir_config r in
      match fallback conf with
      | CROWDSEC_FAIL =>
          ap_log_rerror APLOG_ERR
            (LogRequestFailed target status (uri r)) ;;;
          note_setn "error-notes"
            ("Could not verify the request against the threat " +:+
             "intelligence service, the request has been rejected.") ;;;
          note_setn "verbose-error-to" "*" ;;;
          ret (HTTP_INTERNAL_SERVER_ERROR, None)
      | CROWDSEC_BLOCK =>
          ap_log_rerror APLOG_ERR
            (LogRequestBlocked target status (uri r)) ;;;
          ret (OK, Some (block_body target status))
      | CROWDSEC_ALLOW =>
          ap_log_rerror APLOG_ERR
            (LogRequestAcceptedAnyway target status (uri r)) ;;;
          ret (OK, Some "null")
      end
    else
      match response rrconf with
      | None =>
          ap_log_rerror APLOG_ERR
            (LogResponseNotRecorded target (uri r)) ;;;
          ret (HTTP_INTERNAL_SERVER_ERROR, None)
      | Some recorded => ret (OK, Some recorded)
      end.

(** mod_crowdsec.c, crowdsec_query from "parse response of crowdsec
    request here" to its end. *)
Definition crowdsec_query_response (r : request_rec I) (response : string)
  : M I Z :=
  let conf := per_dir_config r in
  if String.eqb "null" response then
    ap_log_rerror APLOG_DEBUG (LogNotBlocked (useragent_ip r) (uri r)) ;;;
    ret OK
  else
    match location conf with
    | Some e =>
        calls (CallExprStrExec e) ;;;
        let '(loc, err) := ap_expr_str_exec h r e in
        match err with
        | Some msg =>
            ap_log_rerror APLOG_ERR (LogLocationEvalError msg) ;;;
            ret HTTP_INTERNAL_SERVER_ERROR
        | None =>
            ap_log_rerror APLOG_DEBUG
              (LogRedirected (useragent_ip r) response loc (uri r)) ;;;
            ap_custom_response (blockedhttpcode conf) loc ;;;
            ret (blockedhttpcode conf)
        end
    | None =>
        ap_log_rerror APLOG_DEBUG
          (LogRejected (useragent_ip r) response (uri r)) ;;;
        ret (blockedhttpcode conf)
    end.

(** [!sconf || !sconf->url] *)
Definition no_url (sconf : option (crowdsec_server_rec I)) : bool :=
  match sconf with
  | None => true
  | Some s => match url s with None => true | Some _ => false end
  end.

(** mod_crowdsec.c, crowdsec_query *)
Definition crowdsec_query (r : request_rec I) : M I Z :=
  if main r || no_url (server_config r) then ret DECLINED
  else
    let* response := crowdsec_from_cache r in
    match response with
    | Some response => crowdsec_query_response r response
    | None =>
        let* (status, response) := crowdsec_proxy r in
        if negb (status =? OK) then ret status
        else
          (* a NULL [response] is dereferenced from here on *)
          let* response := deref response in
          crowdsec_to_cache r response ;;;
          crowdsec_query_response r response
    end.

(** mod_crowdsec.c, crowdsec_check_access *)
Definition crowdsec_check_access (r : request_rec I) : M I Z :=
  let conf := per_dir_config r in
  if main r || negb (enable conf) then ret DECLINED
  else
    let* status := crowdsec_query r in
    if status =? OK then ret DECLINED
    else ret status.

End RequestPath.

(** ** A reference provider and a reference host

    Concrete collaborators on which the request path can be run: a
    provider that keeps its entries in a finite map, and a host whose
    answers are given up front. *)

Definition APR_ENOSPC : apr_status_t := 28.

Definition table_store (m : gmap string (Z * string)) (now : Z)
  (k : string) (klen : nat) (expiry : Z) (data : string) (dlen : nat)
  : apr_status_t * gmap string (Z * string) :=
  (APR_SUCCESS, <[k := (expiry, data)]> m).

Definition table_retrieve (m : gmap string (Z * string)) (now : Z)
  (k : string) (klen : nat) (capacity : nat) : apr_status_t * string :=
  match m !! k with
  | None => (APR_NOTFOUND, EmptyString)
  | Some (expiry, data) =>
      if expiry <? now then (APR_NOTFOUND, EmptyString)
      else if (capacity <? String.length data)%nat
           then (APR_ENOSPC, EmptyString)
           else (APR_SUCCESS, data)
  end.

Definition table_provider : ap_socache_provider_t (gmap string (Z * string)) :=
  {| store := table_store; retrieve := table_retrieve |}.

(** A provider whose [store] always fails and leaves the table alone. *)
Definition full_provider : ap_socache_provider_t (gmap string (Z * string)) :=
  {| store := fun m _ _ _ _ _ _ => (APR_ENOSPC, m);
     retrieve := table_retrieve |}.

(** The subrequest the reference host hands out for [new_uri]. *)
Definition reference_subrequest {I} (st : Z) (new_uri : string)
  (r : request_rec I) : request_rec I :=
  {| main := true; status := st; uri := new_uri; unparsed_uri := new_uri;
     filename := None; handler := None; proxyreq := PROXYREQ_NONE;
     useragent_ip := useragent_ip r;
     headers_in := headers_in r; trailers_in := trailers_in r;
     headers_out := []; trailers_out := [];
     output_filters := output_filters r; input_filters := input_filters r;
     server_config := server_config r;
     per_dir_config := per_dir_config r |}.

(** [trylock]: what the try-lock answers; [sub_status]: [rr->status] of a
    new subrequest; [res]: what running it gives; [expr]: what the
    location expression evaluates to.  Addresses are dotted quads, which
    URL-encoding leaves as they are. *)
Definition reference_host {I} (trylock : apr_status_t) (sub_status : Z)
  (res : run_result) (expr : string * option string) : host I :=
  {| ap_escape_urlencoded := fun s => s;
     ap_get_server_description := "Apache";
     apr_time_now := 1000000;
     apr_global_mutex_trylock := trylock;
     apr_global_mutex_unlock := APR_SUCCESS;
     ap_sub_req_method_uri := fun _ new_uri r =>
                                reference_subrequest sub_status new_uri r;
     ap_run_sub_req := fun _ => res;
     ap_expr_str_exec := fun _ _ => expr |}.

Definition reference_url : struct_url :=
  {| scheme := "http"; authority := "localhost:8080"; path := None |}.

(** [CrowdsecURL http://localhost:8080] with or without
    [CrowdsecCache]: the server record after [crowdsec_post_config]. *)
Definition reference_server (cached : bool)
  (provider : ap_socache_provider_t (gmap string (Z * string)))
  : crowdsec_server_rec (gmap string (Z * string)) :=
  {| url := Some reference_url; key := Some "secret";
     cache_mutex := cached;
     cache_provider := if cached then Some provider else None;
     cache_instance := cached;
     cache_timeout := apr_time_from_sec CROWDSEC_CACHE_TIMEOUT_DEFAULT;
     url_set := true; key_set := true; cache_provider_set := cached;
     cache_timeout_set := false |}.

Definition reference_request {I} (ip : string)
  (sconf : option (crowdsec_server_rec I)) (conf : crowdsec_config_rec)
  : request_rec I :=
  {| main := false; status := HTTP_OK; uri := "/index.html";
     unparsed_uri := "/index.html"; filename := None; handler := None;
     proxyreq := PROXYREQ_NONE; useragent_ip := ip;
     headers_in := []; trailers_in := []; headers_out := [];
     trailers_out := []; output_filters := []; input_filters := [];
     server_config := sconf; per_dir_config := conf |}.

Definition empty_world : world (gmap string (Z * string)) :=
  {| w_cache := ∅; w_mutex_held := false; w_notes := [];
     w_custom_response := None; w_calls := []; w_log := [] |}.

(** [Crowdsec on] and nothing else in the section. *)
Definition conf_on : crowdsec_config_rec :=
  snd (set_crowdsec create_crowdsec_dir_config true).

(** [Crowdsec on] with [CrowdsecFallback f] and
    [CrowdsecBlockedHTTPCode 429]. *)
Definition conf_on_429 (f : string) : crowdsec_config_rec :=
  snd (set_crowdsec_blockedhttpcode
         (snd (set_crowdsec_fallback conf_on f)) "429").

(** A decision list as the service returns it for a banned address:
    [[{"scenario":"ban"}]]. *)
Definition ban_body : string :=
  "[{" +:+ String dquote "scenario" +:+ String dquote ":" +:+
  String dquote "ban" +:+ String dquote "}]".

(** A run that answers 200 with [body] in one brigade. *)
Definition answered (body : string) : run_result :=
  {| run_status := OK; run_rr_status := HTTP_OK; run_brigades := [[body]] |}.

(** A run that fails with [st] before any body is produced. *)
Definition failed (st : Z) : run_result :=
  {| run_status := st; run_rr_status := st; run_brigades := [] |}.

(** The scenarios run below: the service answers 200 with [body], or the
    call fails with [st]; the client is 198.51.100.9, with or without a
    cache in front of the service. *)
Definition host_answering (body : string) : host (gmap string (Z * string)) :=
  reference_host APR_SUCCESS HTTP_OK (answered body) ("", None).

Definition host_failing (st : Z) : host (gmap string (Z * string)) :=
  reference_host APR_SUCCESS HTTP_OK (failed st) ("", None).

Definition request_from_client (cached : bool) (conf : crowdsec_config_rec)
  : request_rec (gmap string (Z * string)) :=
  reference_request "198.51.100.9"
                    (Some (reference_server cached table_provider)) conf.

(** The world a run ends in ([d] when it faults). *)
Definition world_of {I A} (d : world I) (res : option (A * world I))
  : world I :=
  match res with
  | Some (_, w) => w
  | None => d
  end.

(** ** Definitions used in the statements *)

(** [c] occurs in [s]. *)
Fixpoint str_mem (c : ascii) (s : string) : bool :=
  match s with
  | EmptyString => false
  | String c' rest => Ascii.eqb c' c || str_mem c rest
  end.

(** The rounds the loop of [find_base_lapi_url] still has to make: one per
    remaining byte, and one more while the authority is not set. *)
Definition lapi_measure (url : string) (st : lapi_state) : nat :=
  (String.length url - st_i st)
  + match st_authority st with None => 1 | Some _ => 0 end.

(** [n] spaces. *)
Definition spaces (n : nat) : string :=
  string_of_list_ascii (replicate n " "%char).

(** The subrequest [crowdsec_proxy] runs for [r], what running it gives,
    and the response the CROWDSEC filter has recorded by then. *)
Definition crowdsec_subrequest {I} (h : host I) (sconf : crowdsec_server_rec I)
  (u : struct_url) (r : request_rec I) : request_rec I :=
  proxy_subrequest h sconf (crowdsec_target h u r)
                   (ap_sub_req_method_uri h "GET" (uri r) r).

Definition crowdsec_run {I} (h : host I) (sconf : crowdsec_server_rec I)
  (u : struct_url) (r : request_rec I) : run_result :=
  ap_run_sub_req h (crowdsec_subrequest h sconf u r).

Definition crowdsec_recorded {I} (h : host I) (sconf : crowdsec_server_rec I)
  (u : struct_url) (r : request_rec I) : option string :=
  response (fold_left crowdsec_out_filter
                      (run_brigades (crowdsec_run h sconf u r))
                      (per_dir_config (crowdsec_subrequest h sconf u r))).

(** ** CrowdsecCache (mod_crowdsec.c, set_crowdsec_cache)

    [ap_lookup_provider] and the [create] entry point of the provider it
    finds belong to the host.  [create] answers with its error message and
    tells whether it left an instance behind. *)

(** [ap_strchr_c(s, c)]: the offset of the first [c], NULL when none. *)
Fixpoint ap_strchr_c (s : string) (c : ascii) : option nat :=
  match s with
  | EmptyString => None
  | String c' rest =>
      if Ascii.eqb c' c then Some O
      else match ap_strchr_c rest c with
           | Some n => Some (S n)
           | None => None
           end
  end.

Definition set_crowdsec_cache {I}
  (ap_lookup_provider : string -> option (ap_socache_provider_t I))
  (create : ap_socache_provider_t I -> option string -> option string * bool)
  (sconf : crowdsec_server_rec I) (cache : string)
  : option string * crowdsec_server_rec I :=
  (* Argument is of form 'name:args' or just 'name'. *)
  let '(name, param) :=
    match ap_strchr_c cache ":" with
    | Some n => (apr_pstrndup cache n, Some (str_drop (n + 1) cache))
    | None => (cache, None)
    end in
  let provider := ap_lookup_provider name in
  let '(err, instance) :=
    match provider with
    | None =>
        (Some ("Unknown socache provider '" +:+ name +:+
               "'. Maybe you need to load the appropriate socache module " +:+
               "(mod_socache_" +:+ name +:+ "?)"),
         cache_instance sconf)
    | Some p => create p param
    end in
  let sconf :=
    {| url := url sconf; key := key sconf;
       cache_mutex := cache_mutex sconf;
       cache_provider := provider;
       cache_instance := instance;
       cache_timeout := cache_timeout sconf;
       url_set := url_set sconf; key_set := key_set sconf;
       cache_provider_set := cache_provider_set sconf;
       cache_timeout_set := cache_timeout_set sconf |} in
  match err with
  | Some err => (Some ("CrowdsecCache: " +:+ err), sconf)
  | None =>
      (None,
       {| url := url sconf; key := key sconf;
          cache_mutex := cache_mutex sconf;
          cache_provider := cache_provider sconf;
          cache_instance := cache_instance sconf;
          cache_timeout := cache_timeout sconf;
          url_set := url_set sconf; key_set := key_set sconf;
          cache_provider_set := true;
          cache_timeout_set := cache_timeout_set sconf |})
  end.

(** ** Start-up and shut-down (mod_crowdsec.c, crowdsec_post_config,
    cleanup_lock, cleanup_cache) *)

Definition with_cache_mutex {I} (sconf : crowdsec_server_rec I) (m : bool)
  : crowdsec_server_rec I :=
  {| url := url sconf; key := key sconf;
     cache_mutex := m;
     cache_provider := cache_provider sconf;
     cache_instance := cache_instance sconf;
     cache_timeout := cache_timeout sconf;
     url_set := url_set sconf; key_set := key_set sconf;
     cache_provider_set := cache_provider_set sconf;
     cache_timeout_set := cache_timeout_set sconf |}.


(** The host calls of start-up and shut-down; [vhost] counts the servers
    along [s->next]. *)
Inductive lifecycle_call : Type :=
| CallMutexCreate (vhost : nat)
| CallRegisterCleanupLock (vhost : nat)
| CallCacheInit (vhost : nat)
| CallRegisterCleanupCache (vhost : nat)
| CallMutexDestroy
| CallCacheDestroy.

(** The [while (s_vhost)] loop of [crowdsec_post_config] from server
    number [i] on.  [mutex_create] and [cache_init] are the statuses of
    [ap_global_mutex_create] and of the provider's [init] for a server.
    The result is the return value, the server records and the calls
    made; [None] is the fault of calling [init] through a NULL provider. *)
Fixpoint crowdsec_post_config_from {I}
  (mutex_create cache_init : nat -> apr_status_t) (i : nat)
  (vhosts : list (crowdsec_server_rec I))
  : option (Z * list (crowdsec_server_rec I) * list lifecycle_call) :=
  match vhosts with
  | [] => Some (OK, [], [])
  | sconf :: rest =>
      if cache_provider_set sconf then
        let status := mutex_create i in
        if negb (status =? APR_SUCCESS) then
          Some (500, sconf :: rest, [CallMutexCreate i])
        else
          let sconf := with_cache_mutex sconf true in
          match cache_provider sconf with
          | None => None
          | Some _ =>
              let status := cache_init i in
              if negb (status =? APR_SUCCESS) then
                Some (500, sconf :: rest,
                      [CallMutexCreate i; CallRegisterCleanupLock i;
                       CallCacheInit i])
              else
                match crowdsec_post_config_from mutex_create cache_init
                                                (S i) rest with
                | None => None
                | Some (st, rest', cs) =>
                    Some (st, sconf :: rest',
                          [CallMutexCreate i; CallRegisterCleanupLock i;
                           CallCacheInit i; CallRegisterCleanupCache i]
                          ++ cs)
                end
          end
      else
        match crowdsec_post_config_from mutex_create cache_init
                                        (S i) rest with
        | None => None
        | Some (st, rest', cs) => Some (st, sconf :: rest', cs)
        end
  end.

Definition crowdsec_post_config {I}
  (mutex_create cache_init : nat -> apr_status_t)
  (vhosts : list (crowdsec_server_rec I))
  : option (Z * list (crowdsec_server_rec I) * list lifecycle_call) :=
  crowdsec_post_config_from mutex_create cache_init 0 vhosts.



(** ** More definitions used in the statements *)

(** A flagged provider is there. *)
Definition provider_flag_ok {I} (sconf : crowdsec_server_rec I) : bool :=
  implb (cache_provider_set sconf)
        (match cache_provider sconf with Some _ => true | None => false end).

(** A configured mutex has its provider. *)
Definition mutex_has_provider {I} (sconf : crowdsec_server_rec I) : bool :=
  implb (cache_mutex sconf)
        (match cache_provider sconf with Some _ => true | None => false end).

(** The calls a server makes in [crowdsec_post_config] when all goes well. *)
Definition post_config_calls {I} (i : nat) (sconf : crowdsec_server_rec I)
  : list lifecycle_call :=
  if cache_provider_set sconf then
    [CallMutexCreate i; CallRegisterCleanupLock i;
     CallCacheInit i; CallRegisterCleanupCache i]
  else [].

(** The request is a subrequest run by [crowdsec_proxy]. *)
Definition is_run_subrequest {I} (c : call I) : bool :=
  match c with
  | CallRunSubReq _ => true
  | _ => false
  end.

(** The call takes or writes the cache (try-lock, store or unlock). *)
Definition is_cache_write {I} (c : call I) : bool :=
  match c with
  | CallTrylock | CallStore _ _ _ _ _ | CallUnlock => true
  | _ => false
  end.

(** The call creates or runs a subrequest. *)
Definition is_upstream {I} (c : call I) : bool :=
  match c with
  | CallSubReqMethodUri _ _ | CallRunSubReq _ => true
  | _ => false
  end.

(** The string starts with a decimal digit. *)
Definition starts_with_digit (s : string) : bool :=
  match s with
  | EmptyString => false
  | String c _ => match digit_value c with Some _ => true | None => false end
  end.

(** A world whose cache holds one entry. *)
Definition world_with_entry (k : string) (expiry : Z) (data : string)
  : world (gmap string (Z * string)) :=
  {| w_cache := {[ k := (expiry, data) ]}; w_mutex_held := false;
     w_notes := []; w_custom_response := None; w_calls := [];
     w_log := [] |}.

(** [Crowdsec on] with [CrowdsecLocation /blocked.html], compiled by a
    host that accepts the expression. *)
Definition conf_on_location : crowdsec_config_rec :=
  snd (set_crowdsec_location (fun arg => (Some arg, None)) conf_on
                             "/blocked.html").

(** The service answers 200 with [body], and the location expression
    evaluates to /blocked.html. *)
Definition host_redirecting (body : string)
  : host (gmap string (Z * string)) :=
  reference_host APR_SUCCESS HTTP_OK (answered body) ("/blocked.html", None).

(** * Theorems *)

(** ** Strings *)

Lemma str_length_app (a b : string) :
  String.length (a +:+ b) = (String.length a + String.length b)%nat.
Proof. induction a as [|c a IH]; simpl; [reflexivity | now rewrite IH]. Qed.

Lemma char_at_lt (s : string) (i : nat) (c : ascii) :
  char_at s i = Some c -> (i < String.length s)%nat.
Proof.
  unfold char_at. revert i.
  induction s as [|c' s IH]; intros [|i] H; simpl in *; try discriminate.
  - lia.
  - apply IH in H. lia.
Qed.

Lemma char_at_app_l (a b : string) (i : nat) :
  (i < String.length a)%nat -> char_at (a +:+ b) i = char_at a i.
Proof.
  unfold char_at. revert i.
  induction a as [|c a IH]; intros [|i] H; simpl in *; try lia.
  - reflexivity.
  - apply IH. lia.
Qed.

Lemma char_at_app_r (a b : string) (i : nat) :
  char_at (a +:+ b) (String.length a + i) = char_at b i.
Proof. unfold char_at. induction a as [|c a IH]; simpl; auto. Qed.

Lemma char_at_app_0 (a b : string) :
  char_at (a +:+ b) (String.length a) = char_at b 0.
Proof.
  pose proof (char_at_app_r a b 0) as H.
  now rewrite Nat.add_0_r in H.
Qed.

Lemma char_at_mem (c : ascii) (s : string) (i : nat) :
  str_mem c s = false -> (i < String.length s)%nat ->
  exists c', char_at s i = Some c' /\ Ascii.eqb c' c = false.
Proof.
  unfold char_at. revert i.
  induction s as [|c' s IH]; intros i Hm Hi; simpl in *; [lia|].
  apply orb_false_iff in Hm as [Hc Hm].
  destruct i as [|i]; simpl.
  - eauto.
  - apply IH; [assumption | lia].
Qed.

Lemma apr_pstrndup_app (a b : string) :
  apr_pstrndup (a +:+ b) (String.length a) = a.
Proof. induction a as [|c a IH]; simpl; [now destruct b | now rewrite IH]. Qed.

Lemma str_drop_app (a b : string) (n : nat) :
  str_drop (String.length a + n) (a +:+ b) = str_drop n b.
Proof. induction a as [|c a IH]; simpl; auto. Qed.

Lemma str_drop_app_0 (a b : string) :
  str_drop (String.length a) (a +:+ b) = b.
Proof.
  rewrite <- (Nat.add_0_r (String.length a)). now rewrite str_drop_app.
Qed.

(** ** The loop of [find_base_lapi_url] *)

Lemma with_i_with_i (st : lapi_state) (i j : nat) :
  with_i (with_i st i) j = with_i st j.
Proof. reflexivity. Qed.

Lemma with_i_same (st : lapi_state) : with_i st (st_i st) = st.
Proof. now destruct st. Qed.

(** More fuel does not change a result. *)
Lemma lapi_loop_mono (url : string) (fuel : nat) :
  forall st res extra,
    lapi_loop fuel url st = Some res ->
    lapi_loop (fuel + extra) url st = Some res.
Proof.
  induction fuel as [|fuel IH]; intros st res extra H; simpl in *.
  - discriminate.
  - destruct (char_at url (st_i st)) as [c|]; [|assumption].
    destruct (lapi_body url st c); auto.
Qed.

Lemma lapi_loop_enough_fuel (url : string) (fuel : nat) :
  forall st, (lapi_measure url st < fuel)%nat ->
             is_Some (lapi_loop fuel url st).
Proof.
  induction fuel as [|fuel IH]; intros st Hm; [lia|].
  simpl. destruct (char_at url (st_i st)) as [c|] eqn:Hc; [|eauto].
  apply char_at_lt in Hc.
  unfold lapi_body.
  destruct st as [i sch auth start pth]; simpl in *.
  unfold lapi_measure in *; simpl in *.
  destruct sch as [sch|].
  - destruct auth as [auth|].
    + destruct pth; [|eauto]. apply IH. simpl. lia.
    + destruct (Ascii.eqb c "/"); apply IH; simpl; lia.
  - destruct (Ascii.eqb c ":").
    + destruct (negb _); [eauto|]. apply IH. simpl.
      destruct auth; lia.
    + apply IH. simpl. destruct auth; lia.
Qed.

(** The parser always returns: the fuel it is given is enough. *)
Lemma find_base_lapi_url_total (url : string) :
  is_Some (find_base_lapi_url url).
Proof.
  unfold find_base_lapi_url.
  destruct (lapi_loop_enough_fuel url (String.length url + 2) lapi_init)
    as [res Hres].
  - unfold lapi_measure. simpl. lia.
  - rewrite Hres. destruct res; eauto.
Qed.

(** Before the scheme is found, bytes other than ':' are skipped. *)
Lemma lapi_loop_skip_scheme (url : string) (n : nat) :
  forall fuel st,
    st_scheme st = None ->
    (forall j, (st_i st <= j < st_i st + n)%nat ->
               exists c, char_at url j = Some c /\ Ascii.eqb c ":" = false) ->
    lapi_loop (n + fuel) url st
    = lapi_loop fuel url (with_i st (st_i st + n)).
Proof.
  induction n as [|n IH]; intros fuel st Hs Hc.
  - rewrite Nat.add_0_r, with_i_same. reflexivity.
  - simpl. destruct (Hc (st_i st)) as (c & Hget & Hne); [lia|].
    rewrite Hget. unfold lapi_body. rewrite Hs, Hne.
    rewrite IH; simpl; auto.
    + rewrite with_i_with_i. f_equal. f_equal. lia.
    + intros j Hj. apply Hc. lia.
Qed.

(** Inside the authority, bytes other than '/' are skipped. *)
Lemma lapi_loop_skip_authority (url : string) (n : nat) :
  forall fuel st,
    st_scheme st <> None -> st_authority st = None ->
    (forall j, (st_i st <= j < st_i st + n)%nat ->
               exists c, char_at url j = Some c /\ Ascii.eqb c "/" = false) ->
    lapi_loop (n + fuel) url st
    = lapi_loop fuel url (with_i st (st_i st + n)).
Proof.
  induction n as [|n IH]; intros fuel st Hs Ha Hc.
  - rewrite Nat.add_0_r, with_i_same. reflexivity.
  - simpl. destruct (Hc (st_i st)) as (c & Hget & Hne); [lia|].
    rewrite Hget. unfold lapi_body.
    destruct (st_scheme st) eqn:Hsch; [|congruence].
    rewrite Ha, Hne.
    rewrite IH; simpl; auto.
    + rewrite with_i_with_i. f_equal. f_equal. lia.
    + rewrite Hsch. discriminate.
    + intros j Hj. apply Hc. lia.
Qed.

(** The round at the ':' that ends the scheme. *)
Lemma lapi_loop_colon (url : string) (fuel : nat) (st : lapi_state) :
  st_scheme st = None ->
  char_at url (st_i st) = Some ":"%char ->
  apr_cstr_casecmpn (str_drop (st_i st + 1) url) "//" 2 = 0 ->
  lapi_loop (S fuel) url st
  = lapi_loop fuel url
      {| st_i := (st_i st + 3)%nat;
         st_scheme := Some (apr_pstrndup url (st_i st));
         st_authority := st_authority st;
         st_authority_start_idx := (st_i st + 3)%nat;
         st_path := st_path st |}.
Proof.
  intros Hs Hc Hcmp. simpl. rewrite Hc. unfold lapi_body.
  rewrite Hs, Hcmp. simpl. unfold with_i. simpl.
  do 2 f_equal. lia.
Qed.

(** The round at the '/' that ends the authority: [i] stays where it is. *)
Lemma lapi_loop_slash (url : string) (fuel : nat) (st : lapi_state) :
  st_scheme st <> None -> st_authority st = None ->
  char_at url (st_i st) = Some "/"%char ->
  (1 <= st_i st)%nat ->
  lapi_loop (S fuel) url st
  = lapi_loop fuel url
      {| st_i := st_i st;
         st_scheme := st_scheme st;
         st_authority :=
           Some (apr_pstrndup (str_drop (st_authority_start_idx st) url)
                              (st_i st - st_authority_start_idx st));
         st_authority_start_idx := st_authority_start_idx st;
         st_path := st_path st |}.
Proof.
  intros Hs Ha Hc Hi. simpl. rewrite Hc. unfold lapi_body.
  destruct (st_scheme st) eqn:Hsch; [|congruence].
  rewrite Ha. simpl. unfold with_i. simpl.
  do 2 f_equal. lia.
Qed.

(** The round that takes the path and leaves the loop. *)
Lemma lapi_loop_path (url : string) (fuel : nat) (st : lapi_state)
  (c : ascii) :
  st_scheme st <> None -> st_authority st <> None -> st_path st = None ->
  char_at url (st_i st) = Some c ->
  lapi_loop (S fuel) url st
  = Some (inl {| st_i := st_i st; st_scheme := st_scheme st;
                 st_authority := st_authority st;
                 st_authority_start_idx := st_authority_start_idx st;
                 st_path := Some (str_drop (st_i st) url) |}).
Proof.
  intros Hs Ha Hp Hc. simpl. rewrite Hc. unfold lapi_body.
  destruct (st_scheme st); [|congruence].
  destruct (st_authority st); [|congruence].
  rewrite Hp. reflexivity.
Qed.

Lemma parse_with_path (sch auth rest : string) :
  str_mem ":" sch = false -> str_mem "/" auth = false ->
  find_base_lapi_url (sch +:+ "://" +:+ auth +:+ "/" +:+ rest)
  = Some (inr {| scheme := sch; authority := auth;
                 path := Some ("/" +:+ rest) |}).
Proof.
  intros Hs Ha.
  set (input := sch +:+ "://" +:+ auth +:+ "/" +:+ rest).
  set (ls := String.length sch). set (la := String.length auth).
  assert (Hat : forall i, char_at input (ls + i)
                          = char_at ("://" +:+ auth +:+ "/" +:+ rest) i)
    by (intro; apply char_at_app_r).
  assert (Hauth : forall i, char_at input (ls + 3 + i)
                            = char_at (auth +:+ "/" +:+ rest) i).
  { intro i. replace (ls + 3 + i)%nat with (ls + (3 + i))%nat by lia.
    rewrite Hat. reflexivity. }
  assert (Hdrop : forall n, str_drop (ls + n) input
                            = str_drop n ("://" +:+ auth +:+ "/" +:+ rest))
    by (intro; apply str_drop_app).
  assert (Hloop :
    lapi_loop (ls + S (la + 2)) input lapi_init
    = Some (inl {| st_i := (ls + 3 + la)%nat; st_scheme := Some sch;
                   st_authority := Some auth;
                   st_authority_start_idx := (ls + 3)%nat;
                   st_path := Some ("/" +:+ rest) |})).
  { rewrite lapi_loop_skip_scheme; [| reflexivity |].
    2:{ intros j [_ Hj]. simpl in Hj. unfold input.
        rewrite char_at_app_l by exact Hj. now apply char_at_mem. }
    change (with_i lapi_init (st_i lapi_init + ls))
      with (with_i lapi_init ls).
    rewrite lapi_loop_colon; simpl st_i; simpl st_authority;
      simpl st_path; simpl st_scheme.
    2: reflexivity.
    2:{ unfold input, ls. rewrite char_at_app_0. reflexivity. }
    2:{ rewrite Hdrop. reflexivity. }
    rewrite lapi_loop_skip_authority; simpl st_i; [| discriminate | reflexivity |].
    2:{ intros j Hj. replace j with (ls + 3 + (j - (ls + 3)))%nat by lia.
        rewrite Hauth, char_at_app_l by (fold la; lia).
        apply char_at_mem; [assumption | fold la; lia]. }
    unfold with_i; simpl st_scheme; simpl st_authority; simpl st_path;
      simpl st_authority_start_idx.
    rewrite lapi_loop_slash;
      cbn [st_i st_scheme st_authority st_path st_authority_start_idx];
      [| discriminate | reflexivity | | lia].
    2:{ unfold la. rewrite Hauth, char_at_app_0. reflexivity. }
    rewrite lapi_loop_path with (c := "/"%char);
      cbn [st_i st_scheme st_authority st_path st_authority_start_idx];
      [| discriminate | discriminate | reflexivity |].
    2:{ unfold la. rewrite Hauth, char_at_app_0. reflexivity. }
    do 3 f_equal.
    - f_equal. apply apr_pstrndup_app.
    - f_equal. replace (ls + 3 + la - (ls + 3))%nat with la by lia.
      rewrite Hdrop. apply apr_pstrndup_app.
    - f_equal. replace (ls + 3 + la)%nat with (ls + (3 + la))%nat by lia.
      rewrite Hdrop.
      change (str_drop la (auth +:+ "/" +:+ rest) = "/" +:+ rest).
      apply str_drop_app_0. }
  unfold find_base_lapi_url.
  replace (String.length input + 2)%nat
    with (ls + S (la + 2) + (String.length rest + 3))%nat.
  2:{ unfold input. rewrite !str_length_app. simpl. lia. }
  rewrite (lapi_loop_mono _ _ _ _ _ Hloop). reflexivity.
Qed.

Lemma parse_missing_authority (sch : string) :
  str_mem ":" sch = false ->
  find_base_lapi_url (sch +:+ "://")
  = Some (inl "invalid lapi base url: authority is missing").
Proof.
  intros Hs.
  set (input := sch +:+ "://"). set (ls := String.length sch).
  assert (Hat : forall i, char_at input (ls + i) = char_at "://" i)
    by (intro; apply char_at_app_r).
  assert (Hloop :
    lapi_loop (ls + 2) input lapi_init
    = Some (inl {| st_i := (ls + 3)%nat; st_scheme := Some sch;
                   st_authority := None;
                   st_authority_start_idx := (ls + 3)%nat;
                   st_path := None |})).
  { rewrite lapi_loop_skip_scheme; [| reflexivity |].
    2:{ intros j [_ Hj]. simpl in Hj. unfold input.
        rewrite char_at_app_l by exact Hj. now apply char_at_mem. }
    change (with_i lapi_init (st_i lapi_init + ls))
      with (with_i lapi_init ls).
    rewrite lapi_loop_colon; simpl.
    2: reflexivity.
    2:{ unfold input, ls. rewrite char_at_app_0. reflexivity. }
    2:{ unfold input, ls. rewrite str_drop_app. reflexivity. }
    rewrite Hat. simpl. do 4 f_equal. apply apr_pstrndup_app. }
  unfold find_base_lapi_url.
  replace (String.length input + 2)%nat with (ls + 2 + 3)%nat.
  2:{ unfold input. rewrite str_length_app. simpl. lia. }
  rewrite (lapi_loop_mono _ _ _ _ _ Hloop).
  unfold lapi_finish. simpl. rewrite Hat. reflexivity.
Qed.

(** C5 (as amended).  For an input [scheme ++ "://" ++ authority ++ "/" ++
    rest] whose scheme holds no ':' and whose authority holds no '/', the
    parser returns the scheme and the authority unchanged and a path that
    starts at the '/' which ends the authority: the path is ["/" ++ rest],
    never absent.  For [scheme ++ "://"] with nothing after it, parsing
    fails with the "authority is missing" error. *)
Theorem find_base_lapi_url_parts (sch auth rest : string) :
  str_mem ":" sch = false -> str_mem "/" auth = false ->
  find_base_lapi_url (sch +:+ "://" +:+ auth +:+ "/" +:+ rest)
  = Some (inr {| scheme := sch; authority := auth;
                 path := Some ("/" +:+ rest) |})
  /\ find_base_lapi_url (sch +:+ "://")
     = Some (inl "invalid lapi base url: authority is missing").
Proof.
  intros Hs Ha. split.
  - now apply parse_with_path.
  - now apply parse_missing_authority.
Qed.

Lemma find_base_lapi_url_parts_witness :
  find_base_lapi_url ("https" +:+ "://" +:+ "lapi.example:8080" +:+ "/" +:+
                      "v1/x")
  = Some (inr {| scheme := "https"; authority := "lapi.example:8080";
                 path := Some ("/" +:+ "v1/x") |})
  /\ find_base_lapi_url ("https" +:+ "://")
     = Some (inl "invalid lapi base url: authority is missing").
Proof.
  apply (find_base_lapi_url_parts "https" "lapi.example:8080" "v1/x");
    reflexivity.
Defined.

(** C5 as stated fails: the path of [http://localhost:8080/v1] is ["/v1"],
    not ["v1"], and the path of [http://localhost:8080/] is ["/"], not
    absent. *)
Lemma find_base_lapi_url_path_keeps_slash :
  (exists u,
     find_base_lapi_url ("http" +:+ "://" +:+ "localhost:8080" +:+ "/" +:+
                         "v1") = Some (inr u)
     /\ path u = Some "/v1" /\ path u <> Some "v1")
  /\ (exists u,
        find_base_lapi_url ("http" +:+ "://" +:+ "localhost:8080" +:+ "/" +:+
                            "") = Some (inr u)
        /\ path u = Some "/" /\ path u <> None /\ path u <> Some "").
Proof.
  split; eexists; (split; [vm_compute; reflexivity |]);
    simpl; repeat split; discriminate.
Qed.

(** A ':' inside the scheme part ends the scheme early: the form of C5
    with scheme [a:b] is rejected. *)
Example find_base_lapi_url_colon_in_scheme :
  find_base_lapi_url ("a:b" +:+ "://" +:+ "c" +:+ "/" +:+ "d")
  = Some (inl ("invalid lapi base url: " +:+ String dquote "//" +:+
               String dquote " after scheme not found")).
Proof. vm_compute. reflexivity. Qed.

(** Without a '/' after the authority the path is absent. *)
Example find_base_lapi_url_no_path :
  find_base_lapi_url "http://localhost:8080"
  = Some (inr {| scheme := "http"; authority := "localhost:8080";
                 path := None |}).
Proof. vm_compute. reflexivity. Qed.

(** ** The cache key *)

(** C8.  The key is never shorter than 4 bytes: an address of 4 bytes or
    more is its own key with its own length; a shorter address gives a key
    of exactly 4 bytes, the address first and spaces after it. *)
Theorem crowdsec_cache_key_padded (ip : string) :
  crowdsec_cache_key ip
  = (if (String.length ip <? 4)%nat
     then (ip +:+ spaces (4 - String.length ip), 4%nat)
     else (ip, String.length ip))
  /\ (4 <= snd (crowdsec_cache_key ip))%nat
  /\ String.length (fst (crowdsec_cache_key ip)) = snd (crowdsec_cache_key ip).
Proof.
  unfold crowdsec_cache_key.
  destruct ip as [|a [|b [|c [|d ip]]]]; repeat split; simpl; lia.
Qed.

Example crowdsec_cache_key_localhost :
  crowdsec_cache_key "::1" = ("::1 ", 4%nat).
Proof. reflexivity. Qed.

(** ** The configuration merges *)

(** C6.  Both merges are right-biased field by field: a field whose flag
    is set in [add] comes from [add] and is flagged; any other field comes
    from [base] with the flag of [base].  Each merged field is a function
    of that field and its flag in the two arguments only. *)
Theorem merge_right_biased :
  (forall base add : crowdsec_config_rec,
     let new := merge_crowdsec_dir_config base add in
     (enable new, enable_set new)
     = (if enable_set add then (enable add, true)
        else (enable base, enable_set base))
     /\ (fallback new, fallback_set new)
        = (if fallback_set add then (fallback add, true)
           else (fallback base, fallback_set base))
     /\ (location new, location_set new)
        = (if location_set add then (location add, true)
           else (location base, location_set base))
     /\ (blockedhttpcode new, blockedhttpcode_set new)
        = (if blockedhttpcode_set add then (blockedhttpcode add, true)
           else (blockedhttpcode base, blockedhttpcode_set base)))
  /\ (forall (I : Type) (base add : crowdsec_server_rec I),
        let new := merge_crowdsec_server_config base add in
        (url new, url_set new)
        = (if url_set add then (url add, true)
           else (url base, url_set base))
        /\ (key new, key_set new)
           = (if key_set add then (key add, true)
              else (key base, key_set base))
        /\ (cache_provider new, cache_instance new, cache_provider_set new)
           = (if cache_provider_set add
              then (cache_provider add, cache_instance add, true)
              else (cache_provider base, cache_instance base,
                    cache_provider_set base))
        /\ (cache_timeout new, cache_timeout_set new)
           = (if cache_timeout_set add then (cache_timeout add, true)
              else (cache_timeout base, cache_timeout_set base))).
Proof.
  split.
  - intros base add. simpl.
    destruct (enable_set add), (fallback_set add), (location_set add),
      (blockedhttpcode_set add); repeat split.
  - intros I base add. simpl.
    destruct (url_set add), (key_set add), (cache_provider_set add),
      (cache_timeout_set add); repeat split.
Qed.

(** A route that sets only [CrowdsecBlockedHTTPCode] keeps everything else
    of its parent. *)
Example merge_overrides_one_field :
  let parent := conf_on_429 "block" in
  let child :=
    snd (set_crowdsec_blockedhttpcode create_crowdsec_dir_config "403") in
  let new := merge_crowdsec_dir_config parent child in
  (enable new, fallback new, blockedhttpcode new)
  = (true, CROWDSEC_BLOCK, 403).
Proof. reflexivity. Qed.

(** ** The cache *)

Section CacheFacts.

Context {I : Type} (h : host I).

(** A lookup calls [retrieve] at most, and changes nothing else. *)
Lemma crowdsec_from_cache_frame (r : request_rec I) (w w1 : world I)
  (res : option string) :
  crowdsec_from_cache h r w = Some (res, w1) ->
  w_cache w1 = w_cache w /\ w_mutex_held w1 = w_mutex_held w
  /\ w_notes w1 = w_notes w
  /\ w_custom_response w1 = w_custom_response w.
Proof.
  unfold crowdsec_from_cache, bind, deref, ret, fault, get_world, calls,
    ap_log_rerror.
  destruct (server_config r) as [sconf|]; [|discriminate].
  destruct (cache_provider sconf) as [p|].
  - destruct (crowdsec_cache_key (useragent_ip r)) as [k n].
    cbn. destruct (retrieve p _ _ _ _ _) as [st val].
    destruct (APR_STATUS_IS_NOTFOUND st); [|destruct (st =? APR_SUCCESS)];
      intros [= <- <-]; cbn; auto.
  - intros [= <- <-]. auto.
Qed.

(** Without a provider every lookup misses and nothing is called. *)
Lemma crowdsec_from_cache_no_provider (r : request_rec I) (w : world I)
  (sconf : crowdsec_server_rec I) :
  server_config r = Some sconf -> cache_provider sconf = None ->
  crowdsec_from_cache h r w = Some (None, w).
Proof.
  intros Hs Hp. unfold crowdsec_from_cache, bind, deref, ret.
  now rewrite Hs, Hp.
Qed.

(** What the cache write leaves in the cache.  With a mutex configured
    the provider has to be there. *)
Lemma crowdsec_to_cache_cache (r : request_rec I) (response : string)
  (w : world I) (sconf : crowdsec_server_rec I)
  (provider : ap_socache_provider_t I) :
  server_config r = Some sconf ->
  (cache_mutex sconf = true -> cache_provider sconf = Some provider) ->
  exists w',
    crowdsec_to_cache h r response w = Some (tt, w')
    /\ w_cache w'
       = if cache_mutex sconf && (apr_global_mutex_trylock h =? APR_SUCCESS)
         then snd (store provider (w_cache w) (apr_time_now h)
                         (fst (crowdsec_cache_key (useragent_ip r)))
                         (snd (crowdsec_cache_key (useragent_ip r)))
                         (apr_time_now h + cache_timeout sconf) response
                         (String.length response))
         else w_cache w.
Proof.
  intros Hs Hwf.
  unfold crowdsec_to_cache, bind, deref, ret, fault, get_world, calls,
    ap_log_rerror, set_mutex_held, set_cache.
  rewrite Hs. destruct (cache_mutex sconf); cbn; [|eauto].
  rewrite (Hwf eq_refl).
  destruct (crowdsec_cache_key (useragent_ip r)) as [k n]. cbn.
  destruct (apr_global_mutex_trylock h =? APR_SUCCESS) eqn:Hlock.
  - apply Z.eqb_eq in Hlock. rewrite Hlock. cbn.
    destruct (store provider _ _ _ _ _ _ _) as [st cache']. cbn.
    destruct (st =? APR_SUCCESS);
      destruct (apr_global_mutex_unlock h =? APR_SUCCESS); cbn; eauto.
  - destruct (APR_STATUS_IS_EBUSY (apr_global_mutex_trylock h)); cbn; eauto.
Qed.

(** C7.  With a cache mutex configured, the write starts with one
    try-lock.  Unless that returns APR_SUCCESS (busy, or any other
    failure) nothing else is called, and cache, mutex, notes and custom
    response are as before.  When it succeeds, [store] is called once
    with the derived key and expiry [apr_time_now + cache_timeout], and
    the unlock call follows whatever status [store] returned.  In every
    case the function returns normally. *)
Theorem crowdsec_to_cache_trylock (r : request_rec I) (response : string)
  (w : world I) (sconf : crowdsec_server_rec I)
  (provider : ap_socache_provider_t I) :
  server_config r = Some sconf ->
  cache_mutex sconf = true ->
  cache_provider sconf = Some provider ->
  let k := crowdsec_cache_key (useragent_ip r) in
  let expiry := apr_time_now h + cache_timeout sconf in
  let stored :=
    store provider (w_cache w) (apr_time_now h) (fst k) (snd k) expiry
          response (String.length response) in
  exists w',
    crowdsec_to_cache h r response w = Some (tt, w')
    /\ w_notes w' = w_notes w
    /\ w_custom_response w' = w_custom_response w
    /\ (if apr_global_mutex_trylock h =? APR_SUCCESS then
          w_calls w'
          = w_calls w ++ [CallTrylock;
                          CallStore (fst k) (snd k) expiry response
                                    (String.length response);
                          CallUnlock]
          /\ w_cache w' = snd stored
          /\ w_mutex_held w'
             = negb (apr_global_mutex_unlock h =? APR_SUCCESS)
          /\ w_log w'
             = w_log w
               ++ [if fst stored =? APR_SUCCESS
                   then (APLOG_DEBUG, LogWrittenToCache (useragent_ip r))
                   else (APLOG_ERR,
                         LogNotWrittenToCache (fst stored)
                                              (useragent_ip r))]
               ++ (if apr_global_mutex_unlock h =? APR_SUCCESS then []
                   else [(APLOG_ERR,
                          LogFailedToReleaseMutex
                            (apr_global_mutex_unlock h))])
        else
          w_calls w' = w_calls w ++ [CallTrylock]
          /\ w_cache w' = w_cache w
          /\ w_mutex_held w' = w_mutex_held w
          /\ w_log w'
             = w_log w
               ++ [if APR_STATUS_IS_EBUSY (apr_global_mutex_trylock h)
                   then (APLOG_DEBUG,
                         LogNotWrittenMutexBusy (useragent_ip r))
                   else (APLOG_ERR,
                         LogNotWrittenLockFailed
                           (apr_global_mutex_trylock h)
                           (useragent_ip r))]).
Proof.
  intros Hs Hm Hp k expiry stored. subst stored expiry k.
  unfold crowdsec_to_cache, bind, deref, ret, fault, get_world, calls,
    ap_log_rerror, set_mutex_held, set_cache.
  rewrite Hs, Hm, Hp. cbn.
  destruct (crowdsec_cache_key (useragent_ip r)) as [k n]. cbn.
  destruct (apr_global_mutex_trylock h =? APR_SUCCESS) eqn:Hlock.
  - apply Z.eqb_eq in Hlock. rewrite Hlock. cbn.
    destruct (store provider _ _ _ _ _ _ _) as [st cache']. cbn.
    destruct (st =? APR_SUCCESS);
      destruct (apr_global_mutex_unlock h =? APR_SUCCESS); cbn;
      eexists; (split; [reflexivity|]); cbn;
      rewrite <- ?app_assoc; repeat split.
  - destruct (APR_STATUS_IS_EBUSY (apr_global_mutex_trylock h)); cbn;
      eexists; (split; [reflexivity|]); cbn; repeat split.
Qed.

End CacheFacts.

(** ** The request path *)

Ltac unfold_monad :=
  unfold bind, deref, ret, fault, get_world, calls, ap_log_rerror,
    set_mutex_held, set_cache, note_setn, ap_custom_response.

Section RequestFacts.

Context {I : Type} (h : host I).

(** [crowdsec_check_access] on a main request of an enabled route. *)
Lemma crowdsec_check_access_enabled (r : request_rec I) (w : world I) :
  main r = false -> enable (per_dir_config r) = true ->
  crowdsec_check_access h r w
  = match crowdsec_query h r w with
    | None => None
    | Some (status, w') =>
        Some (if status =? OK then DECLINED else status, w')
    end.
Proof.
  intros Hm He. unfold crowdsec_check_access. rewrite Hm, He. cbn.
  unfold bind, ret. destruct (crowdsec_query h r w) as [[st w']|]; auto.
  now destruct (st =? OK).
Qed.

(** [crowdsec_query] after a cache miss. *)
Lemma crowdsec_query_miss (r : request_rec I) (w w1 : world I) :
  main r = false -> no_url (server_config r) = false ->
  crowdsec_from_cache h r w = Some (None, w1) ->
  crowdsec_query h r w
  = match crowdsec_proxy h r w1 with
    | None => None
    | Some ((status, response), w2) =>
        if negb (status =? OK) then Some (status, w2)
        else match response with
             | None => None
             | Some response =>
                 match crowdsec_to_cache h r response w2 with
                 | None => None
                 | Some (_, w3) => crowdsec_query_response h r response w3
                 end
             end
    end.
Proof.
  intros Hm Hu Hc. unfold crowdsec_query. rewrite Hm, Hu. cbn.
  unfold bind at 1. rewrite Hc. unfold bind at 1.
  destruct (crowdsec_proxy h r w1) as [[[st resp] w2]|]; auto.
  destruct (negb (st =? OK)); auto.
  unfold bind, deref, ret, fault. destruct resp; auto.
Qed.

(** [crowdsec_query] after a cache hit. *)
Lemma crowdsec_query_hit (r : request_rec I) (w w1 : world I)
  (response : string) :
  main r = false -> no_url (server_config r) = false ->
  crowdsec_from_cache h r w = Some (Some response, w1) ->
  crowdsec_query h r w = crowdsec_query_response h r response w1.
Proof.
  intros Hm Hu Hc. unfold crowdsec_query. rewrite Hm, Hu. cbn.
  unfold bind at 1. now rewrite Hc.
Qed.

(** What [crowdsec_proxy] does once the subrequest has been created. *)
Lemma crowdsec_proxy_404 (r : request_rec I) (w : world I)
  (sconf : crowdsec_server_rec I) (u : struct_url) :
  server_config r = Some sconf -> url sconf = Some u ->
  status (ap_sub_req_method_uri h "GET" (uri r) r) = HTTP_OK ->
  run_status (crowdsec_run h sconf u r) = HTTP_NOT_FOUND
  \/ (run_status (crowdsec_run h sconf u r) = OK
      /\ run_rr_status (crowdsec_run h sconf u r) = HTTP_NOT_FOUND) ->
  exists w',
    crowdsec_proxy h r w = Some ((HTTP_INTERNAL_SERVER_ERROR, None), w')
    /\ w_cache w' = w_cache w /\ w_mutex_held w' = w_mutex_held w
    /\ w_notes w' = w_notes w
    /\ w_custom_response w' = w_custom_response w
    /\ w_calls w'
       = w_calls w ++ [CallSubReqMethodUri "GET" (uri r);
                       CallRunSubReq (crowdsec_subrequest h sconf u r)].
Proof.
  intros Hs Hu Hsub Hrun.
  unfold crowdsec_proxy. unfold_monad. rewrite Hs, Hu.
  cbn -[crowdsec_target Z.eqb]. rewrite Hsub.
  change (negb (HTTP_OK =? HTTP_OK)) with false.
  cbn -[crowdsec_target Z.eqb].
  fold (crowdsec_subrequest h sconf u r).
  fold (crowdsec_run h sconf u r).
  destruct Hrun as [H1 | [H1 H2]]; rewrite H1, ?H2; cbn -[crowdsec_target];
    eexists; (split; [reflexivity|]); cbn;
    rewrite <- app_assoc; repeat split.
Qed.


(** A subrequest that could not be created is not run: its status is
    returned as it is, whatever [fallback] says. *)
Lemma crowdsec_proxy_rejected (r : request_rec I) (w : world I)
  (sconf : crowdsec_server_rec I) (u : struct_url) :
  server_config r = Some sconf -> url sconf = Some u ->
  status (ap_sub_req_method_uri h "GET" (uri r) r) <> HTTP_OK ->
  exists w',
    crowdsec_proxy h r w
    = Some ((status (ap_sub_req_method_uri h "GET" (uri r) r), None), w')
    /\ w_cache w' = w_cache w
    /\ w_notes w' = w_notes w
    /\ w_calls w' = w_calls w ++ [CallSubReqMethodUri "GET" (uri r)].
Proof.
  intros Hs Hu Hsub.
  unfold crowdsec_proxy. unfold_monad. rewrite Hs, Hu.
  cbn -[crowdsec_target Z.eqb].
  apply Z.eqb_neq in Hsub. rewrite Hsub. cbn -[crowdsec_target].
  eexists. split; [reflexivity|]. cbn. repeat split.
Qed.

Lemma crowdsec_proxy_fallback (r : request_rec I) (w : world I)
  (sconf : crowdsec_server_rec I) (u : struct_url) :
  server_config r = Some sconf -> url sconf = Some u ->
  status (ap_sub_req_method_uri h "GET" (uri r) r) = HTTP_OK ->
  run_status (crowdsec_run h sconf u r) <> OK ->
  run_status (crowdsec_run h sconf u r) <> HTTP_NOT_FOUND ->
  exists w',
    crowdsec_proxy h r w
    = Some (match fallback (per_dir_config r) with
            | CROWDSEC_FAIL => (HTTP_INTERNAL_SERVER_ERROR, None)
            | CROWDSEC_BLOCK =>
                (OK, Some (block_body (crowdsec_target h u r)
                                      (run_status (crowdsec_run h sconf u r))))
            | CROWDSEC_ALLOW => (OK, Some "null")
            end, w')
    /\ w_cache w' = w_cache w /\ w_mutex_held w' = w_mutex_held w
    /\ w_custom_response w' = w_custom_response w
    /\ w_calls w'
       = w_calls w ++ [CallSubReqMethodUri "GET" (uri r);
                       CallRunSubReq (crowdsec_subrequest h sconf u r)].
Proof.
  intros Hs Hu Hsub Hok H404.
  unfold crowdsec_proxy. unfold_monad. rewrite Hs, Hu.
  cbn -[crowdsec_target Z.eqb]. rewrite Hsub.
  change (negb (HTTP_OK =? HTTP_OK)) with false.
  cbn -[crowdsec_target Z.eqb].
  fold (crowdsec_subrequest h sconf u r).
  fold (crowdsec_run h sconf u r).
  apply Z.eqb_neq in Hok. rewrite Hok.
  assert (H404' : (HTTP_NOT_FOUND =? run_status (crowdsec_run h sconf u r))
                  = false) by (apply Z.eqb_neq; congruence).
  rewrite H404'. cbn -[crowdsec_target block_body].
  destruct (fallback (per_dir_config r)); cbn -[crowdsec_target block_body];
    eexists; (split; [reflexivity|]); cbn;
    rewrite <- app_assoc; repeat split.
Qed.

Lemma crowdsec_proxy_answered (r : request_rec I) (w : world I)
  (sconf : crowdsec_server_rec I) (u : struct_url) :
  server_config r = Some sconf -> url sconf = Some u ->
  status (ap_sub_req_method_uri h "GET" (uri r) r) = HTTP_OK ->
  run_status (crowdsec_run h sconf u r) = OK ->
  run_rr_status (crowdsec_run h sconf u r) <> HTTP_NOT_FOUND ->
  exists w',
    crowdsec_proxy h r w
    = Some (match crowdsec_recorded h sconf u r with
            | None => (HTTP_INTERNAL_SERVER_ERROR, None)
            | Some body => (OK, Some body)
            end, w')
    /\ w_cache w' = w_cache w /\ w_mutex_held w' = w_mutex_held w
    /\ w_notes w' = w_notes w
    /\ w_custom_response w' = w_custom_response w
    /\ w_calls w'
       = w_calls w ++ [CallSubReqMethodUri "GET" (uri r);
                       CallRunSubReq (crowdsec_subrequest h sconf u r)]
    /\ last (w_log w')
       = Some (match crowdsec_recorded h sconf u r with
               | None =>
                   (APLOG_ERR,
                    LogResponseNotRecorded (crowdsec_target h u r) (uri r))
               | Some _ =>
                   (APLOG_DEBUG,
                    LogCallStatus OK (run_rr_status (crowdsec_run h sconf u r))
                                  (filename (crowdsec_subrequest h sconf u r)))
               end).
Proof.
  intros Hs Hu Hsub Hok H404.
  unfold crowdsec_proxy. unfold_monad. rewrite Hs, Hu.
  cbn -[crowdsec_target Z.eqb]. rewrite Hsub.
  change (negb (HTTP_OK =? HTTP_OK)) with false.
  cbn -[crowdsec_target Z.eqb].
  fold (crowdsec_subrequest h sconf u r).
  fold (crowdsec_run h sconf u r).
  assert (Hrec :
    response (fold_left crowdsec_out_filter
                (run_brigades (crowdsec_run h sconf u r))
                (per_dir_config (ap_sub_req_method_uri h "GET" (uri r) r)))
    = crowdsec_recorded h sconf u r) by reflexivity.
  rewrite Hrec, Hok.
  assert (H404' : (HTTP_NOT_FOUND =? run_rr_status (crowdsec_run h sconf u r))
                  = false) by (apply Z.eqb_neq; congruence).
  rewrite H404'. cbn -[crowdsec_target].
  destruct (crowdsec_recorded h sconf u r); cbn -[crowdsec_target];
    eexists; (split; [reflexivity|]); cbn -[crowdsec_target];
    rewrite <- ?app_assoc; repeat split; rewrite ?app_assoc;
    apply last_snoc.
Qed.

(** The CROWDSEC filter records the brigade it was last invoked with. *)
Lemma crowdsec_out_filter_last (bbs : list (list string))
  (conf : crowdsec_config_rec) :
  response (fold_left crowdsec_out_filter bbs conf)
  = match last bbs with
    | None => response conf
    | Some bb => Some (c_str (apr_brigade_flatten bb))
    end.
Proof.
  revert conf. induction bbs as [|bb bbs IH]; intros conf; [reflexivity|].
  simpl fold_left. rewrite IH. destruct bbs as [|bb' bbs]; [reflexivity|].
  change (last (bb :: bb' :: bbs)) with (last (bb' :: bbs)).
  destruct (last (bb' :: bbs)) eqn:Hlast; [reflexivity|].
  apply last_None in Hlast. discriminate.
Qed.

(** The classification of a response. *)
Lemma crowdsec_query_response_cases (r : request_rec I) (response : string)
  (w : world I) :
  exists st w',
    crowdsec_query_response h r response w = Some (st, w')
    /\ w_cache w' = w_cache w /\ w_mutex_held w' = w_mutex_held w
    /\ w_notes w' = w_notes w
    /\ (if String.eqb "null" response then
          st = OK /\ w_custom_response w' = w_custom_response w
        else
          match location (per_dir_config r) with
          | None =>
              st = blockedhttpcode (per_dir_config r)
              /\ w_custom_response w' = w_custom_response w
          | Some e =>
              match ap_expr_str_exec h r e with
              | (_, Some _) =>
                  st = HTTP_INTERNAL_SERVER_ERROR
                  /\ w_custom_response w' = w_custom_response w
              | (loc, None) =>
                  st = blockedhttpcode (per_dir_config r)
                  /\ w_custom_response w'
                     = Some (blockedhttpcode (per_dir_config r), loc)
              end
          end).
Proof.
  unfold crowdsec_query_response. unfold_monad.
  destruct (String.eqb "null" response).
  - do 2 eexists. split; [reflexivity|]. cbn. repeat split.
  - destruct (location (per_dir_config r)) as [e|].
    + cbn. destruct (ap_expr_str_exec h r e) as [loc [msg|]];
        do 2 eexists; (split; [reflexivity|]); cbn; repeat split.
    + do 2 eexists. split; [reflexivity|]. cbn. repeat split.
Qed.

End RequestFacts.

(** ** Verdicts *)

Section Verdicts.

Context {I : Type} (h : host I).

Lemma no_url_false (r : request_rec I) (sconf : crowdsec_server_rec I)
  (u : struct_url) :
  server_config r = Some sconf -> url sconf = Some u ->
  no_url (server_config r) = false.
Proof. intros Hs Hu. unfold no_url. now rewrite Hs, Hu. Qed.

(** Without a cache mutex nothing is written and nothing is called. *)
Lemma crowdsec_to_cache_no_mutex (r : request_rec I) (response : string)
  (w : world I) (sconf : crowdsec_server_rec I) :
  server_config r = Some sconf -> cache_mutex sconf = false ->
  crowdsec_to_cache h r response w = Some (tt, w).
Proof.
  intros Hs Hm. unfold crowdsec_to_cache. unfold_monad.
  now rewrite Hs, Hm.
Qed.

(** C9.  When no CrowdsecURL is configured the access checker declines on
    every request, whether or not the route is enabled: the result is DECLINED
    and the world is untouched, so there has been no cache lookup, no
    subrequest and no log line. *)
Theorem crowdsec_no_url_declines (r : request_rec I) (w : world I) :
  no_url (server_config r) = true ->
  crowdsec_check_access h r w = Some (DECLINED, w)
  /\ crowdsec_query h r w = Some (DECLINED, w).
Proof.
  intros Hu. unfold crowdsec_check_access, crowdsec_query.
  rewrite Hu, orb_true_r. unfold bind, ret.
  destruct (main r || negb (enable (per_dir_config r))); split; reflexivity.
Qed.


(** C4.  On a main request of an enabled route, after a cache miss, when
    the subrequest has been created and running it gives 404 (as the
    return value of the call, or as the response status of a call that
    returned OK), the result is 500 whatever [fallback] is: nothing is
    written to the cache, the notes or the custom response. *)
Theorem crowdsec_not_found_is_fatal (r : request_rec I) (w w1 : world I)
  (sconf : crowdsec_server_rec I) (u : struct_url) :
  main r = false -> enable (per_dir_config r) = true ->
  server_config r = Some sconf -> url sconf = Some u ->
  crowdsec_from_cache h r w = Some (None, w1) ->
  status (ap_sub_req_method_uri h "GET" (uri r) r) = HTTP_OK ->
  run_status (crowdsec_run h sconf u r) = HTTP_NOT_FOUND
  \/ (run_status (crowdsec_run h sconf u r) = OK
      /\ run_rr_status (crowdsec_run h sconf u r) = HTTP_NOT_FOUND) ->
  exists w',
    crowdsec_check_access h r w = Some (HTTP_INTERNAL_SERVER_ERROR, w')
    /\ w_cache w' = w_cache w
    /\ w_notes w' = w_notes w
    /\ w_custom_response w' = w_custom_response w
    /\ last (w_calls w')
       = Some (CallRunSubReq (crowdsec_subrequest h sconf u r)).
Proof.
  intros Hm He Hs Hu Hmiss Hsub Hrun.
  destruct (crowdsec_from_cache_frame h r w w1 None Hmiss)
    as (Hc1 & _ & Hn1 & Hr1).
  destruct (crowdsec_proxy_404 h r w1 sconf u Hs Hu Hsub Hrun)
    as (w' & Hp & Hc & _ & Hn & Hr & Hcalls).
  exists w'.
  rewrite crowdsec_check_access_enabled by assumption.
  rewrite (crowdsec_query_miss h r w w1);
    [| assumption | now apply (no_url_false r sconf u) | assumption].
  rewrite Hp. cbn.
  repeat split; try congruence.
  rewrite Hcalls, last_app. reflexivity.
Qed.

(** C1 (as amended).  On a main request of an enabled route, after a cache
    miss, when running the subrequest returns a status that is neither OK
    nor 404 and [fallback] is BLOCK or ALLOW, the synthesised body takes
    the same way as a real answer.  ALLOW gives OK and the access checker
    declines.  BLOCK takes the blocked path: the result is
    [blockedhttpcode], or 500 when a location expression fails, and a
    result other than OK is what the access checker returns.  The body is
    handed to the cache write: with a cache mutex configured and the
    try-lock successful, the cache ends as [store] leaves it when called
    with the derived key, expiry [apr_time_now + cache_timeout] and the
    synthesised body; without a cache mutex, or when the try-lock does
    not succeed, the cache is as before. *)
Theorem crowdsec_fallback_reaches_cache (r : request_rec I) (w w1 : world I)
  (sconf : crowdsec_server_rec I) (u : struct_url)
  (provider : ap_socache_provider_t I) :
  main r = false -> enable (per_dir_config r) = true ->
  server_config r = Some sconf -> url sconf = Some u ->
  crowdsec_from_cache h r w = Some (None, w1) ->
  status (ap_sub_req_method_uri h "GET" (uri r) r) = HTTP_OK ->
  run_status (crowdsec_run h sconf u r) <> OK ->
  run_status (crowdsec_run h sconf u r) <> HTTP_NOT_FOUND ->
  fallback (per_dir_config r) <> CROWDSEC_FAIL ->
  (cache_mutex sconf = true -> cache_provider sconf = Some provider) ->
  let body :=
    match fallback (per_dir_config r) with
    | CROWDSEC_BLOCK =>
        block_body (crowdsec_target h u r)
                   (run_status (crowdsec_run h sconf u r))
    | _ => "null"
    end in
  let k := crowdsec_cache_key (useragent_ip r) in
  exists st w',
    crowdsec_query h r w = Some (st, w')
    /\ match fallback (per_dir_config r) with
       | CROWDSEC_ALLOW =>
           st = OK /\ crowdsec_check_access h r w = Some (DECLINED, w')
       | _ =>
           match location (per_dir_config r) with
           | None => st = blockedhttpcode (per_dir_config r)
           | Some e =>
               match snd (ap_expr_str_exec h r e) with
               | Some _ => st = HTTP_INTERNAL_SERVER_ERROR
               | None => st = blockedhttpcode (per_dir_config r)
               end
           end
           /\ (st <> OK -> crowdsec_check_access h r w = Some (st, w'))
       end
    /\ w_cache w'
       = if cache_mutex sconf && (apr_global_mutex_trylock h =? APR_SUCCESS)
         then snd (store provider (w_cache w) (apr_time_now h) (fst k) (snd k)
                         (apr_time_now h + cache_timeout sconf) body
                         (String.length body))
         else w_cache w.
Proof.
  intros Hm He Hs Hu Hmiss Hsub Hok H404 Hfb Hwf body k.
  destruct (crowdsec_from_cache_frame h r w w1 None Hmiss)
    as (Hc1 & _ & _ & _).
  destruct (crowdsec_proxy_fallback h r w1 sconf u Hs Hu Hsub Hok H404)
    as (w2 & Hp & Hc2 & _ & _ & _).
  assert (Hbody :
    match fallback (per_dir_config r) with
    | CROWDSEC_FAIL => (HTTP_INTERNAL_SERVER_ERROR, None)
    | CROWDSEC_BLOCK =>
        (OK, Some (block_body (crowdsec_target h u r)
                              (run_status (crowdsec_run h sconf u r))))
    | CROWDSEC_ALLOW => (OK, Some "null")
    end = (OK, Some body)).
  { subst body. destruct (fallback (per_dir_config r)); congruence. }
  rewrite Hbody in Hp.
  assert (Hput : exists w3,
    crowdsec_to_cache h r body w2 = Some (tt, w3)
    /\ w_cache w3
       = if cache_mutex sconf && (apr_global_mutex_trylock h =? APR_SUCCESS)
         then snd (store provider (w_cache w) (apr_time_now h) (fst k) (snd k)
                         (apr_time_now h + cache_timeout sconf) body
                         (String.length body))
         else w_cache w).
  { destruct (crowdsec_to_cache_cache h r body w2 sconf provider Hs Hwf)
      as (w3 & Hrun & Hc3).
    exists w3. split; [assumption|]. rewrite Hc3, Hc2, Hc1. reflexivity. }
  destruct Hput as (w3 & Hput & Hc3).
  destruct (crowdsec_query_response_cases h r body w3)
    as (st & w' & Hq & Hc & _ & _ & Hcase).
  assert (Hquery : crowdsec_query h r w = Some (st, w')).
  { rewrite (crowdsec_query_miss h r w w1);
      [| assumption | now apply (no_url_false r sconf u) | assumption].
    rewrite Hp. cbn. now rewrite Hput. }
  assert (Hcheck : crowdsec_check_access h r w
                   = Some (if st =? OK then DECLINED else st, w')).
  { rewrite crowdsec_check_access_enabled by assumption. now rewrite Hquery. }
  assert (Hblocked : st <> OK -> crowdsec_check_access h r w = Some (st, w')).
  { intros Hst. apply Z.eqb_neq in Hst. now rewrite Hst in Hcheck. }
  exists st, w'. split; [assumption|].
  split; [| congruence].
  subst body. destruct (fallback (per_dir_config r)); [congruence | |].
  - split; [| exact Hblocked].
    assert (Hne : String.eqb "null"
                     (block_body (crowdsec_target h u r)
                                 (run_status (crowdsec_run h sconf u r)))
                   = false) by reflexivity.
    rewrite Hne in Hcase.
    destruct (location (per_dir_config r)) as [e|]; [|tauto].
    destruct (ap_expr_str_exec h r e) as [loc [msg|]]; cbn; tauto.
  - cbn in Hcase. destruct Hcase as [-> _].
    split; [reflexivity | exact Hcheck].
Qed.

(** The last log line of the classification is never the "response not
    recorded" error. *)
Lemma crowdsec_query_response_log (r : request_rec I) (response : string)
  (w w' : world I) (st : Z) (target uri' : string) :
  crowdsec_query_response h r response w = Some (st, w') ->
  last (w_log w') <> Some (APLOG_ERR, LogResponseNotRecorded target uri').
Proof.
  unfold crowdsec_query_response. unfold_monad.
  destruct (String.eqb "null" response).
  - intros [= <- <-]. cbn. rewrite last_snoc. discriminate.
  - destruct (location (per_dir_config r)) as [e|].
    + cbn. destruct (ap_expr_str_exec h r e) as [loc [msg|]];
        intros [= <- <-]; cbn; rewrite last_snoc; discriminate.
    + intros [= <- <-]. cbn. rewrite last_snoc. discriminate.
Qed.

(** X29.  Whenever the CROWDSEC filter has been invoked, a response is
    recorded, be it of length zero.  On a main request of an enabled
    route, after a cache miss, when the subrequest ran with status OK and
    a response status other than 404: if no response is recorded then the
    filter was never invoked, and the result is 500 with the "response not
    recorded" error logged last; if a response is recorded it is
    classified, the "not recorded" error is not what is logged last, and
    for a recorded response of length zero [crowdsec_query] returns
    [blockedhttpcode], or 500 when a location expression fails; the
    access checker returns that result, with OK turned into DECLINED. *)
Theorem crowdsec_empty_body_is_blocked (r : request_rec I) (w w1 : world I)
  (sconf : crowdsec_server_rec I) (u : struct_url)
  (provider : ap_socache_provider_t I) :
  main r = false -> enable (per_dir_config r) = true ->
  server_config r = Some sconf -> url sconf = Some u ->
  crowdsec_from_cache h r w = Some (None, w1) ->
  status (ap_sub_req_method_uri h "GET" (uri r) r) = HTTP_OK ->
  run_status (crowdsec_run h sconf u r) = OK ->
  run_rr_status (crowdsec_run h sconf u r) <> HTTP_NOT_FOUND ->
  (cache_mutex sconf = true -> cache_provider sconf = Some provider) ->
  (forall conf bbs bb,
     response (fold_left crowdsec_out_filter (bbs ++ [bb]) conf)
     = Some (c_str (apr_brigade_flatten bb)))
  /\ match crowdsec_recorded h sconf u r with
     | None =>
         run_brigades (crowdsec_run h sconf u r) = []
         /\ exists w',
              crowdsec_check_access h r w
              = Some (HTTP_INTERNAL_SERVER_ERROR, w')
              /\ last (w_log w')
                 = Some (APLOG_ERR,
                         LogResponseNotRecorded (crowdsec_target h u r)
                                                (uri r))
     | Some body =>
         exists st w',
           crowdsec_query h r w = Some (st, w')
           /\ crowdsec_check_access h r w
              = Some (if st =? OK then DECLINED else st, w')
           /\ last (w_log w')
              <> Some (APLOG_ERR,
                       LogResponseNotRecorded (crowdsec_target h u r)
                                              (uri r))
           /\ match body with
              | EmptyString =>
                  match location (per_dir_config r) with
                  | None => st = blockedhttpcode (per_dir_config r)
                  | Some e =>
                      match snd (ap_expr_str_exec h r e) with
                      | Some _ => st = HTTP_INTERNAL_SERVER_ERROR
                      | None => st = blockedhttpcode (per_dir_config r)
                      end
                  end
              | String _ _ => True
              end
     end.
Proof.
  intros Hm He Hs Hu Hmiss Hsub Hok H404 Hwf. split.
  { intros conf bbs bb. now rewrite crowdsec_out_filter_last, last_snoc. }
  destruct (crowdsec_proxy_answered h r w1 sconf u Hs Hu Hsub Hok H404)
    as (w2 & Hp & _ & _ & _ & _ & _ & Hlog).
  assert (Hnu : no_url (server_config r) = false)
    by now apply (no_url_false r sconf u).
  destruct (crowdsec_recorded h sconf u r) as [body|] eqn:Hrec.
  - assert (Hput : exists w3, crowdsec_to_cache h r body w2 = Some (tt, w3)).
    { destruct (crowdsec_to_cache_cache h r body w2 sconf provider Hs Hwf)
        as (w3 & Hrun & _).
      eauto. }
    destruct Hput as (w3 & Hput).
    destruct (crowdsec_query_response_cases h r body w3)
      as (st & w' & Hq & _ & _ & _ & Hcase).
    assert (Hquery : crowdsec_query h r w = Some (st, w')).
    { rewrite (crowdsec_query_miss h r w w1) by assumption.
      rewrite Hp. cbn. now rewrite Hput. }
    exists st, w'. split; [assumption|]. split.
    { rewrite crowdsec_check_access_enabled by assumption.
      now rewrite Hquery. }
    split; [now apply (crowdsec_query_response_log r body w3 w' st)|].
    destruct body as [|c body]; [|exact Logic.I].
    cbn in Hcase.
    destruct (location (per_dir_config r)) as [e|]; [|tauto].
    destruct (ap_expr_str_exec h r e) as [loc [msg|]]; cbn; tauto.
  - split.
    + unfold crowdsec_recorded in Hrec.
      rewrite crowdsec_out_filter_last in Hrec.
      destruct (last (run_brigades (crowdsec_run h sconf u r))) eqn:Hlast;
        [discriminate|].
      now apply last_None in Hlast.
    + exists w2. split; [|assumption].
      rewrite crowdsec_check_access_enabled by assumption.
      rewrite (crowdsec_query_miss h r w w1) by assumption.
      now rewrite Hp.
Qed.

End Verdicts.

(** ** The request path on the reference host *)

(** A run whose value is known ends in [world_of] of itself. *)
Lemma run_returns {I A} (m : option (A * world I)) (a : A) (d : world I) :
  option_map fst m = Some a -> m = Some (a, world_of d m).
Proof. destruct m as [[x w]|]; simpl; congruence. Qed.

Lemma crowdsec_to_cache_trylock_witness :
  exists w',
    crowdsec_to_cache
      (host_answering "null")
      (reference_request "::1" (Some (reference_server true full_provider))
                         conf_on)
      "null" empty_world = Some (tt, w')
    /\ w_calls w' = [CallTrylock;
                     CallStore "::1 " 4 61000000 "null" 4;
                     CallUnlock]
    /\ w_cache w' = ∅
    /\ w_mutex_held w' = false.
Proof.
  destruct (crowdsec_to_cache_trylock
              (host_answering "null")
              (reference_request "::1"
                 (Some (reference_server true full_provider)) conf_on)
              "null" empty_world (reference_server true full_provider)
              full_provider eq_refl eq_refl eq_refl)
    as (w' & Hrun & _ & _ & Hcalls & Hcache & Hheld & _).
  exists w'. repeat split; assumption.
Defined.

Lemma crowdsec_no_url_declines_witness :
  no_url (server_config
            (reference_request "203.0.113.7"
               (Some (@create_crowdsec_server_config (gmap string (Z * string))))
               conf_on)) = true
  /\ crowdsec_check_access
       (host_answering ban_body)
       (reference_request "203.0.113.7"
          (Some create_crowdsec_server_config) conf_on)
       empty_world
     = Some (DECLINED, empty_world).
Proof.
  split; [reflexivity|].
  apply (crowdsec_no_url_declines
           (host_answering ban_body)
           (reference_request "203.0.113.7"
              (Some create_crowdsec_server_config) conf_on)
           empty_world).
  reflexivity.
Defined.


Lemma crowdsec_not_found_is_fatal_witness :
  exists w',
    crowdsec_check_access (host_failing HTTP_NOT_FOUND)
      (request_from_client false (conf_on_429 "allow")) empty_world
    = Some (HTTP_INTERNAL_SERVER_ERROR, w')
    /\ w_cache w' = ∅.
Proof.
  destruct (crowdsec_not_found_is_fatal
              (host_failing HTTP_NOT_FOUND)
              (request_from_client false (conf_on_429 "allow"))
              empty_world empty_world
              (reference_server false table_provider) reference_url
              eq_refl eq_refl eq_refl eq_refl eq_refl eq_refl
              (or_introl eq_refl))
    as (w' & Hcheck & Hcache & _).
  exists w'. split; assumption.
Defined.

Lemma crowdsec_fallback_reaches_cache_witness :
  exists w',
    crowdsec_check_access (host_failing 502)
      (request_from_client true (conf_on_429 "allow")) empty_world
    = Some (DECLINED, w')
    /\ w_cache w' !! "198.51.100.9" = Some (61000000, "null").
Proof.
  assert (Hmiss :
    crowdsec_from_cache (host_failing 502)
      (request_from_client true (conf_on_429 "allow")) empty_world
    = Some (None,
            world_of empty_world
              (crowdsec_from_cache (host_failing 502)
                 (request_from_client true (conf_on_429 "allow"))
                 empty_world)))
    by (apply run_returns; vm_compute; reflexivity).
  destruct (crowdsec_fallback_reaches_cache
              (host_failing 502)
              (request_from_client true (conf_on_429 "allow"))
              empty_world _
              (reference_server true table_provider) reference_url
              table_provider eq_refl eq_refl eq_refl eq_refl Hmiss eq_refl)
    as (st & w' & _ & Hverdict & Hcache).
  - vm_compute. discriminate.
  - vm_compute. discriminate.
  - vm_compute. discriminate.
  - reflexivity.
  - change (fallback
              (per_dir_config
                 (request_from_client true (conf_on_429 "allow"))))
      with CROWDSEC_ALLOW in Hverdict.
    destruct Hverdict as [_ Hcheck].
    exists w'. split; [exact Hcheck |].
    rewrite Hcache. vm_compute. reflexivity.
Defined.

Lemma crowdsec_empty_body_is_blocked_witness :
  exists w',
    crowdsec_check_access (host_answering "")
      (request_from_client false (conf_on_429 "fail")) empty_world
    = Some (HTTP_TOO_MANY_REQUESTS, w').
Proof.
  destruct (crowdsec_empty_body_is_blocked
              (host_answering "")
              (request_from_client false (conf_on_429 "fail"))
              empty_world empty_world
              (reference_server false table_provider) reference_url
              table_provider
              eq_refl eq_refl eq_refl eq_refl eq_refl eq_refl eq_refl)
    as (_ & Hrec).
  - vm_compute. discriminate.
  - discriminate.
  - change (crowdsec_recorded (host_answering "")
              (reference_server false table_provider) reference_url
              (request_from_client false (conf_on_429 "fail")))
      with (Some EmptyString) in Hrec.
    destruct Hrec as (st & w' & _ & Hcheck & _ & Hst).
    vm_compute in Hst. subst st. exists w'. exact Hcheck.
Defined.

(** C1 as stated fails: with [CrowdsecFallback allow], a cache and a free
    mutex, a request whose lookup misses and whose subrequest fails with
    502 is let through and leaves the synthesised "null" in the cache. *)
Lemma crowdsec_fallback_allow_is_cached :
  enable (conf_on_429 "allow") = true
  /\ fallback (conf_on_429 "allow") = CROWDSEC_ALLOW
  /\ run_status (crowdsec_run (host_failing 502)
                   (reference_server true table_provider) reference_url
                   (request_from_client true (conf_on_429 "allow"))) = 502
  /\ exists w1 w',
       crowdsec_from_cache (host_failing 502)
         (request_from_client true (conf_on_429 "allow")) empty_world
       = Some (None, w1)
       /\ crowdsec_check_access (host_failing 502)
            (request_from_client true (conf_on_429 "allow")) empty_world
          = Some (DECLINED, w')
       /\ w_cache w' !! "198.51.100.9" = Some (61000000, "null")
       /\ w_cache w' <> w_cache empty_world.
Proof.
  repeat (split; [reflexivity|]).
  exists (world_of empty_world
            (crowdsec_from_cache (host_failing 502)
               (request_from_client true (conf_on_429 "allow")) empty_world)).
  exists (world_of empty_world
            (crowdsec_check_access (host_failing 502)
               (request_from_client true (conf_on_429 "allow")) empty_world)).
  split; [apply run_returns; vm_compute; reflexivity|].
  split; [apply run_returns; vm_compute; reflexivity|].
  split; [vm_compute; reflexivity|].
  intros Heq. apply (f_equal (fun m => m !! "198.51.100.9")) in Heq.
  vm_compute in Heq. discriminate.
Qed.

(** The same with [CrowdsecFallback block]: the error body is cached. *)
Example crowdsec_fallback_block_is_cached :
  exists w',
    crowdsec_check_access (host_failing 502)
      (request_from_client true (conf_on_429 "block")) empty_world
    = Some (HTTP_TOO_MANY_REQUESTS, w')
    /\ w_cache w' !! "198.51.100.9"
       = Some (61000000,
               block_body "http://localhost:8080/v1/decisions?ip=198.51.100.9"
                          502).
Proof.
  exists (world_of empty_world
            (crowdsec_check_access (host_failing 502)
               (request_from_client true (conf_on_429 "block")) empty_world)).
  split; [apply run_returns|]; vm_compute; reflexivity.
Qed.

(** ** The blocked status code *)

(** [CrowdsecBlockedHTTPCode] accepts the arguments that [atoi] reads as
    403, 500 or 429 and no other; a rejected argument leaves the record
    as it was. *)
Lemma set_crowdsec_blockedhttpcode_allow_list (conf : crowdsec_config_rec)
  (arg : string) :
  match set_crowdsec_blockedhttpcode conf arg with
  | (None, conf') =>
      blockedhttpcode conf' = atoi arg
      /\ blockedhttpcode_set conf' = true
      /\ (atoi arg = 403 \/ atoi arg = 500 \/ atoi arg = 429)
  | (Some _, conf') =>
      conf' = conf /\ atoi arg <> 403 /\ atoi arg <> 500 /\ atoi arg <> 429
  end.
Proof.
  unfold set_crowdsec_blockedhttpcode.
  destruct (atoi arg =? HTTP_FORBIDDEN) eqn:H403;
    destruct (atoi arg =? HTTP_INTERNAL_SERVER_ERROR) eqn:H500;
    destruct (atoi arg =? HTTP_TOO_MANY_REQUESTS) eqn:H429; cbn;
    rewrite ?Z.eqb_eq, ?Z.eqb_neq in *;
    unfold HTTP_FORBIDDEN, HTTP_INTERNAL_SERVER_ERROR,
      HTTP_TOO_MANY_REQUESTS in *;
    repeat split; auto; lia.
Qed.

(** C2, at the failing input.  A route with [Crowdsec on] and no
    [CrowdsecBlockedHTTPCode] has [blockedhttpcode] 0, not 429: when the
    service answers with a ban, [crowdsec_query] logs the request as
    rejected and returns 0, which is OK, and the access checker declines:
    the banned address is let through. *)
Theorem crowdsec_unset_code_lets_ban_through :
  blockedhttpcode conf_on = 0
  /\ blockedhttpcode_set conf_on = false
  /\ exists w',
       crowdsec_query (host_answering ban_body)
         (request_from_client false conf_on) empty_world = Some (OK, w')
       /\ crowdsec_check_access (host_answering ban_body)
            (request_from_client false conf_on) empty_world
          = Some (DECLINED, w')
       /\ last (w_log w')
          = Some (APLOG_DEBUG,
                  LogRejected "198.51.100.9" ban_body "/index.html").
Proof.
  split; [reflexivity|]. split; [reflexivity|].
  assert (Hq :
    crowdsec_query (host_answering ban_body)
      (request_from_client false conf_on) empty_world
    = Some (OK,
            world_of empty_world
              (crowdsec_query (host_answering ban_body)
                 (request_from_client false conf_on) empty_world)))
    by (apply run_returns; vm_compute; reflexivity).
  eexists. split; [exact Hq|]. split.
  - rewrite crowdsec_check_access_enabled by reflexivity.
    rewrite Hq. reflexivity.
  - vm_compute. reflexivity.
Qed.

(** With the code set, the same request is answered 429 and the answer is
    cached. *)
Example crowdsec_set_code_blocks :
  exists w',
    crowdsec_check_access (host_answering ban_body)
      (request_from_client true (conf_on_429 "fail")) empty_world
    = Some (HTTP_TOO_MANY_REQUESTS, w')
    /\ w_cache w' !! "198.51.100.9" = Some (61000000, ban_body).
Proof.
  exists (world_of empty_world
            (crowdsec_check_access (host_answering ban_body)
               (request_from_client true (conf_on_429 "fail")) empty_world)).
  split; [apply run_returns|]; vm_compute; reflexivity.
Qed.

(** C3, at the failing input.  A route with [Crowdsec on] and no
    [CrowdsecBlockedHTTPCode] has [blockedhttpcode] 0.  A classification
    string other than "null" takes the blocked path of [crowdsec_query],
    and no blocked verdict comes out of it.  Read from the cache with no
    location configured, the ban is logged as rejected and the access
    checker declines.  With [CrowdsecLocation] configured and evaluated,
    the location is registered as custom response under code 0 and the
    access checker declines: no redirect is issued. *)
Theorem crowdsec_unset_code_skips_blocked_path :
  String.eqb "null" ban_body = false
  /\ blockedhttpcode_set conf_on = false
  /\ blockedhttpcode_set conf_on_location = false
  /\ location conf_on = None
  /\ location conf_on_location = Some "/blocked.html"
  /\ (exists w',
        crowdsec_check_access (host_failing HTTP_NOT_FOUND)
          (request_from_client true conf_on)
          (world_with_entry "198.51.100.9" 61000000 ban_body)
        = Some (DECLINED, w')
        /\ w_calls w' = [CallRetrieve "198.51.100.9" 12]
        /\ last (w_log w')
           = Some (APLOG_DEBUG,
                   LogRejected "198.51.100.9" ban_body "/index.html")
        /\ w_custom_response w' = None)
  /\ (exists w',
        crowdsec_check_access (host_redirecting ban_body)
          (request_from_client false conf_on_location) empty_world
        = Some (DECLINED, w')
        /\ last (w_log w')
           = Some (APLOG_DEBUG,
                   LogRedirected "198.51.100.9" ban_body "/blocked.html"
                                 "/index.html")
        /\ w_custom_response w' = Some (OK, "/blocked.html")).
Proof.
  repeat (split; [reflexivity|]). split.
  - exists (world_of empty_world
              (crowdsec_check_access (host_failing HTTP_NOT_FOUND)
                 (request_from_client true conf_on)
                 (world_with_entry "198.51.100.9" 61000000 ban_body))).
    split; [apply run_returns; vm_compute; reflexivity|].
    split; [vm_compute; reflexivity|].
    split; vm_compute; reflexivity.
  - exists (world_of empty_world
              (crowdsec_check_access (host_redirecting ban_body)
                 (request_from_client false conf_on_location) empty_world)).
    split; [apply run_returns; vm_compute; reflexivity|].
    split; vm_compute; reflexivity.
Qed.

(** C10, at the failing input.  On a route with [Crowdsec on] and no
    [CrowdsecBlockedHTTPCode], when the service answers 200 with a body of
    length zero, the filter records the empty string, [crowdsec_query]
    takes the blocked path (the request is logged as rejected) and
    returns [blockedhttpcode], which is 0, and the access checker
    declines: the empty body ends as a request let through. *)
Theorem crowdsec_unset_code_lets_empty_body_through :
  blockedhttpcode conf_on = 0
  /\ blockedhttpcode_set conf_on = false
  /\ crowdsec_recorded (host_answering "")
       (reference_server false table_provider) reference_url
       (request_from_client false conf_on) = Some EmptyString
  /\ exists w',
       crowdsec_query (host_answering "")
         (request_from_client false conf_on) empty_world = Some (OK, w')
       /\ crowdsec_check_access (host_answering "")
            (request_from_client false conf_on) empty_world
          = Some (DECLINED, w')
       /\ last (w_log w')
          = Some (APLOG_DEBUG, LogRejected "198.51.100.9" "" "/index.html")
       /\ w_custom_response w' = None.
Proof.
  repeat (split; [reflexivity|]).
  assert (Hq :
    crowdsec_query (host_answering "")
      (request_from_client false conf_on) empty_world
    = Some (OK,
            world_of empty_world
              (crowdsec_query (host_answering "")
                 (request_from_client false conf_on) empty_world)))
    by (apply run_returns; vm_compute; reflexivity).
  eexists. split; [exact Hq|]. split.
  - rewrite crowdsec_check_access_enabled by reflexivity.
    rewrite Hq. reflexivity.
  - split; vm_compute; reflexivity.
Qed.

(** * Further properties *)

(** ** The base URL parser on every input *)

Lemma char_at_end (s : string) : char_at s (String.length s) = None.
Proof. unfold char_at. induction s; simpl; auto. Qed.

Lemma str_mem_app (c : ascii) (a b : string) :
  str_mem c (a +:+ b) = str_mem c a || str_mem c b.
Proof.
  induction a as [|c' a IH]; simpl; [reflexivity|].
  now rewrite IH, orb_assoc.
Qed.

Lemma str_app_empty (s : string) : s +:+ EmptyString = s.
Proof.
  induction s as [|c s IH]; [reflexivity|].
  change (String c (s +:+ EmptyString) = String c s). now f_equal.
Qed.

(** A string holding [c] splits at its first [c]. *)
Lemma str_split_first (c : ascii) (s : string) :
  str_mem c s = true ->
  exists a b, s = a +:+ String c b /\ str_mem c a = false.
Proof.
  induction s as [|c' s IH]; simpl; [discriminate|].
  destruct (Ascii.eqb c' c) eqn:Hc; simpl.
  - intros _. apply Ascii.eqb_eq in Hc. subst c'.
    exists EmptyString, s. split; reflexivity.
  - intros Hm. destruct (IH Hm) as (a & b & -> & Ha).
    exists (String c' a), b. split; [reflexivity|].
    simpl. now rewrite Hc.
Qed.

Lemma tolower_slash (c : ascii) :
  Ascii.eqb (tolower c) "/" = Ascii.eqb c "/".
Proof.
  destruct c as [[] [] [] [] [] [] [] []]; vm_compute; reflexivity.
Qed.

Lemma ascii_diff_zero (c1 c2 : ascii) :
  Z.of_nat (nat_of_ascii c1) - Z.of_nat (nat_of_ascii c2) = 0 -> c1 = c2.
Proof.
  intros H. assert (Hn : nat_of_ascii c1 = nat_of_ascii c2) by lia.
  rewrite <- (ascii_nat_embedding c1), <- (ascii_nat_embedding c2).
  now rewrite Hn.
Qed.

(** The comparison after the ':' succeeds on "//" and on nothing else. *)
Lemma apr_pstrndup_0 (s : string) : apr_pstrndup s 0 = EmptyString.
Proof. now destruct s. Qed.

Lemma casecmpn_double_slash (b : string) :
  apr_cstr_casecmpn b "//" 2 = 0 <-> apr_pstrndup b 2 = "//".
Proof.
  destruct b as [|c1 [|c2 b]]; simpl; rewrite ?apr_pstrndup_0.
  - split; discriminate.
  - rewrite tolower_slash.
    destruct (Ascii.eqb_spec c1 "/") as [->|Hne]; simpl.
    + split; discriminate.
    + split; [|congruence]. intros H. apply ascii_diff_zero in H.
      pose proof (tolower_slash c1) as Ht. rewrite H in Ht.
      simpl in Ht. symmetry in Ht. apply Ascii.eqb_eq in Ht. congruence.
  - rewrite !tolower_slash.
    destruct (Ascii.eqb_spec c1 "/") as [->|Hne1]; simpl.
    + destruct (Ascii.eqb_spec c2 "/") as [->|Hne2]; simpl.
      * split; reflexivity.
      * split; [|congruence]. intros H. apply ascii_diff_zero in H.
        pose proof (tolower_slash c2) as Ht. rewrite H in Ht.
        simpl in Ht. symmetry in Ht. apply Ascii.eqb_eq in Ht. congruence.
    + split; [|congruence]. intros H. apply ascii_diff_zero in H.
      pose proof (tolower_slash c1) as Ht. rewrite H in Ht.
      simpl in Ht. symmetry in Ht. apply Ascii.eqb_eq in Ht. congruence.
Qed.

Lemma apr_pstrndup_2 (b : string) :
  apr_pstrndup b 2 = "//" -> b = "//" +:+ str_drop 2 b.
Proof.
  destruct b as [|c1 [|c2 b]]; simpl; try discriminate.
  rewrite apr_pstrndup_0. now intros [= -> ->].
Qed.

Lemma parse_no_colon (input : string) :
  str_mem ":" input = false ->
  find_base_lapi_url input
  = Some (inl "invalid lapi base url: scheme is missing").
Proof.
  intros Hm. unfold find_base_lapi_url.
  replace (String.length input + 2)%nat
    with (String.length input + 2)%nat by reflexivity.
  rewrite lapi_loop_skip_scheme; [| reflexivity |].
  2:{ intros j [_ Hj]. simpl in Hj. now apply char_at_mem. }
  simpl. now rewrite char_at_end.
Qed.

(** The round at a ':' that is not followed by "//". *)
Lemma lapi_loop_colon_bad (url : string) (fuel : nat) (st : lapi_state) :
  st_scheme st = None ->
  char_at url (st_i st) = Some ":"%char ->
  apr_cstr_casecmpn (str_drop (st_i st + 1) url) "//" 2 <> 0 ->
  lapi_loop (S fuel) url st
  = Some (inr ("invalid lapi base url: " +:+ String dquote "//" +:+
               String dquote " after scheme not found")).
Proof.
  intros Hs Hc Hcmp. simpl. rewrite Hc. unfold lapi_body. rewrite Hs.
  apply Z.eqb_neq in Hcmp. rewrite Hcmp. reflexivity.
Qed.

Lemma parse_no_double_slash (sch b : string) :
  str_mem ":" sch = false -> apr_pstrndup b 2 <> "//" ->
  find_base_lapi_url (sch +:+ String ":" b)
  = Some (inl ("invalid lapi base url: " +:+ String dquote "//" +:+
               String dquote " after scheme not found")).
Proof.
  intros Hs Hb.
  set (input := sch +:+ String ":" b). set (ls := String.length sch).
  assert (Hloop :
    lapi_loop (ls + 1) input lapi_init
    = Some (inr ("invalid lapi base url: " +:+ String dquote "//" +:+
                 String dquote " after scheme not found"))).
  { rewrite lapi_loop_skip_scheme; [| reflexivity |].
    2:{ intros j [_ Hj]. simpl in Hj. unfold input.
        rewrite char_at_app_l by exact Hj. now apply char_at_mem. }
    change (with_i lapi_init (st_i lapi_init + ls))
      with (with_i lapi_init ls).
    apply lapi_loop_colon_bad; simpl st_i; simpl st_scheme.
    - reflexivity.
    - apply (char_at_app_0 sch (String ":" b)).
    - replace (str_drop (ls + 1) input) with b
        by (symmetry; apply (str_drop_app sch (String ":" b) 1)).
      intros Hcmp. now apply casecmpn_double_slash in Hcmp. }
  unfold find_base_lapi_url.
  replace (String.length input + 2)%nat
    with (ls + 1 + (String.length b + 2))%nat.
  2:{ unfold input. rewrite str_length_app. simpl. lia. }
  now rewrite (lapi_loop_mono _ _ _ _ _ Hloop).
Qed.

Lemma parse_without_path (sch auth : string) :
  str_mem ":" sch = false -> str_mem "/" auth = false ->
  auth <> EmptyString ->
  find_base_lapi_url (sch +:+ "://" +:+ auth)
  = Some (inr {| scheme := sch; authority := auth; path := None |}).
Proof.
  intros Hs Ha Hne.
  set (input := sch +:+ "://" +:+ auth).
  set (ls := String.length sch). set (la := String.length auth).
  assert (Hat : forall i, char_at input (ls + i)
                          = char_at ("://" +:+ auth) i)
    by (intro; apply char_at_app_r).
  assert (Hauth : forall i, char_at input (ls + 3 + i) = char_at auth i).
  { intro i. replace (ls + 3 + i)%nat with (ls + (3 + i))%nat by lia.
    rewrite Hat. reflexivity. }
  assert (Hdrop : forall n, str_drop (ls + n) input
                            = str_drop n ("://" +:+ auth))
    by (intro; apply str_drop_app).
  assert (Hloop :
    lapi_loop (ls + S (la + 1)) input lapi_init
    = Some (inl {| st_i := (ls + 3 + la)%nat; st_scheme := Some sch;
                   st_authority := None;
                   st_authority_start_idx := (ls + 3)%nat;
                   st_path := None |})).
  { rewrite lapi_loop_skip_scheme; [| reflexivity |].
    2:{ intros j [_ Hj]. simpl in Hj. unfold input.
        rewrite char_at_app_l by exact Hj. now apply char_at_mem. }
    change (with_i lapi_init (st_i lapi_init + ls))
      with (with_i lapi_init ls).
    rewrite lapi_loop_colon; simpl st_i; simpl st_authority;
      simpl st_path; simpl st_scheme.
    2: reflexivity.
    2:{ apply (char_at_app_0 sch ("://" +:+ auth)). }
    2:{ rewrite Hdrop. reflexivity. }
    rewrite lapi_loop_skip_authority; simpl st_i;
      [| discriminate | reflexivity |].
    2:{ intros j Hj. replace j with (ls + 3 + (j - (ls + 3)))%nat by lia.
        rewrite Hauth. apply char_at_mem; [assumption | fold la; lia]. }
    unfold with_i; simpl st_scheme; simpl st_authority; simpl st_path;
      simpl st_authority_start_idx.
    cbn [lapi_loop st_i]. unfold la. rewrite Hauth, char_at_end.
    do 4 f_equal. apply apr_pstrndup_app. }
  unfold find_base_lapi_url.
  replace (String.length input + 2)%nat with (ls + S (la + 1) + 3)%nat.
  2:{ unfold input. rewrite !str_length_app. simpl. fold ls la. lia. }
  rewrite (lapi_loop_mono _ _ _ _ _ Hloop).
  unfold lapi_finish. cbn [st_scheme st_authority st_authority_start_idx
                           st_path].
  replace (ls + 3)%nat with (ls + 3 + 0)%nat by lia. rewrite Hauth.
  destruct auth as [|c auth]; [contradiction|]. cbn [char_at String.get].
  do 3 f_equal. replace (ls + 3 + 0)%nat with (ls + 3)%nat by lia.
  rewrite Hdrop. reflexivity.
Qed.

(** X1.  The parser returns on every input: the loop, which steps back
    once at the end of the authority, ends within [strlen(url) + 2]
    rounds. *)
Theorem find_base_lapi_url_returns (input : string) :
  exists res, find_base_lapi_url input = Some res.
Proof.
  destruct (find_base_lapi_url_total input) as [res Hres]. eauto.
Qed.

(** X2.  An input without ':' is rejected: the scheme is missing. *)
Theorem find_base_lapi_url_scheme_missing (input : string) :
  str_mem ":" input = false ->
  find_base_lapi_url input
  = Some (inl "invalid lapi base url: scheme is missing").
Proof. apply parse_no_colon. Qed.

Lemma find_base_lapi_url_scheme_missing_witness :
  str_mem ":" "localhost/8080" = false
  /\ find_base_lapi_url "localhost/8080"
     = Some (inl "invalid lapi base url: scheme is missing").
Proof.
  split; [reflexivity|].
  apply (find_base_lapi_url_scheme_missing "localhost/8080"). reflexivity.
Defined.

(** X3.  When the first ':' is not followed by "//" the input is
    rejected, whatever comes later. *)
Theorem find_base_lapi_url_double_slash_missing (sch b : string) :
  str_mem ":" sch = false -> apr_pstrndup b 2 <> "//" ->
  find_base_lapi_url (sch +:+ String ":" b)
  = Some (inl ("invalid lapi base url: " +:+ String dquote "//" +:+
               String dquote " after scheme not found")).
Proof. apply parse_no_double_slash. Qed.

Lemma find_base_lapi_url_double_slash_missing_witness :
  find_base_lapi_url ("localhost" +:+ String ":" "8080//x")
  = Some (inl ("invalid lapi base url: " +:+ String dquote "//" +:+
               String dquote " after scheme not found")).
Proof.
  apply (find_base_lapi_url_double_slash_missing "localhost" "8080//x");
    [reflexivity | discriminate].
Defined.

(** X4.  Without a '/' after the "//" the authority runs to the end of
    the input and the path is absent. *)
Theorem find_base_lapi_url_authority_only (sch auth : string) :
  str_mem ":" sch = false -> str_mem "/" auth = false ->
  auth <> EmptyString ->
  find_base_lapi_url (sch +:+ "://" +:+ auth)
  = Some (inr {| scheme := sch; authority := auth; path := None |}).
Proof. apply parse_without_path. Qed.

Lemma find_base_lapi_url_authority_only_witness :
  find_base_lapi_url ("http" +:+ "://" +:+ "[::1]:8080")
  = Some (inr {| scheme := "http"; authority := "[::1]:8080";
                 path := None |}).
Proof.
  apply (find_base_lapi_url_authority_only "http" "[::1]:8080");
    [reflexivity | reflexivity | discriminate].
Defined.

(** X5.  What the parser accepts it takes apart without loss: the input is
    the scheme, "://", the authority and the path put together again.
    The scheme holds no ':', the authority no '/'; a path starts with
    '/', and without a path the authority is not empty. *)
Theorem find_base_lapi_url_recompose (input : string) (u : struct_url) :
  find_base_lapi_url input = Some (inr u) ->
  input = scheme u +:+ "://" +:+ authority u +:+
          match path u with Some p => p | None => EmptyString end
  /\ str_mem ":" (scheme u) = false
  /\ str_mem "/" (authority u) = false
  /\ match path u with
     | Some p => exists rest, p = "/" +:+ rest
     | None => authority u <> EmptyString
     end.
Proof.
  intros Hparse.
  destruct (str_mem ":" input) eqn:Hcolon.
  2:{ rewrite parse_no_colon in Hparse by assumption. discriminate. }
  destruct (str_split_first _ _ Hcolon) as (sch & b & -> & Hs).
  destruct (string_dec (apr_pstrndup b 2) "//") as [Hb|Hb].
  2:{ rewrite parse_no_double_slash in Hparse by assumption. discriminate. }
  apply apr_pstrndup_2 in Hb.
  remember (str_drop 2 b) as tail eqn:Htail. clear Htail. subst b.
  change (sch +:+ String ":" ("//" +:+ tail)) with (sch +:+ "://" +:+ tail)
    in *.
  destruct (str_mem "/" tail) eqn:Hslash.
  - destruct (str_split_first _ _ Hslash) as (auth & rest & -> & Ha).
    change (sch +:+ "://" +:+ auth +:+ String "/" rest)
      with (sch +:+ "://" +:+ auth +:+ "/" +:+ rest) in *.
    rewrite parse_with_path in Hparse by assumption.
    injection Hparse as <-. simpl. repeat split; eauto.
  - destruct tail as [|c tail].
    + rewrite parse_missing_authority in Hparse by assumption. discriminate.
    + rewrite parse_without_path in Hparse by (assumption || discriminate).
      injection Hparse as <-. simpl. repeat split; try assumption.
      * now rewrite str_app_empty.
      * discriminate.
Qed.

Lemma find_base_lapi_url_recompose_witness :
  "http://localhost:8080/v1"
  = "http" +:+ "://" +:+ "localhost:8080" +:+ "/v1"
  /\ str_mem ":" "http" = false
  /\ str_mem "/" "localhost:8080" = false
  /\ exists rest, "/v1" = "/" +:+ rest.
Proof.
  apply (find_base_lapi_url_recompose "http://localhost:8080/v1"
           {| scheme := "http"; authority := "localhost:8080";
              path := Some "/v1" |}).
  vm_compute. reflexivity.
Defined.

(** ** CrowdsecURL *)

(** X6.  A path given in CrowdsecURL plays no part in the lookup: for
    [scheme://authority/rest] the directive succeeds, flags the URL as
    set, leaves the other settings alone, and the target of every lookup
    is [scheme://authority/v1/decisions?ip=] followed by the encoded
    address, whatever [rest] is. *)
Theorem set_crowdsec_url_ignores_path {I} (sconf : crowdsec_server_rec I)
  (sch auth rest : string) :
  str_mem ":" sch = false -> str_mem "/" auth = false ->
  exists u,
    set_crowdsec_url sconf (sch +:+ "://" +:+ auth +:+ "/" +:+ rest)
    = Some (None,
            {| url := Some u; key := key sconf;
               cache_mutex := cache_mutex sconf;
               cache_provider := cache_provider sconf;
               cache_instance := cache_instance sconf;
               cache_timeout := cache_timeout sconf;
               url_set := true; key_set := key_set sconf;
               cache_provider_set := cache_provider_set sconf;
               cache_timeout_set := cache_timeout_set sconf |})
    /\ forall (h : host I) (r : request_rec I),
         crowdsec_target h u r
         = sch +:+ "://" +:+ auth +:+ "/v1/decisions?ip=" +:+
           ap_escape_urlencoded h (useragent_ip r).
Proof.
  intros Hs Ha. unfold set_crowdsec_url.
  rewrite parse_with_path by assumption.
  eexists. split; [reflexivity|]. intros h r. reflexivity.
Qed.

Lemma set_crowdsec_url_ignores_path_witness :
  exists u,
    option_map (fun res => url (snd res))
      (set_crowdsec_url
         (@create_crowdsec_server_config (gmap string (Z * string)))
         ("http" +:+ "://" +:+ "localhost:8080" +:+ "/" +:+ "some/path"))
    = Some (Some u)
    /\ crowdsec_target (host_answering "null") u
                       (request_from_client false conf_on)
       = "http://localhost:8080/v1/decisions?ip=198.51.100.9".
Proof.
  destruct (set_crowdsec_url_ignores_path
              (@create_crowdsec_server_config (gmap string (Z * string)))
              "http" "localhost:8080" "some/path" eq_refl eq_refl)
    as (u & Hset & Htarget).
  exists u. split.
  - rewrite Hset. reflexivity.
  - rewrite Htarget. reflexivity.
Defined.

(** ** The cache key on distinct clients *)

Lemma eqb_space_false (c : ascii) :
  Ascii.eqb c " " = false -> c <> " "%char.
Proof. intros H ->. discriminate. Qed.

(** X7.  Two addresses without a space never share a cache key. *)
Theorem crowdsec_cache_key_injective (ip1 ip2 : string) :
  str_mem " " ip1 = false -> str_mem " " ip2 = false ->
  fst (crowdsec_cache_key ip1) = fst (crowdsec_cache_key ip2) ->
  ip1 = ip2.
Proof.
  intros H1 H2.
  destruct ip1 as [|a1 [|b1 [|c1 [|d1 s1]]]];
    destruct ip2 as [|a2 [|b2 [|c2 [|d2 s2]]]];
    cbn in H1, H2 |- *;
    repeat match goal with
           | H : _ || _ = false |- _ =>
               apply orb_false_iff in H; destruct H
           | H : Ascii.eqb _ " " = false |- _ =>
               apply eqb_space_false in H
           end;
    intros Hk; try reflexivity; try congruence;
    injection Hk; intros; subst; try reflexivity; congruence.
Qed.

Lemma crowdsec_cache_key_injective_witness :
  str_mem " " "::1" = false /\ "::1" = "::1".
Proof.
  split; [reflexivity|].
  apply (crowdsec_cache_key_injective "::1" "::1"); reflexivity.
Defined.

(** With a space allowed, keys do collide. *)
Example crowdsec_cache_key_space_collides :
  fst (crowdsec_cache_key "::1") = fst (crowdsec_cache_key "::1 ").
Proof. reflexivity. Qed.

(** ** Configuration: merges and directives *)

(** X8.  Both merges are associative: merging three nested scopes gives
    the same settings whichever two are merged first. *)
Theorem merge_associative :
  (forall a b c : crowdsec_config_rec,
     merge_crowdsec_dir_config (merge_crowdsec_dir_config a b) c
     = merge_crowdsec_dir_config a (merge_crowdsec_dir_config b c))
  /\ (forall (I : Type) (a b c : crowdsec_server_rec I),
        merge_crowdsec_server_config (merge_crowdsec_server_config a b) c
        = merge_crowdsec_server_config a (merge_crowdsec_server_config b c)).
Proof.
  split.
  - intros a b c. unfold merge_crowdsec_dir_config. cbn.
    destruct (enable_set c), (enable_set b), (fallback_set c),
      (fallback_set b), (location_set c), (location_set b),
      (blockedhttpcode_set c), (blockedhttpcode_set b); reflexivity.
  - intros I a b c. unfold merge_crowdsec_server_config. cbn.
    destruct (url_set c), (url_set b), (key_set c), (key_set b),
      (cache_provider_set c), (cache_provider_set b),
      (cache_timeout_set c), (cache_timeout_set b); reflexivity.
Qed.

(** A scope that sets nothing inherits everything its parent has set,
    except what is per request or per process: the merged route record
    starts with no recorded response, and the merged server record with
    no cache mutex. *)
Lemma merge_unset_inherits :
  (forall base : crowdsec_config_rec,
     merge_crowdsec_dir_config base create_crowdsec_dir_config
     = {| response := None; location := location base;
          enable := enable base; fallback := fallback base;
          blockedhttpcode := blockedhttpcode base;
          enable_set := enable_set base; fallback_set := fallback_set base;
          location_set := location_set base;
          blockedhttpcode_set := blockedhttpcode_set base |})
  /\ (forall (I : Type) (base : crowdsec_server_rec I),
        merge_crowdsec_server_config base create_crowdsec_server_config
        = with_cache_mutex base false).
Proof. split; reflexivity. Qed.

(** X9.  CrowdsecFallback accepts exactly the lower-case words fail,
    block and allow; it then sets the policy and its flag and nothing
    else.  Any other argument is an error and leaves the record as it
    was. *)
Theorem set_crowdsec_fallback_words (conf : crowdsec_config_rec)
  (arg : string) :
  match set_crowdsec_fallback conf arg with
  | (None, conf') =>
      (arg = "fail" /\ fallback conf' = CROWDSEC_FAIL
       \/ arg = "block" /\ fallback conf' = CROWDSEC_BLOCK
       \/ arg = "allow" /\ fallback conf' = CROWDSEC_ALLOW)
      /\ conf' = with_fallback_set (with_fallback conf (fallback conf'))
  | (Some _, conf') =>
      conf' = conf /\ arg <> "fail" /\ arg <> "block" /\ arg <> "allow"
  end.
Proof.
  unfold set_crowdsec_fallback.
  destruct (String.eqb_spec arg "fail") as [->|H1]; [split; auto|].
  destruct (String.eqb_spec arg "block") as [->|H2]; [split; auto|].
  destruct (String.eqb_spec arg "allow") as [->|H3]; [split; auto|].
  repeat split; assumption.
Qed.

Example set_crowdsec_fallback_is_case_sensitive :
  fst (set_crowdsec_fallback create_crowdsec_dir_config "Allow") <> None.
Proof. discriminate. Qed.

(** [atoi] answers an [int], whatever the argument. *)
Lemma atoi_int_range (s : string) : -2147483648 <= atoi s < 2147483648.
Proof.
  unfold atoi, int_of_long.
  pose proof (Z.mod_pos_bound (strtol s + 2147483648) 4294967296).
  lia.
Qed.

(** A numeral that fits an [int] is read as it is. *)
Lemma atoi_fits (s : string) :
  -2147483648 <= strtol_value s < 2147483648 -> atoi s = strtol_value s.
Proof.
  intros Hfit. unfold atoi, strtol, int_of_long, LONG_MIN, LONG_MAX.
  rewrite Z.min_r, Z.max_r by lia.
  rewrite Z.mod_small by lia. lia.
Qed.

(** One that does not is cut to its low 32 bits: 2^32 + 429 is taken as
    429 and accepted. *)
Example set_crowdsec_blockedhttpcode_wraps :
  set_crowdsec_blockedhttpcode create_crowdsec_dir_config "4294967725"
  = (None,
     with_blockedhttpcode_set
       (with_blockedhttpcode create_crowdsec_dir_config 429)).
Proof. reflexivity. Qed.

(** X10.  CrowdsecBlockedHTTPCode reads its argument the way [atoi] does:
    403, 429 or 500 followed by anything that does not start with a
    digit is accepted as that code.  The directive sets the code and its
    flag and nothing else. *)
Theorem set_crowdsec_blockedhttpcode_trailing (conf : crowdsec_config_rec)
  (code : Z) (rest : string) :
  code = 403 \/ code = 429 \/ code = 500 ->
  starts_with_digit rest = false ->
  set_crowdsec_blockedhttpcode conf (fmt_d code +:+ rest)
  = (None, with_blockedhttpcode_set (with_blockedhttpcode conf code)).
Proof.
  intros Hcode Hrest.
  assert (Hvalue : strtol_value (fmt_d code +:+ rest) = code).
  { destruct Hcode as [-> | [-> | ->]];
      [change (fmt_d 403 +:+ rest)
         with (String "4" (String "0" (String "3" rest)))
      |change (fmt_d 429 +:+ rest)
         with (String "4" (String "2" (String "9" rest)))
      |change (fmt_d 500 +:+ rest)
         with (String "5" (String "0" (String "0" rest)))];
      cbn; destruct rest as [|c rest]; try reflexivity;
      cbn in Hrest |- *;
      (destruct (digit_value c); [discriminate | reflexivity]). }
  assert (Hatoi : atoi (fmt_d code +:+ rest) = code).
  { unfold atoi, strtol. rewrite Hvalue.
    destruct Hcode as [-> | [-> | ->]]; reflexivity. }
  unfold set_crowdsec_blockedhttpcode. rewrite Hatoi.
  destruct Hcode as [-> | [-> | ->]]; reflexivity.
Qed.

Lemma set_crowdsec_blockedhttpcode_trailing_witness :
  set_crowdsec_blockedhttpcode conf_on (fmt_d 403 +:+ " Forbidden")
  = (None, with_blockedhttpcode_set (with_blockedhttpcode conf_on 403)).
Proof.
  apply (set_crowdsec_blockedhttpcode_trailing conf_on 403 " Forbidden");
    [left; reflexivity | reflexivity].
Defined.

(** ** CrowdsecCache and the provider *)

(** X11.  CrowdsecCache splits its argument at the first ':': the part
    before it names the provider, the part after it goes to the
    provider's [create]; without a ':' the whole argument is the name and
    [create] gets no argument.  When the provider is found and [create]
    succeeds, provider and instance are kept and the flag is set. *)
Theorem set_crowdsec_cache_name_args {I}
  (lookup : string -> option (ap_socache_provider_t I))
  (create : ap_socache_provider_t I -> option string -> option string * bool)
  (sconf : crowdsec_server_rec I) (name args : string)
  (p : ap_socache_provider_t I) :
  str_mem ":" name = false -> lookup name = Some p ->
  (forall inst,
     create p (Some args) = (None, inst) ->
     set_crowdsec_cache lookup create sconf (name +:+ ":" +:+ args)
     = (None,
        {| url := url sconf; key := key sconf;
           cache_mutex := cache_mutex sconf;
           cache_provider := Some p; cache_instance := inst;
           cache_timeout := cache_timeout sconf;
           url_set := url_set sconf; key_set := key_set sconf;
           cache_provider_set := true;
           cache_timeout_set := cache_timeout_set sconf |}))
  /\ (forall inst,
        create p None = (None, inst) ->
        set_crowdsec_cache lookup create sconf name
        = (None,
           {| url := url sconf; key := key sconf;
              cache_mutex := cache_mutex sconf;
              cache_provider := Some p; cache_instance := inst;
              cache_timeout := cache_timeout sconf;
              url_set := url_set sconf; key_set := key_set sconf;
              cache_provider_set := true;
              cache_timeout_set := cache_timeout_set sconf |})).
Proof.
  intros Hname Hlookup.
  assert (Hsplit : ap_strchr_c (name +:+ ":" +:+ args) ":"
                   = Some (String.length name)).
  { clear Hlookup. induction name as [|c name IH]; [reflexivity|].
    simpl in Hname. apply orb_false_iff in Hname as [Hc Hname].
    change (String c name +:+ ":" +:+ args)
      with (String c (name +:+ ":" +:+ args)).
    simpl. now rewrite Hc, IH. }
  assert (Hnone : ap_strchr_c name ":" = None).
  { clear Hlookup Hsplit. induction name as [|c name IH]; [reflexivity|].
    simpl in Hname. apply orb_false_iff in Hname as [Hc Hname].
    simpl. now rewrite Hc, IH. }
  split; intros inst Hcreate; unfold set_crowdsec_cache.
  - rewrite Hsplit, apr_pstrndup_app.
    rewrite (str_drop_app name (":" +:+ args) 1).
    change (str_drop 1 (":" +:+ args)) with args.
    now rewrite Hlookup, Hcreate.
  - now rewrite Hnone, Hlookup, Hcreate.
Qed.

Lemma set_crowdsec_cache_name_args_witness :
  cache_provider_set
    (snd (set_crowdsec_cache
            (fun name => if String.eqb name "shmcb"
                         then Some table_provider else None)
            (fun _ _ => (None, true))
            create_crowdsec_server_config
            ("shmcb" +:+ ":" +:+ "/var/cache/crowdsec(512000)")))
  = true.
Proof.
  destruct (set_crowdsec_cache_name_args
              (fun name => if String.eqb name "shmcb"
                           then Some table_provider else None)
              (fun _ _ => (None, true))
              create_crowdsec_server_config
              "shmcb" "/var/cache/crowdsec(512000)" table_provider
              eq_refl eq_refl) as [Hargs _].
  rewrite (Hargs true eq_refl). reflexivity.
Defined.

(** X12.  A provider flag never stands without its provider: the fresh
    server record has neither; a merge takes flag and provider together
    from the same side; a CrowdsecCache that succeeds sets both, and one
    that fails leaves the flag as it was. *)
Theorem provider_flag_invariant :
  (forall I : Type,
     provider_flag_ok (@create_crowdsec_server_config I) = true)
  /\ (forall (I : Type) (base add : crowdsec_server_rec I),
        provider_flag_ok (merge_crowdsec_server_config base add)
        = if cache_provider_set add then provider_flag_ok add
          else provider_flag_ok base)
  /\ (forall (I : Type)
             (lookup : string -> option (ap_socache_provider_t I))
             (create : ap_socache_provider_t I -> option string
                       -> option string * bool)
             (sconf : crowdsec_server_rec I) (arg : string),
        match set_crowdsec_cache lookup create sconf arg with
        | (None, sconf') =>
            cache_provider_set sconf' = true
            /\ provider_flag_ok sconf' = true
        | (Some _, sconf') =>
            cache_provider_set sconf' = cache_provider_set sconf
        end).
Proof.
  split; [reflexivity|]. split.
  - intros I base add. unfold provider_flag_ok. cbn.
    destruct (cache_provider_set add); cbn; [reflexivity|].
    now destruct (cache_provider_set base).
  - intros I lookup create sconf arg. unfold set_crowdsec_cache.
    destruct (ap_strchr_c arg ":") as [n|];
      match goal with
      | |- context [lookup ?name] =>
          destruct (lookup name) as [p|]; cbn; [|reflexivity]
      end;
      match goal with
      | |- context [create ?p ?a] =>
          destruct (create p a) as [[e|] inst]; cbn; auto
      end.
Qed.

(** ** Start-up *)

Lemma with_cache_mutex_same {I} (sconf : crowdsec_server_rec I) :
  with_cache_mutex sconf (cache_mutex sconf) = sconf.
Proof. now destruct sconf. Qed.

Lemma crowdsec_post_config_from_ok {I}
  (mutex_create cache_init : nat -> apr_status_t)
  (vhosts : list (crowdsec_server_rec I)) :
  (forall j, mutex_create j = APR_SUCCESS) ->
  (forall j, cache_init j = APR_SUCCESS) ->
  forallb provider_flag_ok vhosts = true ->
  forallb (fun s => negb (cache_mutex s)) vhosts = true ->
  forall i,
    crowdsec_post_config_from mutex_create cache_init i vhosts
    = Some (OK,
            map (fun s => with_cache_mutex s (cache_provider_set s)) vhosts,
            mjoin (imap (fun k s => post_config_calls (i + k) s) vhosts)).
Proof.
  intros Hc Hi. induction vhosts as [|s vhosts IH]; intros Hflag Hmx i.
  - reflexivity.
  - cbn in Hflag, Hmx.
    apply andb_true_iff in Hflag as [Hs Hflag].
    apply andb_true_iff in Hmx as [Hm Hmx].
    apply negb_true_iff in Hm.
    cbn [crowdsec_post_config_from map]. rewrite imap_cons.
    cbn [mjoin list_join]. unfold post_config_calls at 1.
    rewrite (IH Hflag Hmx (S i)).
    replace (imap ((fun k s0 => post_config_calls (i + k) s0) ∘ S) vhosts)
      with (imap (fun k s0 => post_config_calls (S i + k) s0) vhosts).
    2:{ apply imap_ext. intros k s0 _. cbn. f_equal. lia. }
    rewrite Nat.add_0_r.
    destruct (cache_provider_set s) eqn:Hset.
    + rewrite Hc, Hi. cbn.
      unfold provider_flag_ok in Hs. rewrite Hset in Hs. cbn in Hs.
      destruct (cache_provider s); [reflexivity | discriminate].
    + replace (with_cache_mutex s false) with s; [reflexivity|].
      rewrite <- Hm. symmetry. apply with_cache_mutex_same.
Qed.

(** X13.  When every mutex is created and every provider initialised,
    start-up succeeds: each server whose provider flag is set gets its
    own mutex and its own [init] call, in the order of the servers, also
    where flag and provider were inherited through a merge; the other
    servers get neither; nothing else in a server record changes.
    Afterwards every server that has a mutex has a provider. *)
Theorem crowdsec_post_config_ok {I}
  (mutex_create cache_init : nat -> apr_status_t)
  (vhosts : list (crowdsec_server_rec I)) :
  (forall j, mutex_create j = APR_SUCCESS) ->
  (forall j, cache_init j = APR_SUCCESS) ->
  forallb provider_flag_ok vhosts = true ->
  forallb (fun s => negb (cache_mutex s)) vhosts = true ->
  crowdsec_post_config mutex_create cache_init vhosts
  = Some (OK,
          map (fun s => with_cache_mutex s (cache_provider_set s)) vhosts,
          mjoin (imap post_config_calls vhosts))
  /\ forallb mutex_has_provider
             (map (fun s => with_cache_mutex s (cache_provider_set s))
                  vhosts) = true.
Proof.
  intros Hc Hi Hflag Hmx. split.
  - unfold crowdsec_post_config.
    now rewrite (crowdsec_post_config_from_ok mutex_create cache_init
                   vhosts Hc Hi Hflag Hmx 0).
  - clear Hmx. induction vhosts as [|s vhosts IH]; [reflexivity|].
    cbn in Hflag |- *. apply andb_true_iff in Hflag as [Hs Hflag].
    rewrite (IH Hflag), andb_true_r. exact Hs.
Qed.

Lemma crowdsec_post_config_ok_witness :
  crowdsec_post_config (fun _ => APR_SUCCESS) (fun _ => APR_SUCCESS)
    [with_cache_mutex (reference_server true table_provider) false;
     reference_server false table_provider;
     merge_crowdsec_server_config
       (with_cache_mutex (reference_server true table_provider) false)
       create_crowdsec_server_config]
  = Some (OK,
          map (fun s => with_cache_mutex s (cache_provider_set s))
            [with_cache_mutex (reference_server true table_provider) false;
             reference_server false table_provider;
             merge_crowdsec_server_config
               (with_cache_mutex (reference_server true table_provider) false)
               create_crowdsec_server_config],
          [CallMutexCreate 0; CallRegisterCleanupLock 0;
           CallCacheInit 0; CallRegisterCleanupCache 0;
           CallMutexCreate 2; CallRegisterCleanupLock 2;
           CallCacheInit 2; CallRegisterCleanupCache 2]).
Proof.
  apply (crowdsec_post_config_ok (fun _ => APR_SUCCESS) (fun _ => APR_SUCCESS)
           [with_cache_mutex (reference_server true table_provider) false;
            reference_server false table_provider;
            merge_crowdsec_server_config
              (with_cache_mutex (reference_server true table_provider) false)
              create_crowdsec_server_config]);
    reflexivity.
Defined.

Lemma post_config_untouched {I} (l : list (crowdsec_server_rec I)) :
  Forall2 (fun s s' => s' = s \/ s' = with_cache_mutex s true) l l.
Proof.
  induction l as [|s l IH]; [constructor|].
  apply Forall2_cons. split; [now left | exact IH].
Qed.

(** What start-up can return, and what it can change. *)
Lemma crowdsec_post_config_from_inv {I}
  (mutex_create cache_init : nat -> apr_status_t)
  (vhosts : list (crowdsec_server_rec I)) :
  forall i st vhosts' cs,
    crowdsec_post_config_from mutex_create cache_init i vhosts
    = Some (st, vhosts', cs) ->
    (st = OK \/ st = 500)
    /\ Forall2 (fun s s' => s' = s \/ s' = with_cache_mutex s true)
               vhosts vhosts'
    /\ (st = OK ->
        Forall (fun s' => cache_provider_set s' = true ->
                          cache_mutex s' = true) vhosts')
    /\ (st = 500 ->
        exists j, In (CallMutexCreate j) cs
                  /\ (mutex_create j <> APR_SUCCESS
                      \/ cache_init j <> APR_SUCCESS)).
Proof.
  induction vhosts as [|s vhosts IH]; intros i st vhosts' cs; cbn.
  - intros [= <- <- <-].
    split; [now left|]. split; [constructor|].
    split; [intros _; constructor | discriminate].
  - destruct (cache_provider_set s) eqn:Hset.
    + destruct (mutex_create i =? APR_SUCCESS) eqn:Hc; cbn.
      * destruct (cache_provider s) as [p|]; [|discriminate].
        destruct (cache_init i =? APR_SUCCESS) eqn:Hi; cbn.
        -- destruct (crowdsec_post_config_from _ _ (S i) vhosts)
             as [[[st0 rest'] cs0]|] eqn:Hrest; [|discriminate].
           intros [= <- <- <-].
           destruct (IH _ _ _ _ Hrest) as (Hst & Hall & Hok & Hfail).
           split; [exact Hst|]. split.
           { apply Forall2_cons. split; [now right | assumption]. }
           split.
           { intros Hst0. apply Forall_cons. split; [reflexivity | auto]. }
           intros Hst0. destruct (Hfail Hst0) as (j & Hin & Hj).
           exists j. split; [|assumption]. cbn. auto 10.
        -- intros [= <- <- <-].
           split; [now right|]. split.
           { apply Forall2_cons. split; [now right|].
             apply post_config_untouched. }
           split; [discriminate|].
           intros _. exists i. split; [cbn; auto|].
           right. now apply Z.eqb_neq.
      * intros [= <- <- <-].
        split; [now right|]. split; [apply post_config_untouched|].
        split; [discriminate|].
        intros _. exists i. split; [cbn; auto|].
        left. now apply Z.eqb_neq.
    + destruct (crowdsec_post_config_from _ _ (S i) vhosts)
        as [[[st0 rest'] cs0]|] eqn:Hrest; [|discriminate].
      intros [= <- <- <-].
      destruct (IH _ _ _ _ Hrest) as (Hst & Hall & Hok & Hfail).
      split; [exact Hst|]. split.
      { apply Forall2_cons. split; [now left | assumption]. }
      split; [|exact Hfail].
      intros Hst0. apply Forall_cons. split; [congruence | auto].
Qed.

(** X14.  Start-up returns OK or 500 and nothing else.  It changes no
    setting of any server except to give it a mutex; after OK every
    server whose provider flag is set has one; 500 means that for some
    server the creation of the mutex or the [init] of the provider
    failed. *)
Theorem crowdsec_post_config_outcome {I}
  (mutex_create cache_init : nat -> apr_status_t)
  (vhosts vhosts' : list (crowdsec_server_rec I)) (st : Z)
  (cs : list lifecycle_call) :
  crowdsec_post_config mutex_create cache_init vhosts
  = Some (st, vhosts', cs) ->
  (st = OK \/ st = 500)
  /\ Forall2 (fun s s' => s' = s \/ s' = with_cache_mutex s true)
             vhosts vhosts'
  /\ (st = OK ->
      Forall (fun s' => cache_provider_set s' = true ->
                        cache_mutex s' = true) vhosts')
  /\ (st = 500 ->
      exists j, In (CallMutexCreate j) cs
                /\ (mutex_create j <> APR_SUCCESS
                    \/ cache_init j <> APR_SUCCESS)).
Proof. apply crowdsec_post_config_from_inv. Qed.

Lemma crowdsec_post_config_outcome_witness :
  exists j,
    In (CallMutexCreate j)
       [CallMutexCreate 0; CallRegisterCleanupLock 0; CallCacheInit 0]
    /\ ((fun _ : nat => APR_SUCCESS) j <> APR_SUCCESS
        \/ (fun _ : nat => APR_ENOSPC) j <> APR_SUCCESS).
Proof.
  destruct (crowdsec_post_config_outcome
              (fun _ => APR_SUCCESS) (fun _ => APR_ENOSPC)
              [with_cache_mutex (reference_server true table_provider) false;
               reference_server false table_provider]
              [reference_server true table_provider;
               reference_server false table_provider]
              500
              [CallMutexCreate 0; CallRegisterCleanupLock 0; CallCacheInit 0]
              eq_refl) as (_ & _ & _ & Hfail).
  exact (Hfail eq_refl).
Defined.

(** ** Shut-down *)



(** ** Every run of the request path *)

Section Runs.

Context {I : Type} (h : host I).

(** What a run of [crowdsec_proxy] can return and what it leaves alone. *)
Lemma crowdsec_proxy_inv (r : request_rec I) (w w' : world I) (st : Z)
  (resp : option string) :
  crowdsec_proxy h r w = Some ((st, resp), w') ->
  w_cache w' = w_cache w /\ w_mutex_held w' = w_mutex_held w
  /\ w_custom_response w' = w_custom_response w
  /\ (exists cs, w_calls w' = w_calls w ++ cs
                 /\ forallb (fun c => negb (is_cache_write c)) cs = true)
  /\ (resp = None
      /\ st = status (ap_sub_req_method_uri h "GET" (uri r) r)
      /\ st <> HTTP_OK
      \/ resp = None /\ st = HTTP_INTERNAL_SERVER_ERROR
      \/ st = OK /\ resp <> None).
Proof.
  unfold crowdsec_proxy. unfold_monad.
  destruct (server_config r) as [sconf|]; [|discriminate].
  destruct (url sconf) as [u|]; [|discriminate].
  cbn -[crowdsec_target Z.eqb block_body].
  destruct (status (ap_sub_req_method_uri h "GET" (uri r) r) =? HTTP_OK)
    eqn:Hsub; cbn -[crowdsec_target Z.eqb block_body].
  - match goal with
    | |- context [run_status ?x] => set (res := x)
    end.
    destruct ((HTTP_NOT_FOUND =? run_status res)
              || (run_status res =? OK)
                 && (HTTP_NOT_FOUND =? run_rr_status res));
      cbn -[crowdsec_target Z.eqb block_body].
    + intros [= <- <- <-]. cbn. repeat split; auto.
      eexists. rewrite <- app_assoc. split; reflexivity.
    + destruct (run_status res =? OK) eqn:Hok;
        cbn -[crowdsec_target Z.eqb block_body].
      * match goal with
        | |- context [response ?c] => destruct (response c)
        end; intros [= <- <- <-]; cbn; repeat split; auto;
          try (eexists; rewrite <- app_assoc; split; reflexivity);
          try (right; right; (split; [reflexivity | discriminate])).
      * destruct (fallback (per_dir_config r));
          intros [= <- <- <-]; cbn; repeat split; auto;
          try (eexists; rewrite <- app_assoc; split; reflexivity);
          try (right; right; (split; [reflexivity | discriminate])).
  - intros [= <- <- <-]. cbn. repeat split; auto.
    + eexists. split; reflexivity.
    + left. repeat split. now apply Z.eqb_neq.
Qed.

(** What a run of [crowdsec_to_cache] leaves alone. *)
Lemma crowdsec_to_cache_inv (r : request_rec I) (response : string)
  (w w' : world I) :
  crowdsec_to_cache h r response w = Some (tt, w') ->
  w_notes w' = w_notes w
  /\ w_custom_response w' = w_custom_response w
  /\ (exists cs, w_calls w' = w_calls w ++ cs
                 /\ forallb (fun c => negb (is_upstream c)) cs = true)
  /\ (forall sconf, server_config r = Some sconf ->
                    cache_mutex sconf = false -> w' = w)
  /\ (apr_global_mutex_unlock h = APR_SUCCESS ->
      w_mutex_held w = false -> w_mutex_held w' = false).
Proof.
  unfold crowdsec_to_cache. unfold_monad.
  destruct (server_config r) as [sconf|]; [|discriminate].
  destruct (cache_mutex sconf) eqn:Hm; cbn.
  2:{ intros [= <-]. repeat split; auto.
      exists []. now rewrite app_nil_r. }
  destruct (APR_STATUS_IS_EBUSY (apr_global_mutex_trylock h)); cbn.
  { intros [= <-]. cbn. repeat split; auto.
    - eexists. split; reflexivity.
    - intros s [= <-]. congruence. }
  destruct (apr_global_mutex_trylock h =? APR_SUCCESS); cbn.
  2:{ intros [= <-]. cbn. repeat split; auto.
      - eexists. split; reflexivity.
      - intros s [= <-]. congruence. }
  destruct (crowdsec_cache_key (useragent_ip r)) as [k n].
  destruct (cache_provider sconf) as [p|]; [|discriminate]. cbn.
  destruct (store p _ _ _ _ _ _ _) as [st cache']. cbn.
  destruct (st =? APR_SUCCESS);
    destruct (apr_global_mutex_unlock h =? APR_SUCCESS) eqn:Hu; cbn;
    intros [= <-]; cbn; repeat split; auto;
    try (eexists; rewrite <- !app_assoc; split; reflexivity);
    try (intros s [= <-]; congruence);
    intros Hu'; rewrite Hu' in Hu; discriminate.
Qed.

(** What a run of the classification can return and what it leaves
    alone. *)
Lemma crowdsec_query_response_inv (r : request_rec I) (response : string)
  (w w' : world I) (st : Z) :
  crowdsec_query_response h r response w = Some (st, w') ->
  w_cache w' = w_cache w /\ w_mutex_held w' = w_mutex_held w
  /\ w_notes w' = w_notes w
  /\ (exists cs, w_calls w' = w_calls w ++ cs
                 /\ forallb (fun c => negb (is_cache_write c)
                                      && negb (is_upstream c)) cs = true)
  /\ (st = OK \/ st = HTTP_INTERNAL_SERVER_ERROR
      \/ st = blockedhttpcode (per_dir_config r)).
Proof.
  unfold crowdsec_query_response. unfold_monad.
  destruct (String.eqb "null" response).
  - intros [= <- <-]. cbn. repeat split; auto.
    exists []. now rewrite app_nil_r.
  - destruct (location (per_dir_config r)) as [e|].
    + cbn. destruct (ap_expr_str_exec h r e) as [loc [msg|]];
        intros [= <- <-]; cbn; repeat split; auto;
        eexists; split; reflexivity.
    + intros [= <- <-]. cbn. repeat split; auto.
      exists []. now rewrite app_nil_r.
Qed.

(** The calls of a lookup: one [retrieve] when a provider is there. *)
Lemma crowdsec_from_cache_calls (r : request_rec I) (w w1 : world I)
  (res : option string) :
  crowdsec_from_cache h r w = Some (res, w1) ->
  exists cs, w_calls w1 = w_calls w ++ cs
             /\ forallb (fun c => negb (is_cache_write c)
                                  && negb (is_upstream c)) cs = true.
Proof.
  unfold crowdsec_from_cache. unfold_monad.
  destruct (server_config r) as [sconf|]; [|discriminate].
  destruct (cache_provider sconf) as [p|].
  - destruct (crowdsec_cache_key (useragent_ip r)) as [k n].
    cbn. destruct (retrieve p _ _ _ _ _) as [st val].
    destruct (APR_STATUS_IS_NOTFOUND st); [|destruct (st =? APR_SUCCESS)];
      intros [= <- <-]; cbn; eexists; split; reflexivity.
  - intros [= <- <-]. exists []. now rewrite app_nil_r.
Qed.

(** Every run of [crowdsec_check_access] that returns is of one of three
    kinds: declined at once; decided from the cache; or decided after a
    miss by the proxy call, whose answer is written to the cache and
    classified when its status is OK. *)
Lemma crowdsec_check_access_inv (r : request_rec I) (w w' : world I)
  (st : Z) :
  crowdsec_check_access h r w = Some (st, w') ->
  (st = DECLINED /\ w' = w)
  \/ (exists resp w1 st0,
        crowdsec_from_cache h r w = Some (Some resp, w1)
        /\ crowdsec_query_response h r resp w1 = Some (st0, w')
        /\ st = if st0 =? OK then DECLINED else st0)
  \/ (exists w1 st0 resp0 w2,
        crowdsec_from_cache h r w = Some (None, w1)
        /\ crowdsec_proxy h r w1 = Some ((st0, resp0), w2)
        /\ (st0 <> OK /\ st = st0 /\ w' = w2
            \/ st0 = OK
               /\ exists resp w3 st1,
                    resp0 = Some resp
                    /\ crowdsec_to_cache h r resp w2 = Some (tt, w3)
                    /\ crowdsec_query_response h r resp w3 = Some (st1, w')
                    /\ st = if st1 =? OK then DECLINED else st1)).
Proof.
  unfold crowdsec_check_access, crowdsec_query.
  destruct (main r) eqn:Hmain; cbn.
  { intros [= <- <-]. now left. }
  destruct (enable (per_dir_config r)); cbn.
  2:{ intros [= <- <-]. now left. }
  destruct (no_url (server_config r)).
  { unfold bind, ret. cbn. intros [= <- <-]. now left. }
  unfold bind at 1. unfold bind at 1.
  destruct (crowdsec_from_cache h r w) as [[[resp|] w1]|] eqn:Hc;
    [| |discriminate].
  - destruct (crowdsec_query_response h r resp w1) as [[st0 w0]|] eqn:Hq;
      [|discriminate].
    unfold ret. intros Hres. right. left. exists resp, w1, st0.
    destruct (st0 =? OK); injection Hres as <- <-; auto.
  - unfold bind at 1.
    destruct (crowdsec_proxy h r w1) as [[[st0 resp0] w2]|] eqn:Hp;
      [|discriminate].
    intros Hres. right. right. exists w1, st0, resp0, w2.
    split; [reflexivity|]. split; [exact Hp|].
    destruct (st0 =? OK) eqn:Hst0; cbn in Hres.
    + apply Z.eqb_eq in Hst0. subst st0. right. split; [reflexivity|].
      unfold bind, deref, ret, fault in Hres.
      destruct resp0 as [resp|]; [|discriminate].
      destruct (crowdsec_to_cache h r resp w2) as [[[] w3]|] eqn:Hput;
        [|discriminate].
      destruct (crowdsec_query_response h r resp w3) as [[st1 w4]|] eqn:Hq;
        [|discriminate].
      exists resp, w3, st1.
      destruct (st1 =? OK); injection Hres as <- <-; auto.
    + left. unfold ret in Hres. rewrite Hst0 in Hres.
      injection Hres as <- <-. apply Z.eqb_neq in Hst0. auto.
Qed.

End Runs.

Section Engine.

Context {I : Type} (h : host I).

(** X16.  Without a cache mutex no request changes the cache: whatever
    path a run of the access checker takes, the cache and the mutex are
    afterwards as they were. *)
Theorem crowdsec_no_mutex_no_write (r : request_rec I) (w w' : world I)
  (st : Z) (sconf : crowdsec_server_rec I) :
  server_config r = Some sconf -> cache_mutex sconf = false ->
  crowdsec_check_access h r w = Some (st, w') ->
  w_cache w' = w_cache w /\ w_mutex_held w' = w_mutex_held w.
Proof.
  intros Hs Hm Hrun.
  destruct (crowdsec_check_access_inv h r w w' st Hrun)
    as [[_ ->] | [(resp & w1 & st0 & Hc & Hq & _)
                 | (w1 & st0 & resp0 & w2 & Hc & Hp & Hrest)]].
  - auto.
  - destruct (crowdsec_from_cache_frame h r w w1 _ Hc) as (Hc1 & Hm1 & _).
    destruct (crowdsec_query_response_inv h r resp w1 w' st0 Hq)
      as (Hc2 & Hm2 & _).
    split; congruence.
  - destruct (crowdsec_from_cache_frame h r w w1 _ Hc) as (Hc1 & Hm1 & _).
    destruct (crowdsec_proxy_inv h r w1 w2 st0 resp0 Hp)
      as (Hc2 & Hm2 & _).
    destruct Hrest as [(_ & _ & ->)
                      | (_ & resp & w3 & st1 & _ & Hput & Hq & _)].
    + split; congruence.
    + destruct (crowdsec_to_cache_inv h r resp w2 w3 Hput)
        as (_ & _ & _ & Hsame & _).
      rewrite (Hsame sconf Hs Hm) in Hq.
      destruct (crowdsec_query_response_inv h r resp w2 w' st1 Hq)
        as (Hc3 & Hm3 & _).
      split; congruence.
Qed.

(** X17.  The cache mutex is never left held: when the unlock call
    succeeds, a worker that did not hold the mutex before a request does
    not hold it after, on any path. *)
Theorem crowdsec_mutex_released (r : request_rec I) (w w' : world I)
  (st : Z) :
  apr_global_mutex_unlock h = APR_SUCCESS ->
  w_mutex_held w = false ->
  crowdsec_check_access h r w = Some (st, w') ->
  w_mutex_held w' = false.
Proof.
  intros Hu Hheld Hrun.
  destruct (crowdsec_check_access_inv h r w w' st Hrun)
    as [[_ ->] | [(resp & w1 & st0 & Hc & Hq & _)
                 | (w1 & st0 & resp0 & w2 & Hc & Hp & Hrest)]].
  - assumption.
  - destruct (crowdsec_from_cache_frame h r w w1 _ Hc) as (_ & Hm1 & _).
    destruct (crowdsec_query_response_inv h r resp w1 w' st0 Hq)
      as (_ & Hm2 & _).
    congruence.
  - destruct (crowdsec_from_cache_frame h r w w1 _ Hc) as (_ & Hm1 & _).
    destruct (crowdsec_proxy_inv h r w1 w2 st0 resp0 Hp)
      as (_ & Hm2 & _).
    destruct Hrest as [(_ & _ & ->)
                      | (_ & resp & w3 & st1 & _ & Hput & Hq & _)].
    + congruence.
    + destruct (crowdsec_to_cache_inv h r resp w2 w3 Hput)
        as (_ & _ & _ & _ & Hrel).
      destruct (crowdsec_query_response_inv h r resp w3 w' st1 Hq)
        as (_ & Hm3 & _).
      rewrite Hm3. apply Hrel; congruence.
Qed.

(** X18.  The access checker returns DECLINED, 500, the configured
    blocked code, or the status of a subrequest that could not be
    created, and nothing else; it never returns OK. *)
Theorem crowdsec_check_access_codes (r : request_rec I) (w w' : world I)
  (st : Z) :
  crowdsec_check_access h r w = Some (st, w') ->
  st <> OK
  /\ (st = DECLINED \/ st = HTTP_INTERNAL_SERVER_ERROR
      \/ st = blockedhttpcode (per_dir_config r)
      \/ st = status (ap_sub_req_method_uri h "GET" (uri r) r)
         /\ st <> HTTP_OK).
Proof.
  intros Hrun.
  assert (Hclass : forall st0 : Z,
    st0 = OK \/ st0 = HTTP_INTERNAL_SERVER_ERROR
    \/ st0 = blockedhttpcode (per_dir_config r) ->
    (if st0 =? OK then DECLINED else st0) <> OK
    /\ ((if st0 =? OK then DECLINED else st0) = DECLINED
        \/ (if st0 =? OK then DECLINED else st0) = HTTP_INTERNAL_SERVER_ERROR
        \/ (if st0 =? OK then DECLINED else st0)
           = blockedhttpcode (per_dir_config r)
        \/ (if st0 =? OK then DECLINED else st0)
           = status (ap_sub_req_method_uri h "GET" (uri r) r)
           /\ (if st0 =? OK then DECLINED else st0) <> HTTP_OK)).
  { intros st0 Hst0. destruct (st0 =? OK) eqn:E.
    - split; [discriminate | now left].
    - apply Z.eqb_neq in E. split; [assumption|].
      destruct Hst0 as [-> | [-> | ->]]; [contradiction | auto | auto]. }
  destruct (crowdsec_check_access_inv h r w w' st Hrun)
    as [[-> _] | [(resp & w1 & st0 & Hc & Hq & ->)
                 | (w1 & st0 & resp0 & w2 & Hc & Hp & Hrest)]].
  - split; [discriminate | now left].
  - apply Hclass.
    now destruct (crowdsec_query_response_inv h r resp w1 w' st0 Hq)
      as (_ & _ & _ & _ & Hst0).
  - destruct Hrest as [(Hne & -> & ->)
                      | (_ & resp & w3 & st1 & _ & Hput & Hq & ->)].
    + split; [assumption|].
      destruct (crowdsec_proxy_inv h r w1 w2 st0 resp0 Hp)
        as (_ & _ & _ & _ & [(_ & Hst & Hnot) | [(_ & Hst) | (Hst & _)]]).
      * right. right. right. split; assumption.
      * right. now left.
      * contradiction.
    + apply Hclass.
      now destruct (crowdsec_query_response_inv h r resp w3 w' st1 Hq)
        as (_ & _ & _ & _ & Hst1).
Qed.

(** X19.  A request decided from the cache goes nowhere else: after a
    hit no subrequest is created or run, nothing is locked or stored,
    and the cache is as it was. *)
Theorem crowdsec_hit_stays_local (r : request_rec I) (w w1 : world I)
  (resp : string) :
  main r = false -> enable (per_dir_config r) = true ->
  no_url (server_config r) = false ->
  crowdsec_from_cache h r w = Some (Some resp, w1) ->
  exists st w' cs,
    crowdsec_check_access h r w = Some (st, w')
    /\ w_cache w' = w_cache w
    /\ w_calls w' = w_calls w ++ cs
    /\ forallb (fun c => negb (is_cache_write c) && negb (is_upstream c)) cs
       = true.
Proof.
  intros Hm He Hu Hc.
  destruct (crowdsec_query_response_cases h r resp w1)
    as (st & w' & Hq & _).
  destruct (crowdsec_from_cache_frame h r w w1 _ Hc) as (Hc1 & _).
  destruct (crowdsec_from_cache_calls h r w w1 _ Hc) as (cs1 & Hcs1 & Hf1).
  destruct (crowdsec_query_response_inv h r resp w1 w' st Hq)
    as (Hc2 & _ & _ & (cs2 & Hcs2 & Hf2) & _).
  exists (if st =? OK then DECLINED else st), w', (cs1 ++ cs2).
  split.
  { rewrite crowdsec_check_access_enabled by assumption.
    rewrite (crowdsec_query_hit h r w w1 resp) by assumption.
    now rewrite Hq. }
  split; [congruence|]. split.
  - rewrite Hcs2, Hcs1. now rewrite app_assoc.
  - rewrite forallb_app, Hf1, Hf2. reflexivity.
Qed.

(** X20.  A failed cache read is a miss: whatever status other than
    APR_SUCCESS the provider's [retrieve] returns, the lookup yields no
    response, after that one call, and the cache is as it was. *)
Theorem crowdsec_from_cache_error_is_miss (r : request_rec I) (w : world I)
  (sconf : crowdsec_server_rec I) (p : ap_socache_provider_t I) :
  server_config r = Some sconf -> cache_provider sconf = Some p ->
  fst (retrieve p (w_cache w) (apr_time_now h)
                (fst (crowdsec_cache_key (useragent_ip r)))
                (snd (crowdsec_cache_key (useragent_ip r)))
                (MAX_VAL_LEN - 1)%nat) <> APR_SUCCESS ->
  exists w1,
    crowdsec_from_cache h r w = Some (None, w1)
    /\ w_cache w1 = w_cache w
    /\ w_calls w1
       = w_calls w ++ [CallRetrieve (fst (crowdsec_cache_key (useragent_ip r)))
                                    (snd (crowdsec_cache_key (useragent_ip r)))].
Proof.
  intros Hs Hp.
  unfold crowdsec_from_cache. unfold_monad. rewrite Hs, Hp.
  destruct (crowdsec_cache_key (useragent_ip r)) as [k n]. cbn.
  destruct (retrieve p _ _ _ _ _) as [st val]. cbn. intros Hst.
  apply Z.eqb_neq in Hst. rewrite Hst.
  destruct (APR_STATUS_IS_NOTFOUND st); eexists;
    (split; [reflexivity|]); cbn; auto.
Qed.

(** X21.  What is written to the cache is what the next lookup for the
    same client reads: the write and the read derive the same key, so
    with a provider whose [retrieve] gives back what [store] took, a
    response written after a successful try-lock is the result of the
    lookup, on a later request [r'] under a host [h'] too. *)
Theorem crowdsec_cache_round_trip (h' : host I) (r r' : request_rec I)
  (resp : string) (w : world I) (sconf : crowdsec_server_rec I)
  (p : ap_socache_provider_t I) :
  server_config r = Some sconf -> server_config r' = Some sconf ->
  useragent_ip r' = useragent_ip r ->
  cache_mutex sconf = true -> cache_provider sconf = Some p ->
  apr_global_mutex_trylock h = APR_SUCCESS ->
  c_str resp = resp ->
  retrieve p
    (snd (store p (w_cache w) (apr_time_now h)
                (fst (crowdsec_cache_key (useragent_ip r)))
                (snd (crowdsec_cache_key (useragent_ip r)))
                (apr_time_now h + cache_timeout sconf) resp
                (String.length resp)))
    (apr_time_now h')
    (fst (crowdsec_cache_key (useragent_ip r)))
    (snd (crowdsec_cache_key (useragent_ip r)))
    (MAX_VAL_LEN - 1)%nat
  = (APR_SUCCESS, resp) ->
  exists w1 w2,
    crowdsec_to_cache h r resp w = Some (tt, w1)
    /\ crowdsec_from_cache h' r' w1 = Some (Some resp, w2).
Proof.
  intros Hs Hs' Hip Hm Hp Hlock Hstr Hret.
  destruct (crowdsec_to_cache_cache h r resp w sconf p Hs (fun _ => Hp))
    as (w1 & Hput & Hcache).
  rewrite Hm, Hlock in Hcache. cbn in Hcache.
  exists w1. unfold crowdsec_from_cache. unfold_monad.
  rewrite Hs', Hp, Hip.
  destruct (crowdsec_cache_key (useragent_ip r)) as [k n]. cbn in *.
  rewrite Hcache, Hret. cbn. rewrite Hstr.
  eexists. split; [exact Hput | reflexivity].
Qed.

End Engine.

Section Outcomes.

Context {I : Type} (h : host I).

(** X22.  Under [CrowdsecFallback fail], a subrequest that returns a
    status other than OK and 404 ends the request with 500: the two
    notes for the error page are set, nothing is classified, and nothing
    is locked or written to the cache. *)
Theorem crowdsec_fallback_fail (r : request_rec I) (w w1 : world I)
  (sconf : crowdsec_server_rec I) (u : struct_url) :
  main r = false -> enable (per_dir_config r) = true ->
  server_config r = Some sconf -> url sconf = Some u ->
  crowdsec_from_cache h r w = Some (None, w1) ->
  status (ap_sub_req_method_uri h "GET" (uri r) r) = HTTP_OK ->
  run_status (crowdsec_run h sconf u r) <> OK ->
  run_status (crowdsec_run h sconf u r) <> HTTP_NOT_FOUND ->
  fallback (per_dir_config r) = CROWDSEC_FAIL ->
  exists w',
    crowdsec_check_access h r w = Some (HTTP_INTERNAL_SERVER_ERROR, w')
    /\ w_cache w' = w_cache w
    /\ w_custom_response w' = w_custom_response w
    /\ w_notes w'
       = apr_table_setn
           (apr_table_setn (w_notes w) "error-notes"
              ("Could not verify the request against the threat " +:+
               "intelligence service, the request has been rejected."))
           "verbose-error-to" "*"
    /\ w_calls w'
       = w_calls w1 ++ [CallSubReqMethodUri "GET" (uri r);
                        CallRunSubReq (crowdsec_subrequest h sconf u r)].
Proof.
  intros Hm He Hs Hu Hmiss Hsub Hok H404 Hfb.
  destruct (crowdsec_from_cache_frame h r w w1 None Hmiss)
    as (Hc1 & _ & Hn1 & Hr1).
  assert (Hp : exists w',
    crowdsec_proxy h r w1 = Some ((HTTP_INTERNAL_SERVER_ERROR, None), w')
    /\ w_cache w' = w_cache w1
    /\ w_custom_response w' = w_custom_response w1
    /\ w_notes w'
       = apr_table_setn
           (apr_table_setn (w_notes w1) "error-notes"
              ("Could not verify the request against the threat " +:+
               "intelligence service, the request has been rejected."))
           "verbose-error-to" "*"
    /\ w_calls w'
       = w_calls w1 ++ [CallSubReqMethodUri "GET" (uri r);
                        CallRunSubReq (crowdsec_subrequest h sconf u r)]).
  { unfold crowdsec_proxy. unfold_monad. rewrite Hs, Hu.
    cbn -[crowdsec_target Z.eqb apr_table_setn]. rewrite Hsub.
    change (negb (HTTP_OK =? HTTP_OK)) with false.
    cbn -[crowdsec_target Z.eqb apr_table_setn].
    fold (crowdsec_subrequest h sconf u r).
    fold (crowdsec_run h sconf u r).
    apply Z.eqb_neq in Hok. rewrite Hok.
    assert (H404' : (HTTP_NOT_FOUND =? run_status (crowdsec_run h sconf u r))
                    = false) by (apply Z.eqb_neq; congruence).
    rewrite H404', Hfb. cbn -[crowdsec_target apr_table_setn].
    eexists. split; [reflexivity|]. cbn -[apr_table_setn].
    rewrite <- app_assoc. repeat split. }
  destruct Hp as (w' & Hp & Hc & Hr & Hn & Hcalls).
  exists w'.
  rewrite crowdsec_check_access_enabled by assumption.
  rewrite (crowdsec_query_miss h r w w1);
    [| assumption | now apply (no_url_false r sconf u) | assumption].
  rewrite Hp. split; [reflexivity|].
  split; [congruence|]. split; [congruence|].
  split; [rewrite Hn, Hn1; reflexivity | exact Hcalls].
Qed.

(** X23.  A subrequest that cannot be created (its status is not 200) is
    not run: [crowdsec_proxy] returns its status and leaves the response
    unwritten.  When that status is not OK, the access check returns it
    as it is, whatever [fallback] says, sets no note and writes nothing
    to the cache.  When that status is OK, [crowdsec_query] takes the
    call for a success and reads the response that was never written:
    the run faults. *)
Theorem crowdsec_subrequest_rejected (r : request_rec I) (w w1 : world I)
  (sconf : crowdsec_server_rec I) (u : struct_url) :
  main r = false -> enable (per_dir_config r) = true ->
  server_config r = Some sconf -> url sconf = Some u ->
  crowdsec_from_cache h r w = Some (None, w1) ->
  status (ap_sub_req_method_uri h "GET" (uri r) r) <> HTTP_OK ->
  (exists w2,
     crowdsec_proxy h r w1
     = Some ((status (ap_sub_req_method_uri h "GET" (uri r) r), None), w2)
     /\ w_calls w2 = w_calls w1 ++ [CallSubReqMethodUri "GET" (uri r)])
  /\ if status (ap_sub_req_method_uri h "GET" (uri r) r) =? OK then
       crowdsec_check_access h r w = None
     else
       exists w',
         crowdsec_check_access h r w
         = Some (status (ap_sub_req_method_uri h "GET" (uri r) r), w')
         /\ w_cache w' = w_cache w
         /\ w_notes w' = w_notes w
         /\ w_calls w' = w_calls w1 ++ [CallSubReqMethodUri "GET" (uri r)].
Proof.
  intros Hm He Hs Hu Hmiss Hsub.
  destruct (crowdsec_from_cache_frame h r w w1 None Hmiss)
    as (Hc1 & _ & Hn1 & _).
  destruct (crowdsec_proxy_rejected h r w1 sconf u Hs Hu Hsub)
    as (w' & Hp & Hc & Hn & Hcalls).
  split; [exists w'; split; assumption|].
  rewrite crowdsec_check_access_enabled by assumption.
  rewrite (crowdsec_query_miss h r w w1);
    [| assumption | now apply (no_url_false r sconf u) | assumption].
  rewrite Hp.
  destruct (status (ap_sub_req_method_uri h "GET" (uri r) r) =? OK) eqn:Hok.
  - reflexivity.
  - exists w'. cbn [negb]. rewrite Hok.
    split; [reflexivity|]. split; [congruence|].
    split; [congruence | exact Hcalls].
Qed.

(** X24.  An answer of the service is cached as it was recorded: when
    the subrequest ran with status OK and a response status other than
    404 and the filter recorded [body], a configured mutex whose
    try-lock succeeds leads to one [store] of [body] under the client's
    key with expiry [apr_time_now + cache_timeout], and the cache is
    what that call leaves; otherwise the cache is as before. *)
Theorem crowdsec_answer_is_cached (r : request_rec I) (w w1 : world I)
  (sconf : crowdsec_server_rec I) (u : struct_url)
  (provider : ap_socache_provider_t I) (body : string) :
  main r = false -> enable (per_dir_config r) = true ->
  server_config r = Some sconf -> url sconf = Some u ->
  crowdsec_from_cache h r w = Some (None, w1) ->
  status (ap_sub_req_method_uri h "GET" (uri r) r) = HTTP_OK ->
  run_status (crowdsec_run h sconf u r) = OK ->
  run_rr_status (crowdsec_run h sconf u r) <> HTTP_NOT_FOUND ->
  crowdsec_recorded h sconf u r = Some body ->
  (cache_mutex sconf = true -> cache_provider sconf = Some provider) ->
  exists st w',
    crowdsec_query h r w = Some (st, w')
    /\ crowdsec_check_access h r w
       = Some (if st =? OK then DECLINED else st, w')
    /\ w_cache w'
       = if cache_mutex sconf && (apr_global_mutex_trylock h =? APR_SUCCESS)
         then snd (store provider (w_cache w) (apr_time_now h)
                         (fst (crowdsec_cache_key (useragent_ip r)))
                         (snd (crowdsec_cache_key (useragent_ip r)))
                         (apr_time_now h + cache_timeout sconf) body
                         (String.length body))
         else w_cache w.
Proof.
  intros Hm He Hs Hu Hmiss Hsub Hok H404 Hrec Hwf.
  destruct (crowdsec_from_cache_frame h r w w1 None Hmiss)
    as (Hc1 & _ & _ & _).
  destruct (crowdsec_proxy_answered h r w1 sconf u Hs Hu Hsub Hok H404)
    as (w2 & Hp & Hc2 & _).
  rewrite Hrec in Hp.
  destruct (crowdsec_to_cache_cache h r body w2 sconf provider Hs Hwf)
    as (w3 & Hput & Hc3).
  destruct (crowdsec_query_response_cases h r body w3)
    as (st & w' & Hq & Hc4 & _).
  assert (Hquery : crowdsec_query h r w = Some (st, w')).
  { rewrite (crowdsec_query_miss h r w w1);
      [| assumption | now apply (no_url_false r sconf u) | assumption].
    rewrite Hp. cbn. now rewrite Hput. }
  exists st, w'. split; [exact Hquery|]. split.
  { rewrite crowdsec_check_access_enabled by assumption.
    now rewrite Hquery. }
  rewrite Hc4, Hc3, Hc2, Hc1. reflexivity.
Qed.

(** X25.  Every subrequest that [crowdsec_proxy] runs is cut off from the
    client's request: it has no parent, is a reverse proxy request for
    the proxy handler, has the CROWDSEC filter as its only output filter
    and the null filter as its only input filter, and carries no header
    but User-Agent and, when a key is configured, X-Api-Key. *)
Theorem crowdsec_proxy_isolates (r : request_rec I) (w w' : world I)
  (x : Z * option string) (rr : request_rec I) :
  crowdsec_proxy h r w = Some (x, w') ->
  In (CallRunSubReq rr) (w_calls w') ->
  In (CallRunSubReq rr) (w_calls w)
  \/ (main rr = false /\ proxyreq rr = PROXYREQ_REVERSE
      /\ handler rr = Some "proxy-server"
      /\ output_filters rr = ["CROWDSEC"]
      /\ input_filters rr = ["CROWDSEC_NULL"]
      /\ trailers_in rr = []
      /\ exists sconf,
           server_config r = Some sconf
           /\ headers_in rr
              = match key sconf with
                | Some k => [("X-Api-Key", k);
                             ("User-Agent", ap_get_server_description h)]
                | None => [("User-Agent", ap_get_server_description h)]
                end).
Proof.
  intros Hrun Hin.
  assert (Hcalls :
    w_calls w' = w_calls w ++ [CallSubReqMethodUri "GET" (uri r)]
    \/ exists sconf u,
         server_config r = Some sconf
         /\ w_calls w'
            = w_calls w ++ [CallSubReqMethodUri "GET" (uri r);
                            CallRunSubReq (crowdsec_subrequest h sconf u r)]).
  { revert Hrun. unfold crowdsec_proxy. unfold_monad.
    destruct (server_config r) as [sconf|]; [|discriminate].
    destruct (url sconf) as [u|]; [|discriminate].
    cbn -[crowdsec_target Z.eqb block_body].
    destruct (status (ap_sub_req_method_uri h "GET" (uri r) r) =? HTTP_OK);
      cbn -[crowdsec_target Z.eqb block_body].
    - fold (crowdsec_subrequest h sconf u r).
      fold (crowdsec_run h sconf u r).
      intros Hrun. right. exists sconf, u. split; [reflexivity|].
      revert Hrun.
      destruct ((HTTP_NOT_FOUND =? run_status (crowdsec_run h sconf u r))
                || (run_status (crowdsec_run h sconf u r) =? OK)
                   && (HTTP_NOT_FOUND
                       =? run_rr_status (crowdsec_run h sconf u r)));
        cbn -[crowdsec_target Z.eqb block_body].
      + intros [= <- <-]. cbn. now rewrite <- app_assoc.
      + destruct (run_status (crowdsec_run h sconf u r) =? OK);
          cbn -[crowdsec_target Z.eqb block_body].
        * match goal with
          | |- context [response ?c] => destruct (response c)
          end; intros [= <- <-]; cbn; now rewrite <- app_assoc.
        * destruct (fallback (per_dir_config r));
            intros [= <- <-]; cbn; now rewrite <- app_assoc.
    - intros [= <- <-]. now left. }
  destruct Hcalls as [Hcalls | (sconf & u & Hs & Hcalls)];
    rewrite Hcalls in Hin; apply in_app_or in Hin as [Hin | Hin];
    try (now left).
  - cbn in Hin. destruct Hin as [Hin | []]. discriminate.
  - cbn in Hin. destruct Hin as [Hin | [Hin | []]]; [discriminate|].
    injection Hin as <-. right.
    repeat (split; [reflexivity|]).
    exists sconf. split; [assumption|].
    unfold crowdsec_subrequest, proxy_subrequest. cbn.
    destruct (key sconf); reflexivity.
Qed.

End Outcomes.

(** ** The CROWDSEC filter *)

Lemma crowdsec_out_filter_absorbs (conf : crowdsec_config_rec)
  (a b : list string) :
  crowdsec_out_filter (crowdsec_out_filter conf a) b
  = crowdsec_out_filter conf b.
Proof. reflexivity. Qed.

(** X26.  The filter keeps the brigade it was last invoked with and
    drops what it recorded before: a body that arrives in several
    brigades is recorded as its last brigade alone.  No other setting of
    the record changes. *)
Theorem crowdsec_out_filter_keeps_last (conf : crowdsec_config_rec)
  (bbs : list (list string)) (bb : list string) :
  fold_left crowdsec_out_filter (bbs ++ [bb]) conf
  = {| response := Some (c_str (apr_brigade_flatten bb));
       location := location conf; enable := enable conf;
       fallback := fallback conf; blockedhttpcode := blockedhttpcode conf;
       enable_set := enable_set conf; fallback_set := fallback_set conf;
       location_set := location_set conf;
       blockedhttpcode_set := blockedhttpcode_set conf |}.
Proof.
  rewrite fold_left_app. cbn [fold_left].
  revert conf. induction bbs as [|b bbs IH]; intros conf; [reflexivity|].
  cbn [fold_left]. rewrite IH. reflexivity.
Qed.

Lemma c_str_nul (a b : string) :
  str_mem NUL a = false -> c_str (a +:+ String NUL b) = a.
Proof.
  induction a as [|c a IH]; intros Hm; [reflexivity|].
  simpl in Hm. apply orb_false_iff in Hm as [Hc Hm].
  change (String c a +:+ String NUL b) with (String c (a +:+ String NUL b)).
  simpl. rewrite Hc. now rewrite IH.
Qed.

(** X27.  What the filter records ends at the first NUL byte of the
    body: a body [a], NUL, [b] is recorded as [a], so [null] followed by
    a NUL byte and anything else is recorded as "null". *)
Theorem crowdsec_out_filter_stops_at_nul (conf : crowdsec_config_rec)
  (a b : string) :
  str_mem NUL a = false ->
  response (crowdsec_out_filter conf [a +:+ String NUL b]) = Some a.
Proof.
  intros Hm. cbn [crowdsec_out_filter response apr_brigade_flatten fold_right].
  rewrite str_app_empty. now rewrite c_str_nul.
Qed.

Lemma crowdsec_out_filter_stops_at_nul_witness :
  response (crowdsec_out_filter conf_on ["null" +:+ String NUL "[{}]"])
  = Some "null".
Proof.
  apply (crowdsec_out_filter_stops_at_nul conf_on "null" "[{}]").
  reflexivity.
Defined.

(** ** The further properties on the reference host *)

Lemma crowdsec_no_mutex_no_write_witness :
  w_cache (world_of empty_world
             (crowdsec_check_access (host_answering ban_body)
                (request_from_client false (conf_on_429 "fail"))
                empty_world))
  = w_cache empty_world
  /\ w_mutex_held (world_of empty_world
                     (crowdsec_check_access (host_answering ban_body)
                        (request_from_client false (conf_on_429 "fail"))
                        empty_world))
     = w_mutex_held empty_world.
Proof.
  apply (crowdsec_no_mutex_no_write (host_answering ban_body)
           (request_from_client false (conf_on_429 "fail"))
           empty_world _ HTTP_TOO_MANY_REQUESTS
           (reference_server false table_provider) eq_refl eq_refl).
  apply run_returns. vm_compute. reflexivity.
Defined.

Lemma crowdsec_mutex_released_witness :
  w_mutex_held (world_of empty_world
                  (crowdsec_check_access (host_answering ban_body)
                     (request_from_client true (conf_on_429 "fail"))
                     empty_world))
  = false.
Proof.
  apply (crowdsec_mutex_released (host_answering ban_body)
           (request_from_client true (conf_on_429 "fail"))
           empty_world _ HTTP_TOO_MANY_REQUESTS eq_refl eq_refl).
  apply run_returns. vm_compute. reflexivity.
Defined.

Lemma crowdsec_check_access_codes_witness :
  HTTP_TOO_MANY_REQUESTS <> OK
  /\ (HTTP_TOO_MANY_REQUESTS = DECLINED
      \/ HTTP_TOO_MANY_REQUESTS = HTTP_INTERNAL_SERVER_ERROR
      \/ HTTP_TOO_MANY_REQUESTS
         = blockedhttpcode
             (per_dir_config (request_from_client true (conf_on_429 "fail")))
      \/ HTTP_TOO_MANY_REQUESTS
         = status (ap_sub_req_method_uri (host_answering ban_body) "GET"
                     (uri (request_from_client true (conf_on_429 "fail")))
                     (request_from_client true (conf_on_429 "fail")))
         /\ HTTP_TOO_MANY_REQUESTS <> HTTP_OK).
Proof.
  apply (crowdsec_check_access_codes (host_answering ban_body)
           (request_from_client true (conf_on_429 "fail"))
           empty_world
           (world_of empty_world
              (crowdsec_check_access (host_answering ban_body)
                 (request_from_client true (conf_on_429 "fail"))
                 empty_world))
           HTTP_TOO_MANY_REQUESTS).
  apply run_returns. vm_compute. reflexivity.
Defined.

Lemma crowdsec_hit_stays_local_witness :
  exists st w' cs,
    crowdsec_check_access (host_answering ban_body)
      (request_from_client true (conf_on_429 "fail"))
      (world_with_entry "198.51.100.9" 61000000 "null")
    = Some (st, w')
    /\ w_cache w'
       = w_cache (world_with_entry "198.51.100.9" 61000000 "null")
    /\ w_calls w'
       = w_calls (world_with_entry "198.51.100.9" 61000000 "null") ++ cs
    /\ forallb (fun c => negb (is_cache_write c) && negb (is_upstream c)) cs
       = true.
Proof.
  apply (crowdsec_hit_stays_local (host_answering ban_body)
           (request_from_client true (conf_on_429 "fail"))
           (world_with_entry "198.51.100.9" 61000000 "null")
           (world_of empty_world
              (crowdsec_from_cache (host_answering ban_body)
                 (request_from_client true (conf_on_429 "fail"))
                 (world_with_entry "198.51.100.9" 61000000 "null")))
           "null" eq_refl eq_refl eq_refl).
  apply run_returns. vm_compute. reflexivity.
Defined.

(** An entry longer than the buffer of [crowdsec_from_cache] cannot be
    read back. *)
Lemma crowdsec_from_cache_error_is_miss_witness :
  exists w1,
    crowdsec_from_cache (host_answering ban_body)
      (request_from_client true (conf_on_429 "fail"))
      (world_with_entry "198.51.100.9" 61000000 (spaces 300))
    = Some (None, w1)
    /\ w_cache w1
       = w_cache (world_with_entry "198.51.100.9" 61000000 (spaces 300))
    /\ w_calls w1
       = w_calls (world_with_entry "198.51.100.9" 61000000 (spaces 300))
         ++ [CallRetrieve
               (fst (crowdsec_cache_key
                       (useragent_ip
                          (request_from_client true (conf_on_429 "fail")))))
               (snd (crowdsec_cache_key
                       (useragent_ip
                          (request_from_client true (conf_on_429 "fail")))))].
Proof.
  apply (crowdsec_from_cache_error_is_miss (host_answering ban_body)
           (request_from_client true (conf_on_429 "fail"))
           (world_with_entry "198.51.100.9" 61000000 (spaces 300))
           (reference_server true table_provider) table_provider
           eq_refl eq_refl).
  vm_compute. discriminate.
Defined.

Lemma crowdsec_cache_round_trip_witness :
  exists w1 w2,
    crowdsec_to_cache (host_answering ban_body)
      (request_from_client true (conf_on_429 "fail")) ban_body empty_world
    = Some (tt, w1)
    /\ crowdsec_from_cache (host_failing 502)
         (request_from_client true conf_on) w1
       = Some (Some ban_body, w2).
Proof.
  apply (crowdsec_cache_round_trip (host_answering ban_body)
           (host_failing 502)
           (request_from_client true (conf_on_429 "fail"))
           (request_from_client true conf_on)
           ban_body empty_world
           (reference_server true table_provider) table_provider
           eq_refl eq_refl eq_refl eq_refl eq_refl eq_refl eq_refl).
  vm_compute. reflexivity.
Defined.

Lemma crowdsec_fallback_fail_witness :
  exists w',
    crowdsec_check_access (host_failing 502)
      (request_from_client false (conf_on_429 "fail")) empty_world
    = Some (HTTP_INTERNAL_SERVER_ERROR, w')
    /\ w_cache w' = w_cache empty_world.
Proof.
  destruct (crowdsec_fallback_fail (host_failing 502)
              (request_from_client false (conf_on_429 "fail"))
              empty_world empty_world
              (reference_server false table_provider) reference_url
              eq_refl eq_refl eq_refl eq_refl eq_refl eq_refl)
    as (w' & Hrun & Hcache & _).
  - vm_compute. discriminate.
  - vm_compute. discriminate.
  - reflexivity.
  - exists w'. split; assumption.
Defined.

Lemma crowdsec_subrequest_rejected_witness :
  exists w',
    crowdsec_check_access
      (reference_host APR_SUCCESS HTTP_FORBIDDEN (answered "null") ("", None))
      (request_from_client false (conf_on_429 "allow")) empty_world
    = Some (HTTP_FORBIDDEN, w')
    /\ w_cache w' = w_cache empty_world.
Proof.
  destruct (crowdsec_subrequest_rejected
              (reference_host APR_SUCCESS HTTP_FORBIDDEN (answered "null")
                              ("", None))
              (request_from_client false (conf_on_429 "allow"))
              empty_world empty_world
              (reference_server false table_provider) reference_url
              eq_refl eq_refl eq_refl eq_refl eq_refl)
    as (_ & Hcheck).
  - vm_compute. discriminate.
  - change (status
              (ap_sub_req_method_uri
                 (reference_host APR_SUCCESS HTTP_FORBIDDEN (answered "null")
                                 ("", None))
                 "GET"
                 (uri (request_from_client false (conf_on_429 "allow")))
                 (request_from_client false (conf_on_429 "allow"))) =? OK)
      with false in Hcheck.
    destruct Hcheck as (w' & Hrun & Hcache & _).
    exists w'. split; assumption.
Defined.

(** The same with a subrequest whose status is 0: the run faults. *)
Example crowdsec_subrequest_status_zero :
  crowdsec_check_access
    (reference_host APR_SUCCESS OK (answered "null") ("", None))
    (request_from_client false (conf_on_429 "allow")) empty_world
  = None.
Proof. vm_compute. reflexivity. Qed.

Lemma crowdsec_answer_is_cached_witness :
  exists w',
    crowdsec_check_access (host_answering ban_body)
      (request_from_client true (conf_on_429 "fail")) empty_world
    = Some (HTTP_TOO_MANY_REQUESTS, w')
    /\ w_cache w' !! "198.51.100.9" = Some (61000000, ban_body).
Proof.
  assert (Hmiss :
    crowdsec_from_cache (host_answering ban_body)
      (request_from_client true (conf_on_429 "fail")) empty_world
    = Some (None,
            world_of empty_world
              (crowdsec_from_cache (host_answering ban_body)
                 (request_from_client true (conf_on_429 "fail"))
                 empty_world)))
    by (apply run_returns; vm_compute; reflexivity).
  destruct (crowdsec_answer_is_cached (host_answering ban_body)
              (request_from_client true (conf_on_429 "fail"))
              empty_world _
              (reference_server true table_provider) reference_url
              table_provider ban_body
              eq_refl eq_refl eq_refl eq_refl Hmiss eq_refl eq_refl)
    as (st & w' & Hq & Hrun & Hcache).
  - vm_compute. discriminate.
  - vm_compute. reflexivity.
  - reflexivity.
  - assert (Hst : st = HTTP_TOO_MANY_REQUESTS).
    { assert (Hq' :
        option_map fst
          (crowdsec_query (host_answering ban_body)
             (request_from_client true (conf_on_429 "fail")) empty_world)
        = Some HTTP_TOO_MANY_REQUESTS) by (vm_compute; reflexivity).
      rewrite Hq in Hq'. now injection Hq'. }
    subst st. exists w'. split; [exact Hrun|].
    rewrite Hcache. vm_compute. reflexivity.
Defined.

Lemma crowdsec_proxy_isolates_witness :
  headers_in
    (crowdsec_subrequest (host_answering ban_body)
       (reference_server false table_provider) reference_url
       (request_from_client false (conf_on_429 "fail")))
  = [("X-Api-Key", "secret"); ("User-Agent", "Apache")].
Proof.
  destruct (crowdsec_proxy_isolates (host_answering ban_body)
              (request_from_client false (conf_on_429 "fail"))
              empty_world
              (world_of empty_world
                 (crowdsec_proxy (host_answering ban_body)
                    (request_from_client false (conf_on_429 "fail"))
                    empty_world))
              (OK, Some ban_body)
              (crowdsec_subrequest (host_answering ban_body)
                 (reference_server false table_provider) reference_url
                 (request_from_client false (conf_on_429 "fail"))))
    as [[] | (_ & _ & _ & _ & _ & _ & sconf & Hs & Hh)].
  - apply run_returns. vm_compute. reflexivity.
  - right. left. reflexivity.
  - injection Hs as <-. exact Hh.
Defined.
